(** * imggen: batch image generation (generator.py, pricing.py, cli.py)

    A shallow embedding of the batch orchestrator of [imggen]: the
    collision check, the naming of the output files, the metadata sidecar
    writer, the thread-pool fan-out with its rate-limit break, the ordered
    replay of the results and the pricing lookup.

    Python values are embedded as follows.
    - [int] is [Z]; [float] is Rocq's primitive binary64 [float];
      [str] is [string]; [None] and the other dynamically typed values that
      flow through result dictionaries are [pyval].
    - A result dictionary returned by a provider is only ever read by key,
      so it is a [gmap string pyval].  The metadata dictionary is dumped to
      a file in insertion order, so it is an insertion-ordered association
      list with Python's [d[k] = v] as [dict_set].
    - The file system is a finite map from paths to contents.
    - What a run does to the outside is a trace of events: the lines it
      prints, the tasks it submits, the results it collects, the sidecars
      it writes.
    - A function that may raise returns [res].
    - The thread pool is sequentialised: the results of the tasks are
      those of the adapter on each request, and the order in which
      [as_completed] yields them is a parameter of the run. *)

From Stdlib Require Import Floats Ascii DecimalString.
From stdpp Require Import gmap strings list sorting.

Set Warnings "-inexact-float".
Open Scope Z_scope.

(** ** Python values *)

Inductive pyval :=
| VNone
| VBool (b : bool)
| VInt (z : Z)
| VFloat (f : float)
| VStr (s : string).

(** Truth value of a Python object, as tested by [if x:] and [x or y]. *)
Definition truthy (v : pyval) : bool :=
  match v with
  | VNone => false
  | VBool b => b
  | VInt z => negb (z =? 0)
  | VFloat f => negb (PrimFloat.eqb f 0%float)
  | VStr s => negb (String.eqb s "")
  end.

(** [v is not None] *)
Definition is_not_None (v : pyval) : bool :=
  match v with VNone => false | _ => true end.

(** [v != s] for a string [s]: only a string can be equal to a string. *)
Definition ne_str (v : pyval) (s : string) : bool :=
  match v with
  | VStr t => negb (String.eqb t s)
  | _ => true
  end.

(** An optional string argument ([Optional[str]]) tested by [if x:] or
    defaulted by [x or d]. *)
Definition str_truthy (o : option string) : bool :=
  match o with
  | Some s => negb (String.eqb s "")
  | None => false
  end.

Definition str_or (o : option string) (d : string) : string :=
  match o with
  | Some s => if String.eqb s "" then d else s
  | None => d
  end.

(** Exceptions: the class name and the text [str(e)] gives. *)
Record exn := Exn { exn_class : string; exn_str : string }.

Inductive res (A : Type) :=
| Ok (a : A)
| Raise (e : exn).
Arguments Ok {A} a.
Arguments Raise {A} e.

(** ** Strings and paths *)

Definition dquote : string := String (Ascii.ascii_of_nat 34) EmptyString.

Fixpoint str_repeat (s : string) (n : nat) : string :=
  match n with
  | O => ""
  | S k => s +:+ str_repeat s k
  end.

Definition digits (n : N) : string := NilZero.string_of_uint (N.to_uint n).

Definition zfill (w : nat) (s : string) : string :=
  str_repeat "0" (w - String.length s) +:+ s.

(** The format [{i:03d}]: zero padding to width three, the sign first. *)
Definition format_03d (z : Z) : string :=
  if z <? 0 then "-" +:+ zfill 2 (digits (Z.abs_N z))
  else zfill 3 (digits (Z.abs_N z)).

(** The format [{i}] of an [int]. *)
Definition format_d (z : Z) : string :=
  if z <? 0 then "-" +:+ digits (Z.abs_N z) else digits (Z.abs_N z).

Definition starts_with_sep (s : string) : bool :=
  match s with
  | String c _ => Ascii.eqb c "/"%char
  | EmptyString => false
  end.

Fixpoint ends_with_sep (s : string) : bool :=
  match s with
  | EmptyString => false
  | String c EmptyString => Ascii.eqb c "/"%char
  | String _ r => ends_with_sep r
  end.

(** [os.path.join(a, b)] of posixpath. *)
Definition os_path_join (a b : string) : string :=
  if starts_with_sep b then b
  else if String.eqb a "" || ends_with_sep a then a +:+ b
  else a +:+ "/" +:+ b.

(** [s.rstrip(os.sep)] *)
Fixpoint rstrip_sep (s : string) : string :=
  match s with
  | EmptyString => EmptyString
  | String c r =>
      match rstrip_sep r with
      | EmptyString => if Ascii.eqb c "/"%char then EmptyString else String c EmptyString
      | r' => String c r'
      end
  end.

(** [sep.join(l)] *)
Fixpoint str_join (sep : string) (l : list string) : string :=
  match l with
  | [] => ""
  | [s] => s
  | s :: r => s +:+ sep +:+ str_join sep r
  end.

(** [range(lo, hi)] *)
Definition py_range (lo hi : Z) : list Z := seqZ lo (hi - lo).

(** ** The file system *)

(** What a path holds: [Blob] for any entry whose contents the
    orchestrator never reads (an image, a directory), [Json] for a
    sidecar written by [json.dump]. *)
Inductive content :=
| Blob
| Json (record : list (string * pyval)).

Definition os_path_exists (fs : gmap string content) (p : string) : bool :=
  bool_decide (is_Some (fs !! p)).

(** ** generator.py: file names and the collision check *)

(** The name the dispatch loop gives slot [i] (generator.py, line 259);
    the collision check builds the same string (line 89). *)
Definition slot_filename (i : Z) : string :=
  "imggen_" +:+ format_03d i +:+ ".png".

Fixpoint collisions_loop (fs : gmap string content) (output_dir : string)
    (slots : list Z) (collisions : list string) : list string :=
  match slots with
  | [] => collisions
  | i :: rest =>
      let filename := slot_filename i in
      let filepath := os_path_join output_dir filename in
      if os_path_exists fs filepath
      then collisions_loop fs output_dir rest (collisions ++ [filename])
      else collisions_loop fs output_dir rest collisions
  end.

Definition check_file_collisions (fs : gmap string content)
    (output_dir : string) (variations : Z) : bool * list string :=
  let collisions := collisions_loop fs output_dir (py_range 1 (variations + 1)) [] in
  (bool_decide (0 < length collisions)%nat, collisions).

Definition format_collision_error (collisions : list string)
    (output_dir : string) : string :=
  let lines := ["Error: File collision detected"; ""] in
  let lines := lines ++ ["The following files already exist in " +:+ output_dir +:+ ":"] in
  let lines := lines ++ map (fun filename => "  - " +:+ filename) collisions in
  let lines := lines ++ [""] in
  let lines := lines ++ ["Please:"] in
  let lines := lines ++ ["  1. Delete or rename these files, OR"] in
  let lines := lines ++ ["  2. Use a different --output directory"] in
  let lines := lines ++ [""] in
  let lines := lines ++ ["No API calls were made (no charges incurred)."] in
  str_join (String (Ascii.ascii_of_nat 10) EmptyString) lines.

(** Modelled from the spec: [generate_filename(basename, index, total)] is
    imported by the tests from generator.py but is not defined there.  The
    naming rule of the specification: [imggen_{index:03d}.png] without a
    basename, [{basename}.png] when the total is one and
    [{basename}_{index}.png] otherwise. *)
Definition generate_filename (basename : option string) (index total : Z) : string :=
  match basename with
  | None => "imggen_" +:+ format_03d index +:+ ".png"
  | Some b =>
      if total =? 1 then b +:+ ".png"
      else b +:+ "_" +:+ format_d index +:+ ".png"
  end.

(** ** generator.py: the metadata writer *)

Fixpoint has_dot (s : string) : bool :=
  match s with
  | EmptyString => false
  | String c r => Ascii.eqb c "."%char || has_dot r
  end.

(** [s.rsplit(".", 1)[0]]: what precedes the last dot, or all of [s]. *)
Fixpoint rsplit_dot_head (s : string) : string :=
  match s with
  | EmptyString => EmptyString
  | String c r =>
      if has_dot r then String c (rsplit_dot_head r)
      else if Ascii.eqb c "."%char then EmptyString
      else String c r
  end.

(** [d[k] = v] on an insertion-ordered dictionary. *)
Fixpoint dict_set (k : string) (v : pyval) (d : list (string * pyval))
    : list (string * pyval) :=
  match d with
  | [] => [(k, v)]
  | (k', v') :: r =>
      if String.eqb k' k then (k', v) :: r else (k', v') :: dict_set k v r
  end.

(** [k in d] and [d.get(k)] on an insertion-ordered dictionary. *)
Fixpoint dict_lookup {V : Type} (k : string) (d : list (string * V)) : option V :=
  match d with
  | [] => None
  | (k', v) :: r => if String.eqb k' k then Some v else dict_lookup k r
  end.

(** The loop over [kwargs.items()] (lines 68-70). *)
Fixpoint add_extra_fields (kwargs : list (string * pyval))
    (metadata : list (string * pyval)) : list (string * pyval) :=
  match kwargs with
  | [] => metadata
  | (key, value) :: rest =>
      if is_not_None value
      then add_extra_fields rest (dict_set key value metadata)
      else add_extra_fields rest metadata
  end.

(** The dictionary built by lines 49-70 of [save_metadata_file]. *)
Definition build_metadata (original_prompt provider model : string)
    (revised_prompt created quality size cost_usd : pyval)
    (kwargs : list (string * pyval)) : list (string * pyval) :=
  let metadata :=
    [("original_prompt", VStr original_prompt);
     ("provider", VStr provider);
     ("model", VStr model)] in
  let metadata :=
    if is_not_None revised_prompt && ne_str revised_prompt original_prompt
    then dict_set "revised_prompt" revised_prompt metadata else metadata in
  let metadata :=
    if is_not_None created then dict_set "created" created metadata else metadata in
  let metadata :=
    if is_not_None quality then dict_set "quality" quality metadata else metadata in
  let metadata :=
    if is_not_None size then dict_set "size" size metadata else metadata in
  let metadata :=
    if is_not_None cost_usd then dict_set "cost_usd" cost_usd metadata else metadata in
  add_extra_fields kwargs metadata.

Definition json_path_of (output_dir filename : string) : string :=
  let base_name := rsplit_dot_head filename in
  let json_filename := base_name +:+ ".json" in
  os_path_join output_dir json_filename.

Definition save_metadata_file (fs : gmap string content)
    (output_dir filename original_prompt provider model : string)
    (revised_prompt created quality size cost_usd : pyval)
    (kwargs : list (string * pyval)) : gmap string content :=
  let json_path := json_path_of output_dir filename in
  let metadata :=
    build_metadata original_prompt provider model
      revised_prompt created quality size cost_usd kwargs in
  <[json_path := Json metadata]> fs.

(** The names Python binds to the function's own parameters: a keyword
    argument with one of these names never reaches [**kwargs]. *)
Definition named_parameters : list string :=
  ["output_dir"; "filename"; "original_prompt"; "provider"; "model";
   "revised_prompt"; "created"; "quality"; "size"; "cost_usd"].

(** ** pricing.py *)

Definition GOOGLE_PRICING : list (string * float) :=
  [("1K", 0.134%float); ("2K", 0.134%float); ("4K", 0.24%float)].

Definition OPENAI_PRICING : list (string * float) :=
  [("low", 0.009%float); ("medium", 0.034%float); ("high", 0.133%float)].

Definition DEFAULT_PROVIDER : string := "openai".
Definition DEFAULT_RESOLUTION : string := "1K".
Definition DEFAULT_QUALITY : string := "low".

(** [d[k]], which raises [KeyError] on a missing key. *)
Definition dict_subscript {V : Type} (d : list (string * V)) (k : string) : res V :=
  match dict_lookup k d with
  | Some v => Ok v
  | None => Raise (Exn "KeyError" k)
  end.

(** [d.get(k, default)] *)
Definition dict_get_default {V : Type} (d : list (string * V)) (k : string)
    (default : V) : V :=
  match dict_lookup k d with
  | Some v => v
  | None => default
  end.

Definition get_image_cost (provider resolution quality : option string) : res float :=
  let provider := str_or provider DEFAULT_PROVIDER in
  if String.eqb provider "google" then
    let resolution := str_or resolution DEFAULT_RESOLUTION in
    match dict_subscript GOOGLE_PRICING DEFAULT_RESOLUTION with
    | Ok fallback => Ok (dict_get_default GOOGLE_PRICING resolution fallback)
    | Raise e => Raise e
    end
  else if String.eqb provider "openai" then
    let quality := str_or quality DEFAULT_QUALITY in
    match dict_subscript OPENAI_PRICING DEFAULT_QUALITY with
    | Ok fallback => Ok (dict_get_default OPENAI_PRICING quality fallback)
    | Raise e => Raise e
    end
  else Ok 0%float.

Definition calculate_image_cost (provider quality resolution : option string) : res float :=
  get_image_cost provider resolution quality.

(** The float an int becomes when it is multiplied with a float: the
    nearest binary64 value, ties to even, exact up to 2^53. *)
Definition float_of_int (n : Z) : float :=
  SF2Prim (binary_normalize prec emax n 0 false).

(** ** Providers and the collaborators outside this module *)

(** The arguments of one [provider.generate_image] call. *)
Record request := Request {
  req_prompt : string;
  req_output_dir : string;
  req_filename : string;
  req_aspect_ratio : option string;
  req_resolution : option string;
  req_quality : option string;
  req_reference_images : list string;
  req_model : option string;
  req_input_fidelity : option string
}.

(** What a call of an adapter does: it returns a result dictionary or it
    raises an [Exception]. *)
Inductive adapter_outcome :=
| Returned (result : gmap string pyval)
| Raised (e : exn).

Record provider := Provider {
  name : string;
  get_generate_model : string;
  generate_image : request -> adapter_outcome
}.

(** The functions [generate_from_prompt] imports from [imggen.providers]
    and [imggen.config], and the built-in formatting it relies on
    ([str.title], the float formats [:.2f] and [str]). *)
Record runtime := Runtime {
  infer_provider_from_model : string -> res string;
  get_api_key_for_provider : string -> res string;
  get_provider : string -> string -> res provider;
  str_title : string -> string;
  format_2f : float -> string;
  float_str : float -> string
}.

(** [str(v)], as an f-string renders a value. *)
Definition py_str (rt : runtime) (v : pyval) : string :=
  match v with
  | VNone => "None"
  | VBool true => "True"
  | VBool false => "False"
  | VInt z => format_d z
  | VFloat f => float_str rt f
  | VStr s => s
  end.

(** [d.get(k)] on a result dictionary: [None] when the key is missing. *)
Definition result_get (d : gmap string pyval) (k : string) : pyval :=
  default VNone (d !! k).

(** ** generator.py: one image *)

Definition generate_single_image (p : provider) (req : request)
    : gmap string pyval :=
  match generate_image p req with
  | Returned result => result
  | Raised e =>
      <["error" := VStr (exn_str e)]> (<["status" := VStr "failed"]> ∅)
  end.

(** ** generator.py: the batch *)

(** What the run does to the outside, in the order it does it.
    [EvSubmit] is [executor.submit]: an adapter is only ever called from
    inside a submitted task.  [EvCollect] is one turn of the
    [as_completed] loop. *)
Inductive event :=
| EvPrint (line : string)
| EvSubmit (i : Z) (filename : string)
| EvCollect (i : Z)
| EvShutdown
| EvWriteJson (i : Z) (path : string) (record : list (string * pyval)).

Record world := World {
  fs : gmap string content;
  trace : list event
}.

Definition emit (e : event) (w : world) : world :=
  World (fs w) (trace w ++ [e]).

Definition print (line : string) (w : world) : world :=
  emit (EvPrint line) w.

Definition print_if (c : bool) (line : string) (w : world) : world :=
  if c then print line w else w.

Record arguments := Args {
  prompt : string;
  reference_images : list string;
  output_dir : string;
  variations : Z;
  provider_name : string;
  api_key : string;
  aspect_ratio : option string;
  quality : option string;
  resolution : option string;
  model : option string;
  input_fidelity : option string;
  dry_run : bool
}.

Definition opt_str (o : option string) : string :=
  match o with Some s => s | None => "None" end.

(** The request of slot [i]: the requests of a batch differ in the file
    name only. *)
Definition slot_request (a : arguments) (out_dir : string) (i : Z) : request :=
  Request (prompt a) out_dir (slot_filename i) (aspect_ratio a) (resolution a)
    (quality a) (reference_images a) (model a) (input_fidelity a).

(** Lines 258-273: every slot is submitted before any result is read. *)
Fixpoint submit_loop (p : provider) (a : arguments) (out_dir : string)
    (slots : list Z) (futures : gmap Z (string * gmap string pyval))
    (w : world) : gmap Z (string * gmap string pyval) * world :=
  match slots with
  | [] => (futures, w)
  | i :: rest =>
      let filename := slot_filename i in
      let future := generate_single_image p (slot_request a out_dir i) in
      submit_loop p a out_dir rest (<[i := (filename, future)]> futures)
        (emit (EvSubmit i filename) w)
  end.

(** Lines 276-286: [completion] is the order in which [as_completed]
    yields the futures.  The loop stops at the first result whose
    [rate_limited] entry is true. *)
Fixpoint collect_loop (futures : gmap Z (string * gmap string pyval))
    (completion : list Z) (results : gmap Z (string * gmap string pyval))
    (w : world) : gmap Z (string * gmap string pyval) * bool * world :=
  match completion with
  | [] => (results, false, w)
  | i :: rest =>
      match futures !! i with
      | None => collect_loop futures rest results w
      | Some (filename, result) =>
          let results := <[i := (filename, result)]> results in
          let w := emit (EvCollect i) w in
          if truthy (result_get result "rate_limited")
          then (results, true, emit EvShutdown w)
          else collect_loop futures rest results w
      end
  end.

Record tally := Tally {
  successful : Z;
  failed : Z;
  errors : list string
}.

Definition slot_line (i n : Z) (filename mark : string) : string :=
  "  [" +:+ format_d i +:+ "/" +:+ format_d n +:+ "] Generating "
    +:+ filename +:+ "... " +:+ mark.

Definition extra_fields (result : gmap string pyval) : list (string * pyval) :=
  [("model_version", result_get result "model_version");
   ("response_id", result_get result "response_id");
   ("finish_reason", result_get result "finish_reason");
   ("prompt_tokens", result_get result "prompt_tokens");
   ("output_tokens", result_get result "output_tokens")].

(** Lines 289-318: the replay of the collected results. *)
Fixpoint display_loop (rt : runtime) (p : provider) (a : arguments)
    (out_dir : string) (results : gmap Z (string * gmap string pyval))
    (slots : list Z) (t : tally) (w : world) : res tally * world :=
  match slots with
  | [] => (Ok t, w)
  | i :: rest =>
      match results !! i with
      | None => display_loop rt p a out_dir results rest t w
      | Some (filename, result) =>
          match result !! "status" with
          | None => (Raise (Exn "KeyError" "'status'"), w)
          | Some status =>
              if negb (ne_str status "success") then
                let w := print (slot_line i (variations a) filename "✓") w in
                let t := Tally (successful t + 1) (failed t) (errors t) in
                let record :=
                  build_metadata (prompt a) (name p) (get_generate_model p)
                    (result_get result "revised_prompt")
                    (result_get result "created")
                    (result_get result "quality")
                    (result_get result "size")
                    (result_get result "cost_usd")
                    (extra_fields result) in
                let w :=
                  World
                    (save_metadata_file (fs w) out_dir filename (prompt a)
                       (name p) (get_generate_model p)
                       (result_get result "revised_prompt")
                       (result_get result "created")
                       (result_get result "quality")
                       (result_get result "size")
                       (result_get result "cost_usd")
                       (extra_fields result))
                    (trace w ++ [EvWriteJson i (json_path_of out_dir filename) record]) in
                display_loop rt p a out_dir results rest t w
              else
                let w := print (slot_line i (variations a) filename "✗") w in
                let error :=
                  py_str rt (default (VStr "Unknown error") (result !! "error")) in
                let t :=
                  Tally (successful t) (failed t + 1)
                    (errors t ++ ["  - " +:+ filename +:+ ": " +:+ error]) in
                display_loop rt p a out_dir results rest t w
          end
      end
  end.

Definition print_all (lines : list string) (w : world) : world :=
  foldl (fun w line => print line w) w lines.

(** [cost_per_image * n] *)
Definition cost_times (cost_per_image : float) (n : Z) : float :=
  PrimFloat.mul cost_per_image (float_of_int n).

(** Lines 320-336. *)
Definition print_summary (rt : runtime) (out_dir : string)
    (cost_per_image : float) (t : tally) (w : world) : world :=
  let actual_cost := cost_times cost_per_image (successful t) in
  let w := print "" w in
  let w := print (str_repeat "=" 50) w in
  let w := print "Generation complete!" w in
  let w :=
    print ("  Successful: " +:+ format_d (successful t) +:+ "/"
             +:+ format_d (successful t + failed t)) w in
  let w :=
    if 0 <? failed t then
      let w :=
        print ("  Failed: " +:+ format_d (failed t) +:+ "/"
                 +:+ format_d (successful t + failed t)) w in
      let w := print "" w in
      let w := print "Errors:" w in
      print_all (errors t) w
    else w in
  let w := print "" w in
  let w := print ("Actual cost: $" +:+ format_2f rt actual_cost) w in
  print ("Output directory: " +:+ out_dir) w.

(** Lines 219-237. *)
Definition print_configuration (rt : runtime) (p : provider) (a : arguments)
    (out_dir pname : string) (estimated_cost : float) (w : world) : world :=
  let w :=
    print ("Generating " +:+ format_d (variations a) +:+ " image"
             +:+ (if 1 <? variations a then "s" else "") +:+ " with "
             +:+ str_title rt pname +:+ " (" +:+ get_generate_model p +:+ ")") w in
  let w := print "" w in
  let w := print "Configuration:" w in
  let w := print ("  Prompt: " +:+ dquote +:+ prompt a +:+ dquote) w in
  let w := print_if (str_truthy (quality a)) ("  Quality: " +:+ opt_str (quality a)) w in
  let w := print_if (str_truthy (resolution a)) ("  Resolution: " +:+ opt_str (resolution a)) w in
  let w := print_if (str_truthy (aspect_ratio a)) ("  Aspect ratio: " +:+ opt_str (aspect_ratio a)) w in
  let w := print_if (str_truthy (input_fidelity a)) ("  Input fidelity: " +:+ opt_str (input_fidelity a)) w in
  let w :=
    print_if (bool_decide (reference_images a ≠ []))
      ("  Reference images: " +:+ str_join ", " (reference_images a)) w in
  let w := print ("  Variations: " +:+ format_d (variations a)) w in
  let w :=
    print ("  Output: " +:+ out_dir +:+ "/imggen_001.png ... " +:+ out_dir
             +:+ "/imggen_" +:+ format_03d (variations a) +:+ ".png") w in
  let w := print "" w in
  print ("Estimated cost: $" +:+ format_2f rt estimated_cost) w.

(** Lines 208-213: the provider the batch runs on. *)
Definition resolve_provider (rt : runtime) (a : arguments)
    : res (string * provider) :=
  if str_truthy (model a) then
    match infer_provider_from_model rt (opt_str (model a)) with
    | Raise e => Raise e
    | Ok pname =>
        match get_api_key_for_provider rt pname with
        | Raise e => Raise e
        | Ok key =>
            match get_provider rt pname key with
            | Raise e => Raise e
            | Ok p => Ok (pname, p)
            end
        end
    end
  else
    match get_provider rt (provider_name a) (api_key a) with
    | Raise e => Raise e
    | Ok p => Ok (provider_name a, p)
    end.

(** Lines 245-336, after the estimate has been shown.  The constructor
    of [ThreadPoolExecutor] raises [ValueError] unless [max_workers] is
    positive. *)
Definition run_batch (rt : runtime) (p : provider) (a : arguments)
    (out_dir : string) (cost_per_image : float) (completion : list Z)
    (w : world) : res unit * world :=
  let w := print "" w in
  let max_workers := Z.min 4 (variations a) in
  if max_workers <=? 0 then
    (Raise (Exn "ValueError" "max_workers must be greater than 0"), w)
  else
    let slots := py_range 1 (variations a + 1) in
    let '(futures, w) := submit_loop p a out_dir slots ∅ w in
    let '(results, rate_limited, w) := collect_loop futures completion ∅ w in
    match display_loop rt p a out_dir results slots (Tally 0 0 []) w with
    | (Raise e, w) => (Raise e, w)
    | (Ok t, w) => (Ok tt, print_summary rt out_dir cost_per_image t w)
    end.

Definition generate_from_prompt (rt : runtime) (a : arguments)
    (completion : list Z) (w : world) : res unit * world :=
  let out_dir := rstrip_sep (output_dir a) in
  let '(has_collision, collisions) :=
    check_file_collisions (fs w) out_dir (variations a) in
  if has_collision then
    (Raise (Exn "ValueError" (format_collision_error collisions out_dir)), w)
  else
    match resolve_provider rt a with
    | Raise e => (Raise e, w)
    | Ok (pname, p) =>
        match calculate_image_cost (Some pname) (quality a) (resolution a) with
        | Raise e => (Raise e, w)
        | Ok cost_per_image =>
            let estimated_cost := cost_times cost_per_image (variations a) in
            let w := print_configuration rt p a out_dir pname estimated_cost w in
            if dry_run a then
              let w := print "" w in
              (Ok tt, print "Run without --dry-run to generate images." w)
            else run_batch rt p a out_dir cost_per_image completion w
        end
    end.

(** cli.py, lines 306-324: the call from [main] and the exit status. *)
Definition main_generate (rt : runtime) (a : arguments)
    (completion : list Z) (w : world) : Z * world :=
  match generate_from_prompt rt a completion w with
  | (Raise e, w) => (1, print ("Error: " +:+ exn_str e) w)
  | (Ok _, w) => (0, w)
  end.

(** ** Derived notions used to state the properties *)

(** The file names a batch of [variations] images targets: the names the
    dispatch loop assigns, slot by slot. *)
Definition target_filenames (variations : Z) : list string :=
  slot_filename <$> py_range 1 (variations + 1).

(** The file names of the tasks handed to the executor, in order. *)
Definition submitted_filenames (tr : list event) : list string :=
  omap (fun e => match e with EvSubmit _ f => Some f | _ => None end) tr.

(** The sidecars written, in order. *)
Definition written_sidecars (tr : list event) : list (Z * string) :=
  omap (fun e => match e with EvWriteJson i path _ => Some (i, path) | _ => None end) tr.

(** The standard output. *)
Definition stdout (tr : list event) : list string :=
  omap (fun e => match e with EvPrint line => Some line | _ => None end) tr.

(** The tasks handed to the executor, in order: slot and file name. *)
Definition submitted_slots (tr : list event) : list (Z * string) :=
  omap (fun e => match e with EvSubmit i f => Some (i, f) | _ => None end) tr.

(** The parameters of [check_file_collisions] (generator.py, line 77). *)
Definition check_file_collisions_parameters : list string :=
  ["output_dir"; "variations"].

(** A call [check_file_collisions(output_dir, variations, **keywords)]
    with its two positional arguments.  Python binds a keyword to the
    parameter of that name: it raises [TypeError] for a parameter that a
    positional argument has filled and for a name that is no parameter. *)
Definition call_check_file_collisions (fs : gmap string content)
    (output_dir : string) (variations : Z) (keywords : list (string * pyval))
    : res (bool * list string) :=
  match keywords with
  | [] => Ok (check_file_collisions fs output_dir variations)
  | (key, _) :: _ =>
      if bool_decide (key ∈ check_file_collisions_parameters)
      then Raise (Exn "TypeError"
                    ("check_file_collisions() got multiple values for argument '"
                       +:+ key +:+ "'"))
      else Raise (Exn "TypeError"
                    ("check_file_collisions() got an unexpected keyword argument '"
                       +:+ key +:+ "'"))
  end.

(** ** Sample collaborators and runs *)

(** A registry with one provider whose adapter behaves as [behaviour]. *)
Definition sample_provider (behaviour : request -> adapter_outcome) : provider :=
  Provider "openai" "gpt-image-1.5" behaviour.

Definition sample_runtime (behaviour : request -> adapter_outcome) : runtime :=
  Runtime (fun _ => Ok "openai") (fun _ => Ok "sk-test")
    (fun _ _ => Ok (sample_provider behaviour))
    (fun s => s) (fun _ => "<float>") (fun _ => "<float>").

Definition sample_arguments (dir : string) (n : Z) : arguments :=
  Args "a serene landscape" [] dir n "openai" "sk-test" None None None None None false.

Definition success_result (filename : string) (cost : float) : gmap string pyval :=
  <["cost_usd" := VFloat cost]>
    (<["filename" := VStr filename]> (<["status" := VStr "success"]> ∅)).

Definition failed_result (msg : string) : gmap string pyval :=
  <["error" := VStr msg]> (<["status" := VStr "failed"]> ∅).

Definition rate_limited_result : gmap string pyval :=
  <["rate_limited" := VBool true]> (failed_result "Rate limit exceeded").

(** An adapter that succeeds on every request. *)
Definition always_succeeds (req : request) : adapter_outcome :=
  Returned (success_result (req_filename req) 0.2%float).

(** An adapter that is rate limited on slot 2 and succeeds elsewhere. *)
Definition rate_limited_on_2 (req : request) : adapter_outcome :=
  if String.eqb (req_filename req) "imggen_002.png"
  then Returned rate_limited_result
  else Returned (success_result (req_filename req) 0.2%float).

(** An adapter that raises on slot 2 and succeeds elsewhere. *)
Definition raises_on_2 (req : request) : adapter_outcome :=
  if String.eqb (req_filename req) "imggen_002.png"
  then Raised (Exn "ConnectionError" "429 connection reset")
  else Returned (success_result (req_filename req) 0.2%float).

(** An adapter that fails on slot 4 and succeeds elsewhere. *)
Definition fails_on_4 (req : request) : adapter_outcome :=
  if String.eqb (req_filename req) "imggen_004.png"
  then Returned (failed_result "No image data in response")
  else Returned (success_result (req_filename req) 0.2%float).

Definition empty_world : world := World ∅ [].

Definition world_with (path : string) : world := World {[path := Blob]} [].

(** An optional field in the record: present unless its value is [None]. *)
Definition field_if_present (key : string) (value : pyval) : list (string * pyval) :=
  if is_not_None value then [(key, value)] else [].

(** What Python's call protocol guarantees of [**kwargs]: the keys are
    distinct and none is the name of a parameter of the function. *)
Definition kwargs_well_formed (kwargs : list (string * pyval)) : Prop :=
  NoDup kwargs.*1 /\ forall k, k ∈ kwargs.*1 -> k ∉ named_parameters.

(** The result the task of slot [i] produces. *)
Definition slot_result (p : provider) (a : arguments) (out_dir : string) (i : Z)
    : gmap string pyval :=
  generate_single_image p (slot_request a out_dir i).

Definition is_rate_limited (result : gmap string pyval) : bool :=
  truthy (result_get result "rate_limited").

(** The results held after the slots [cs] have been collected. *)
Definition results_of (p : provider) (a : arguments) (out_dir : string)
    (cs : list Z) : gmap Z (string * gmap string pyval) :=
  list_to_map ((fun i => (i, (slot_filename i, slot_result p a out_dir i))) <$> cs).

(** The slots read by the [as_completed] loop: the completion order up to
    and including the first rate-limited result. *)
Fixpoint collected (futures : gmap Z (string * gmap string pyval))
    (completion : list Z) : list Z :=
  match completion with
  | [] => []
  | i :: rest =>
      match futures !! i with
      | None => collected futures rest
      | Some (_, result) =>
          if is_rate_limited result then [i] else i :: collected futures rest
      end
  end.

Fixpoint short_circuited (futures : gmap Z (string * gmap string pyval))
    (completion : list Z) : bool :=
  match completion with
  | [] => false
  | i :: rest =>
      match futures !! i with
      | None => short_circuited futures rest
      | Some (_, result) =>
          if is_rate_limited result then true else short_circuited futures rest
      end
  end.

(** How the replay treats a slot. *)
Inductive slot_outcome :=
| NotCollected
| Succeeded
| Failed
| NoStatus.

Global Instance slot_outcome_eq_dec : EqDecision slot_outcome.
Proof. solve_decision. Defined.

Definition classify (results : gmap Z (string * gmap string pyval)) (i : Z)
    : slot_outcome :=
  match results !! i with
  | None => NotCollected
  | Some (_, result) =>
      match result !! "status" with
      | None => NoStatus
      | Some status => if negb (ne_str status "success") then Succeeded else Failed
      end
  end.

Definition count_outcome (o : slot_outcome)
    (results : gmap Z (string * gmap string pyval)) (slots : list Z) : Z :=
  Z.of_nat (length (filter (fun i => classify results i = o) slots)).

(** What the replay emits for slot [i]. *)
Definition slot_events (p : provider) (a : arguments) (out_dir : string)
    (results : gmap Z (string * gmap string pyval)) (i : Z) : list event :=
  match results !! i with
  | None => []
  | Some (filename, result) =>
      match classify results i with
      | Succeeded =>
          [EvPrint (slot_line i (variations a) filename "✓");
           EvWriteJson i (json_path_of out_dir filename)
             (build_metadata (prompt a) (name p) (get_generate_model p)
                (result_get result "revised_prompt")
                (result_get result "created")
                (result_get result "quality")
                (result_get result "size")
                (result_get result "cost_usd")
                (extra_fields result))]
      | Failed => [EvPrint (slot_line i (variations a) filename "✗")]
      | _ => []
      end
  end.

(** The error line the replay keeps for slot [i]. *)
Definition slot_errors (rt : runtime)
    (results : gmap Z (string * gmap string pyval)) (i : Z) : list string :=
  match results !! i with
  | None => []
  | Some (filename, result) =>
      match classify results i with
      | Failed =>
          ["  - " +:+ filename +:+ ": "
             +:+ py_str rt (default (VStr "Unknown error") (result !! "error"))]
      | _ => []
      end
  end.

(** The sidecar the replay writes for slot [i]. *)
Definition slot_write (p : provider) (a : arguments) (out_dir : string)
    (results : gmap Z (string * gmap string pyval))
    (files : gmap string content) (i : Z) : gmap string content :=
  match results !! i with
  | None => files
  | Some (filename, result) =>
      match classify results i with
      | Succeeded =>
          save_metadata_file files out_dir filename (prompt a)
            (name p) (get_generate_model p)
            (result_get result "revised_prompt")
            (result_get result "created")
            (result_get result "quality")
            (result_get result "size")
            (result_get result "cost_usd")
            (extra_fields result)
      | _ => files
      end
  end.

(** The tally the replay reaches over [slots]. *)
Definition tally_of (rt : runtime)
    (results : gmap Z (string * gmap string pyval)) (slots : list Z) : tally :=
  Tally (count_outcome Succeeded results slots)
    (count_outcome Failed results slots)
    (concat (slot_errors rt results <$> slots)).

(** The lines of the summary. *)
Definition summary_lines (rt : runtime) (out_dir : string)
    (cost_per_image : float) (t : tally) : list string :=
  [""; str_repeat "=" 50; "Generation complete!";
   "  Successful: " +:+ format_d (successful t) +:+ "/"
     +:+ format_d (successful t + failed t)]
  ++ (if 0 <? failed t
      then ["  Failed: " +:+ format_d (failed t) +:+ "/"
              +:+ format_d (successful t + failed t); ""; "Errors:"] ++ errors t
      else [])
  ++ [""; "Actual cost: $" +:+ format_2f rt (cost_times cost_per_image (successful t));
      "Output directory: " +:+ out_dir].

(** The slots the [as_completed] loop has read, in order. *)
Definition collected_slots (tr : list event) : list Z :=
  omap (fun e => match e with EvCollect i => Some i | _ => None end) tr.

(** The events up to the replay. *)
Definition batch_prefix (p : provider) (a : arguments) (dir : string)
    (completion : list Z) : list event :=
  let slots := py_range 1 (variations a + 1) in
  let futures := results_of p a dir slots in
  [EvPrint ""] ++ ((fun i => EvSubmit i (slot_filename i)) <$> slots)
  ++ (EvCollect <$> collected futures completion)
  ++ (if short_circuited futures completion then [EvShutdown] else []).

(** [needle in hay] *)
Fixpoint contains (needle hay : string) : bool :=
  String.prefix needle hay
  || match hay with
     | EmptyString => false
     | String _ rest => contains needle rest
     end.

(** A line that names slot [i] of [n], by its tag or by its file. *)
Definition reports_slot (i n : Z) (line : string) : bool :=
  contains ("[" +:+ format_d i +:+ "/" +:+ format_d n +:+ "]") line
  || contains (slot_filename i) line.

(** A batch of four in which slot 1 completes first and slot 2, rate
    limited, second. *)
Definition rate_limited_run : res unit * world :=
  generate_from_prompt (sample_runtime rate_limited_on_2)
    (sample_arguments "out" 4) [1; 2; 3; 4] empty_world.

(** A batch of four in which slot 4 fails and each success reports a
    [cost_usd] of 0.2. *)
Definition three_of_four_run : res unit * world :=
  generate_from_prompt (sample_runtime fails_on_4)
    (sample_arguments "out" 4) [3; 1; 4; 2] empty_world.

(** The pricing lookup as the claim words it for an unknown provider
    name. *)
Definition unknown_provider_is_free (provider : string) : Prop :=
  provider <> "google" -> provider <> "openai" ->
  forall resolution quality,
    get_image_cost (Some provider) resolution quality = Ok 0%float.

(** [d.get(key)] finds nothing usable: the argument is missing, empty or
    not a key of the table. *)
Definition missing_or_unrecognized (table : list (string * float))
    (o : option string) : bool :=
  match o with
  | None => true
  | Some s => String.eqb s "" || negb (bool_decide (is_Some (dict_lookup s table)))
  end.

(** ** Further notions for the batch *)

(** The lines [print_configuration] shows. *)
Definition configuration_lines (rt : runtime) (p : provider) (a : arguments)
    (out_dir pname : string) (estimated_cost : float) : list string :=
  ["Generating " +:+ format_d (variations a) +:+ " image"
     +:+ (if 1 <? variations a then "s" else "") +:+ " with "
     +:+ str_title rt pname +:+ " (" +:+ get_generate_model p +:+ ")";
   ""; "Configuration:";
   "  Prompt: " +:+ dquote +:+ prompt a +:+ dquote]
  ++ (if str_truthy (quality a) then ["  Quality: " +:+ opt_str (quality a)] else [])
  ++ (if str_truthy (resolution a) then ["  Resolution: " +:+ opt_str (resolution a)] else [])
  ++ (if str_truthy (aspect_ratio a) then ["  Aspect ratio: " +:+ opt_str (aspect_ratio a)] else [])
  ++ (if str_truthy (input_fidelity a) then ["  Input fidelity: " +:+ opt_str (input_fidelity a)] else [])
  ++ (if bool_decide (reference_images a ≠ [])
      then ["  Reference images: " +:+ str_join ", " (reference_images a)] else [])
  ++ ["  Variations: " +:+ format_d (variations a);
      "  Output: " +:+ out_dir +:+ "/imggen_001.png ... " +:+ out_dir
        +:+ "/imggen_" +:+ format_03d (variations a) +:+ ".png";
      ""; "Estimated cost: $" +:+ format_2f rt estimated_cost].

(** Two argument records that differ at most in the provider name and
    the API key. *)
Definition same_but_provider (a1 a2 : arguments) : Prop :=
  prompt a1 = prompt a2
  /\ reference_images a1 = reference_images a2
  /\ output_dir a1 = output_dir a2
  /\ variations a1 = variations a2
  /\ aspect_ratio a1 = aspect_ratio a2
  /\ quality a1 = quality a2
  /\ resolution a1 = resolution a2
  /\ model a1 = model a2
  /\ input_fidelity a1 = input_fidelity a2
  /\ dry_run a1 = dry_run a2.

(** ** cli.py: the checks before the batch *)

Definition ASPECT_RATIO_WHITELIST : list string := ["1:1"; "16:9"; "9:16"; "4:3"; "3:4"].
Definition RESOLUTION_WHITELIST : list string := ["1K"; "2K"; "4K"].
Definition QUALITY_LEVELS : list string := ["low"; "medium"; "high"].
Definition INPUT_FIDELITY_LEVELS : list string := ["high"; "low"].

Definition newline : string := String (Ascii.ascii_of_nat 10) EmptyString.

(** The parsed command line.  [ns_input_fidelity] is [None] when the
    namespace has no such attribute ([hasattr] is false). *)
Record namespace := Namespace {
  ns_prompt : option string;
  ns_file : option string;
  ns_reference_images : list string;
  ns_references : option string;
  ns_output : string;
  ns_variations : Z;
  ns_model : option string;
  ns_quality : option string;
  ns_resolution : option string;
  ns_aspect_ratio : option string;
  ns_input_fidelity : option (option string);
  ns_dry_run : bool
}.

(** [x and x not in whitelist] for an optional string. *)
Definition given_but_not_in (o : option string) (whitelist : list string) : bool :=
  str_truthy o && negb (bool_decide (opt_str o ∈ whitelist)).

Definition value_error {A : Type} (message : string) : res A :=
  Raise (Exn "ValueError" message).

Definition validate_arguments (args : namespace) : res unit :=
  if given_but_not_in (ns_aspect_ratio args) ASPECT_RATIO_WHITELIST then
    value_error ("Invalid aspect ratio: " +:+ opt_str (ns_aspect_ratio args) +:+ newline
                   +:+ "Valid options: " +:+ str_join ", " ASPECT_RATIO_WHITELIST)
  else if given_but_not_in (ns_quality args) QUALITY_LEVELS then
    value_error ("Invalid quality level: " +:+ opt_str (ns_quality args) +:+ newline
                   +:+ "Valid options: " +:+ str_join ", " QUALITY_LEVELS)
  else if given_but_not_in (ns_resolution args) RESOLUTION_WHITELIST then
    value_error ("Invalid resolution: " +:+ opt_str (ns_resolution args) +:+ newline
                   +:+ "Valid options: " +:+ str_join ", " RESOLUTION_WHITELIST)
  else if (ns_variations args <? 1) || (4 <? ns_variations args) then
    value_error ("Variations must be between 1 and 4, got "
                   +:+ format_d (ns_variations args))
  else if negb (str_truthy (ns_prompt args)) && negb (str_truthy (ns_file args)) then
    value_error "Must provide either --prompt or --file"
  else if str_truthy (ns_prompt args) && str_truthy (ns_file args) then
    value_error "Cannot specify both --prompt and --file"
  else if bool_decide (ns_reference_images args ≠ [])
          && str_truthy (ns_references args) then
    value_error "Cannot specify both positional reference images and --references file"
  else if match ns_input_fidelity args with
          | Some fidelity => given_but_not_in fidelity INPUT_FIDELITY_LEVELS
          | None => false
          end then
    value_error ("Invalid input_fidelity: "
                   +:+ opt_str (default None (ns_input_fidelity args)) +:+ newline
                   +:+ "Valid options: " +:+ str_join ", " INPUT_FIDELITY_LEVELS)
  else Ok tt.

(** What a path of the text files read by the command line holds. *)
Inductive node :=
| TextFile (text : string)
| Directory.

(** [open(path).read()]: the directory case raises. *)
Definition read_text (files : gmap string node) (path : string) : res string :=
  match files !! path with
  | Some (TextFile text) => Ok text
  | Some Directory => Raise (Exn "IsADirectoryError" ("[Errno 21] Is a directory: '" +:+ path +:+ "'"))
  | None => Raise (Exn "FileNotFoundError" ("[Errno 2] No such file or directory: '" +:+ path +:+ "'"))
  end.

(** A [str.strip] for ASCII text, used in the sample runs. *)
Definition is_space (c : ascii) : bool :=
  let n := Ascii.nat_of_ascii c in
  Nat.eqb n 32 || (Nat.leb 9 n && Nat.leb n 13) || (Nat.leb 28 n && Nat.leb n 31).

Fixpoint lstrip_ascii (s : string) : string :=
  match s with
  | EmptyString => EmptyString
  | String c r => if is_space c then lstrip_ascii r else s
  end.

Fixpoint rstrip_ascii (s : string) : string :=
  match s with
  | EmptyString => EmptyString
  | String c r =>
      match rstrip_ascii r with
      | EmptyString => if is_space c then EmptyString else String c EmptyString
      | r' => String c r'
      end
  end.

Definition strip_ascii (s : string) : string := rstrip_ascii (lstrip_ascii s).

(** [load_prompt]; [strip] is [str.strip]. *)
Definition load_prompt (strip : string -> string) (files : gmap string node)
    (prompt_text prompt_file : option string) : res string :=
  if str_truthy prompt_text then Ok (opt_str prompt_text)
  else if str_truthy prompt_file then
    let path := opt_str prompt_file in
    if negb (bool_decide (is_Some (files !! path))) then
      value_error ("Prompt file not found: " +:+ path)
    else
      match read_text files path with
      | Raise e => Raise e
      | Ok text =>
          let content := strip text in
          if String.eqb content "" then value_error ("Prompt file is empty: " +:+ path)
          else Ok content
      end
  else value_error "Must provide either --prompt or --file".

(** The lines a text file yields when iterated: each ends with its line
    feed, but for a last line without one. *)
Fixpoint file_lines_from (text current : string) : list string :=
  match text with
  | EmptyString => if String.eqb current "" then [] else [current]
  | String c rest =>
      if Ascii.eqb c (Ascii.ascii_of_nat 10)
      then (current +:+ newline) :: file_lines_from rest ""
      else file_lines_from rest (current +:+ String c EmptyString)
  end.

Definition file_lines (text : string) : list string := file_lines_from text "".

(** [load_references]; [reference_paths] is [None] when not given. *)
Definition load_references (strip : string -> string) (files : gmap string node)
    (reference_paths : option (list string)) (reference_file : option string)
    : res (list string) :=
  if bool_decide (default [] reference_paths ≠ []) && str_truthy reference_file then
    value_error "Cannot specify both positional reference images and --references file"
  else if str_truthy reference_file then
    let path := opt_str reference_file in
    if negb (bool_decide (is_Some (files !! path))) then
      value_error ("References file not found: " +:+ path)
    else
      match read_text files path with
      | Raise e => Raise e
      | Ok text =>
          let paths :=
            strip <$> filter (fun line => strip line ≠ "") (file_lines text) in
          if bool_decide (paths = []) then
            value_error ("References file is empty: " +:+ path)
          else Ok paths
      end
  else Ok (default [] reference_paths).

(** ** pricing.py: the total over several image configurations *)

(** One image configuration: a field is [None] when the key is absent. *)
Record image_config := ImageConfig {
  img_model : option string;
  img_resolution : option string;
  img_quality : option string;
  img_variations : option Z
}.

Fixpoint total_cost_loop (infer : string -> res string) (default_provider : string)
    (images : list image_config) (total_cost : float) : res float :=
  match images with
  | [] => Ok total_cost
  | img :: rest =>
      match (match img_model img with
             | Some m => infer m
             | None => Ok default_provider
             end) with
      | Raise e => Raise e
      | Ok provider =>
          let resolution := img_resolution img in
          let quality := img_quality img in
          let variations := default 4 (img_variations img) in
          match get_image_cost (Some provider) resolution quality with
          | Raise e => Raise e
          | Ok cost_per_image =>
              total_cost_loop infer default_provider rest
                (PrimFloat.add total_cost (cost_times cost_per_image variations))
          end
      end
  end.

Definition calculate_total_cost (infer : string -> res string)
    (images : list image_config) (default_provider : option string) : res float :=
  let default_provider := str_or default_provider DEFAULT_PROVIDER in
  total_cost_loop infer default_provider images 0%float.

(** The arguments [main] hands to [generate_from_prompt] (cli.py, lines
    308-321). *)
Definition batch_arguments (args : namespace) (prompt_text : string)
    (references : list string) (provider api_key_value : string) : arguments :=
  Args prompt_text references (ns_output args) (ns_variations args)
    provider api_key_value (ns_aspect_ratio args) (ns_quality args)
    (ns_resolution args) (ns_model args)
    (default None (ns_input_fidelity args)) (ns_dry_run args).

(** ** providers/openai_provider.py *)

Definition OPENAI_GENERATE_MODEL : string := "gpt-image-1.5".

Definition OPENAI_IMAGE_PRICING : list (string * string * float) :=
  [("low", "1024x1024", 0.009%float);
   ("medium", "1024x1024", 0.034%float);
   ("high", "1024x1024", 0.133%float);
   ("low", "1024x1536", 0.013%float);
   ("low", "1536x1024", 0.013%float);
   ("medium", "1024x1536", 0.050%float);
   ("medium", "1536x1024", 0.050%float);
   ("high", "1024x1536", 0.200%float);
   ("high", "1536x1024", 0.200%float)].

(** [pricing.get((quality, size), 0.0)] *)
Fixpoint pair_lookup (quality size : string) (table : list (string * string * float))
    : option float :=
  match table with
  | [] => None
  | (q, s, price) :: rest =>
      if String.eqb q quality && String.eqb s size then Some price
      else pair_lookup quality size rest
  end.

Definition calculate_openai_image_cost (quality size : string) : float :=
  default 0%float (pair_lookup quality size OPENAI_IMAGE_PRICING).

(** The two local tables of [generate_image]. *)
Definition OPENAI_QUALITY_MAP : list (string * string) :=
  [("low", "low"); ("medium", "medium"); ("high", "high")].

Definition OPENAI_SIZE_MAP : list (string * string) :=
  [("1:1", "1024x1024"); ("16:9", "1792x1024"); ("9:16", "1024x1792");
   ("4:3", "1360x1024"); ("3:4", "1024x1360")].

(** [size_map.get(aspect_ratio, "1024x1024")], the key possibly [None]. *)
Definition openai_image_size (aspect_ratio : option string) : string :=
  match aspect_ratio with
  | Some ratio => dict_get_default OPENAI_SIZE_MAP ratio "1024x1024"
  | None => "1024x1024"
  end.

Record openai_image := OpenAIImage {
  b64_json : string;
  image_revised_prompt : option string;
  image_quality : option string;
  image_size : option string
}.

Record openai_response := OpenAIResponse {
  response_data : list openai_image;
  response_created : Z
}.

(** The keyword arguments of [images.generate] and [images.edit]. *)
Record openai_params := OpenAIParams {
  param_model : string;
  param_prompt : string;
  param_size : string;
  param_quality : string;
  param_n : Z;
  param_image : option (list string);
  param_input_fidelity : option string
}.

(** How a call of the client ends: a response, a [RateLimitError],
    another [APIError], a [FileNotFoundError] or any other [Exception];
    the exceptions carry their [str]. *)
Inductive api_outcome :=
| ApiResponse (r : openai_response)
| ApiRateLimitError
| ApiError (text : string)
| ApiFileNotFoundError (filename text : string)
| ApiException (text : string).

(** How an [open] that fails ends: with a [FileNotFoundError] or with
    another [Exception]. *)
Inductive open_failure :=
| OpenFileNotFoundError
| OpenException (text : string).

(** How [open(path, "rb")] ends. *)
Inductive open_outcome :=
| OpenOk
| OpenFailed (failure : open_failure).

(** What is outside the adapter: the reference files and the remote
    service as they answer at each attempt, the decoding and writing of
    the image ([None] when it succeeds, the text of the exception
    otherwise) and the conversion of the timestamp. *)
Record openai_world := OpenAIWorld {
  open_reference : Z -> string -> open_outcome;
  images_edit : Z -> openai_params -> api_outcome;
  images_generate : Z -> openai_params -> api_outcome;
  save_image : string -> string -> option string;
  created_isoformat : Z -> res string
}.

Inductive openai_event :=
| OaOpen (path : string)
| OaClose (path : string)
| OaEdit (attempt : Z) (params : openai_params)
| OaGenerate (attempt : Z) (params : openai_params)
| OaSave (path : string)
| OaNotice (text : string)
| OaSleep (seconds : Z).

(** What leaves the [try] block of an attempt. *)
Inductive try_outcome :=
| TryReturn (result : gmap string pyval)
| TryRateLimitError
| TryApiError (text : string)
| TryException (text : string).

Definition failed_with (message : string) : gmap string pyval :=
  <["error" := VStr message]> (<["status" := VStr "failed"]> ∅).

(** The loop over [reference_images] that opens the files: the files
    opened so far, and how the first failing [open] ended. *)
Fixpoint open_references (world : openai_world) (attempt : Z)
    (paths : list string) (image_files : list string)
    : list string * option (string * open_failure) :=
  match paths with
  | [] => (image_files, None)
  | ref_path :: rest =>
      match open_reference world attempt ref_path with
      | OpenOk => open_references world attempt rest (image_files ++ [ref_path])
      | OpenFailed failure => (image_files, Some (ref_path, failure))
      end
  end.

(** Lines 153-179: what follows a response. *)
Definition openai_handle_response (world : openai_world) (req : request)
    (full_prompt openai_quality size : string) (response : openai_response)
    : try_outcome * list openai_event :=
  match response_data response with
  | [] => (TryReturn (failed_with "No image data in response"), [])
  | first :: _ =>
      let image_path := os_path_join (req_output_dir req) (req_filename req) in
      match save_image world image_path (b64_json first) with
      | Some text => (TryException text, [])
      | None =>
          let revised_prompt := str_or (image_revised_prompt first) full_prompt in
          let quality_value := str_or (image_quality first) openai_quality in
          let size_value := str_or (image_size first) size in
          match created_isoformat world (response_created response) with
          | Raise e => (TryException (exn_str e), [OaSave image_path])
          | Ok created_iso =>
              let cost := calculate_openai_image_cost quality_value size_value in
              (TryReturn
                 (<["cost_usd" := VFloat cost]>
                    (<["size" := VStr size_value]>
                       (<["quality" := VStr quality_value]>
                          (<["created" := VStr created_iso]>
                             (<["revised_prompt" := VStr revised_prompt]>
                                (<["filename" := VStr (req_filename req)]>
                                   (<["status" := VStr "success"]> ∅))))))),
               [OaSave image_path])
          end
      end
  end.

(** Lines 111-179: the [try] block of one attempt. *)
Definition openai_try (world : openai_world) (req : request)
    (full_prompt openai_quality size : string) (attempt : Z)
    : try_outcome * list openai_event :=
  let base_params :=
    OpenAIParams (str_or (req_model req) OPENAI_GENERATE_MODEL) full_prompt
      size openai_quality 1 None None in
  match req_reference_images req with
  | _ :: _ =>
      let '(image_files, failure) :=
        open_references world attempt (req_reference_images req) [] in
      let opened := OaOpen <$> image_files in
      let closed := OaClose <$> image_files in
      match failure with
      | Some (ref_path, OpenFileNotFoundError) =>
          (TryReturn (failed_with ("Reference image not found: " +:+ ref_path)),
           opened ++ closed)
      | Some (_, OpenException text) => (TryException text, opened ++ closed)
      | None =>
          let edit_params :=
            OpenAIParams (param_model base_params) (param_prompt base_params)
              (param_size base_params) (param_quality base_params)
              (param_n base_params) (Some image_files) (req_input_fidelity req) in
          let called := opened ++ [OaEdit attempt edit_params] ++ closed in
          match images_edit world attempt edit_params with
          | ApiResponse response =>
              let '(outcome, events) :=
                openai_handle_response world req full_prompt openai_quality size
                  response in
              (outcome, called ++ events)
          | ApiRateLimitError => (TryRateLimitError, called)
          | ApiError text => (TryApiError text, called)
          | ApiFileNotFoundError filename _ =>
              (TryReturn (failed_with ("Reference image not found: " +:+ filename)),
               called)
          | ApiException text => (TryException text, called)
          end
      end
  | [] =>
      let called := [OaGenerate attempt base_params] in
      match images_generate world attempt base_params with
      | ApiResponse response =>
          let '(outcome, events) :=
            openai_handle_response world req full_prompt openai_quality size
              response in
          (outcome, called ++ events)
      | ApiRateLimitError => (TryRateLimitError, called)
      | ApiError text => (TryApiError text, called)
      | ApiFileNotFoundError _ text => (TryException text, called)
      | ApiException text => (TryException text, called)
      end
  end.

Definition OPENAI_MAX_RETRIES : Z := 3.
Definition OPENAI_RETRY_DELAY : Z := 5.

(** One turn of the retry loop: [Some result] when the turn returns,
    [None] when it goes on to the next attempt. *)
Definition openai_attempt (world : openai_world) (req : request)
    (full_prompt openai_quality size : string) (attempt : Z)
    : option (gmap string pyval) * list openai_event :=
  match openai_try world req full_prompt openai_quality size attempt with
  | (TryReturn result, events) => (Some result, events)
  | (TryRateLimitError, events) =>
      (Some (<["rate_limited" := VBool true]> (failed_with "Rate limit exceeded")),
       events)
  | (TryApiError error_str, events) =>
      if contains "Error code: 403" error_str || contains "status_code=403" error_str
      then
        if attempt <? OPENAI_MAX_RETRIES then
          (None,
           events ++
           [OaNotice ("    (retry " +:+ format_d attempt +:+ "/"
                        +:+ format_d (OPENAI_MAX_RETRIES - 1) +:+ ", waiting "
                        +:+ format_d OPENAI_RETRY_DELAY +:+ "s...)");
            OaSleep OPENAI_RETRY_DELAY])
        else (Some (failed_with error_str), events)
      else (Some (failed_with error_str), events)
  | (TryException error_str, events) => (Some (failed_with error_str), events)
  end.

Fixpoint openai_attempts (world : openai_world) (req : request)
    (full_prompt openai_quality size : string) (attempts : list Z)
    : option (gmap string pyval) * list openai_event :=
  match attempts with
  | [] => (None, [])
  | attempt :: rest =>
      match openai_attempt world req full_prompt openai_quality size attempt with
      | (Some result, events) => (Some result, events)
      | (None, events) =>
          let '(result, later) :=
            openai_attempts world req full_prompt openai_quality size rest in
          (result, events ++ later)
      end
  end.

(** [OpenAIProvider.generate_image]: the result and what the call did. *)
Definition openai_generate_image (world : openai_world) (req : request)
    : gmap string pyval * list openai_event :=
  let quality := str_or (req_quality req) "low" in
  if match req_input_fidelity req with
     | Some fidelity => negb (bool_decide (fidelity ∈ ["high"; "low"]))
     | None => false
     end
  then
    (failed_with ("Invalid input_fidelity: " +:+ opt_str (req_input_fidelity req)
                    +:+ ". Valid values: high, low"), [])
  else
    let full_prompt :=
      if str_truthy (req_aspect_ratio req)
      then req_prompt req +:+ newline +:+ newline +:+ "[aspect_ratio: "
             +:+ opt_str (req_aspect_ratio req) +:+ "]"
      else req_prompt req in
    let openai_quality := dict_get_default OPENAI_QUALITY_MAP quality "low" in
    let size := openai_image_size (req_aspect_ratio req) in
    let '(result, events) :=
      openai_attempts world req full_prompt openai_quality size
        (py_range 1 (OPENAI_MAX_RETRIES + 1)) in
    (default (failed_with "Max retries exceeded") result, events).

(** The adapter as a provider of the batch; [worlds] gives the outside
    of the call made for each request. *)
Definition openai_provider (worlds : request -> openai_world) : provider :=
  Provider "openai" OPENAI_GENERATE_MODEL
    (fun req => Returned (openai_generate_image (worlds req) req).1).

Definition openai_calls (events : list openai_event) : list Z :=
  omap (fun e => match e with
                 | OaEdit attempt _ | OaGenerate attempt _ => Some attempt
                 | _ => None
                 end) events.

Definition openai_opened (events : list openai_event) : list string :=
  omap (fun e => match e with OaOpen path => Some path | _ => None end) events.

Definition openai_closed (events : list openai_event) : list string :=
  omap (fun e => match e with OaClose path => Some path | _ => None end) events.

Definition openai_slept (events : list openai_event) : Z :=
  foldr Z.add 0
    (omap (fun e => match e with OaSleep seconds => Some seconds | _ => None end) events).

(** A service that answers as [edit] and [generate] say at each attempt;
    every file opens, every image is saved. *)
Definition sample_openai_world (edit generate : Z -> api_outcome) : openai_world :=
  OpenAIWorld (fun _ _ => OpenOk) (fun attempt _ => edit attempt)
    (fun attempt _ => generate attempt) (fun _ _ => None)
    (fun _ => Ok "2025-01-14T10:00:00+00:00").

Definition sample_request (refs : list string) (aspect fidelity : option string)
    : request :=
  Request "a cat" "out" "imggen_001.png" aspect None None refs None fidelity.

(** The prompt the adapter sends: the aspect ratio is appended to it. *)
Definition openai_full_prompt (req : request) : string :=
  if str_truthy (req_aspect_ratio req)
  then req_prompt req +:+ newline +:+ newline +:+ "[aspect_ratio: "
         +:+ opt_str (req_aspect_ratio req) +:+ "]"
  else req_prompt req.

(** A service that is rate limited, over a directory in which every
    reference file opens but [missing]. *)
Definition missing_reference_world (missing : string) : openai_world :=
  OpenAIWorld
    (fun _ path =>
       if String.eqb path missing then OpenFailed OpenFileNotFoundError else OpenOk)
    (fun _ _ => ApiRateLimitError) (fun _ _ => ApiRateLimitError)
    (fun _ _ => None) (fun _ => Ok "2025-01-14T10:00:00+00:00").

(** What [generate_image] returns for the image [first] of a response:
    lines 171-179. *)
Definition openai_success (req : request) (first : openai_image)
    (created_iso : string) : gmap string pyval :=
  let revised_prompt := str_or (image_revised_prompt first) (openai_full_prompt req) in
  let quality_value :=
    str_or (image_quality first)
      (dict_get_default OPENAI_QUALITY_MAP (str_or (req_quality req) "low") "low") in
  let size_value :=
    str_or (image_size first) (openai_image_size (req_aspect_ratio req)) in
  <["cost_usd" := VFloat (calculate_openai_image_cost quality_value size_value)]>
    (<["size" := VStr size_value]>
       (<["quality" := VStr quality_value]>
          (<["created" := VStr created_iso]>
             (<["revised_prompt" := VStr revised_prompt]>
                (<["filename" := VStr (req_filename req)]>
                   (<["status" := VStr "success"]> ∅)))))).

(** A service that answers the first call with one image, which it
    describes as [described]. *)
Definition answering_world (described : openai_image) : openai_world :=
  OpenAIWorld (fun _ _ => OpenOk)
    (fun _ _ => ApiResponse (OpenAIResponse [described] 1736848800))
    (fun _ _ => ApiResponse (OpenAIResponse [described] 1736848800))
    (fun _ _ => None) (fun _ => Ok "2025-01-14T10:00:00+00:00").

(** * Properties *)

(** ** The collision check *)

Lemma collisions_loop_filter fs dir slots acc :
  collisions_loop fs dir slots acc =
  acc ++ (slot_filename <$>
            filter (fun i => os_path_exists fs (os_path_join dir (slot_filename i)) = true) slots).
Proof.
  revert acc. induction slots as [|i rest IH]; intros acc; simpl.
  - by rewrite app_nil_r.
  - rewrite filter_cons.
    destruct (os_path_exists fs (os_path_join dir (slot_filename i))) eqn:E.
    + rewrite IH. rewrite decide_True by done.
      by rewrite fmap_cons, <- app_assoc.
    + rewrite IH. by rewrite decide_False by done.
Qed.

Lemma py_range_sorted lo hi : StronglySorted Z.lt (py_range lo hi).
Proof.
  unfold py_range. generalize (hi - lo). intros len.
  unfold seqZ. generalize (Z.to_nat len). intros n.
  assert (forall k, StronglySorted Z.lt ((fun i : nat => Z.of_nat i + lo) <$> seq k n)) as H.
  { induction n as [|n IH]; intros k; simpl; constructor.
    - apply IH.
    - apply Forall_forall. intros x Hx.
      apply list_elem_of_fmap in Hx as [j [-> Hj]].
      apply list_elem_of_In, in_seq in Hj. lia. }
  apply H.
Qed.

Lemma filter_sorted (P : Z -> Prop) `{forall x, Decision (P x)} (l : list Z) :
  StronglySorted Z.lt l -> StronglySorted Z.lt (filter P l).
Proof.
  induction 1 as [|x l Hs IH Hall]; [constructor|].
  rewrite filter_cons. destruct (decide (P x)); [|done].
  constructor; [done|].
  apply Forall_forall. intros y Hy. apply list_elem_of_filter in Hy as [_ Hy].
  rewrite Forall_forall in Hall. by apply Hall.
Qed.

Lemma elem_of_py_range i lo hi : i ∈ py_range lo hi <-> lo <= i < hi.
Proof. unfold py_range. rewrite elem_of_seqZ. lia. Qed.

(** Over every directory state and every count, with the targets
    [imggen_{i:03d}.png] for [i] in [1..variations], the two-argument
    check answers [true] exactly when one of the targets exists, the list
    it returns is exactly the targets that exist, in ascending slot
    order, and over a directory holding none of them it returns
    [(false, [])]. *)
Theorem check_file_collisions_default_naming fs dir variations :
  let exists_in i := os_path_exists fs (os_path_join dir (slot_filename i)) = true in
  let hits := filter exists_in (py_range 1 (variations + 1)) in
  (check_file_collisions fs dir variations).2 = slot_filename <$> hits
  /\ StronglySorted Z.lt hits
  /\ (forall i, i ∈ hits <-> 1 <= i <= variations /\ exists_in i)
  /\ ((check_file_collisions fs dir variations).1 = true <->
      exists f, f ∈ target_filenames variations
                /\ os_path_exists fs (os_path_join dir f) = true)
  /\ ((forall f, f ∈ target_filenames variations ->
                 os_path_exists fs (os_path_join dir f) = false) ->
      check_file_collisions fs dir variations = (false, []))
  /\ (check_file_collisions fs dir variations).2 =
     filter (fun f => os_path_exists fs (os_path_join dir f) = true)
       (target_filenames variations).
Proof.
  intros exists_in hits.
  assert (Hsnd : (check_file_collisions fs dir variations).2 = slot_filename <$> hits).
  { unfold check_file_collisions. simpl. by rewrite collisions_loop_filter. }
  assert (Hmem : forall i, i ∈ hits <-> 1 <= i <= variations /\ exists_in i).
  { intros i. unfold hits. rewrite list_elem_of_filter, elem_of_py_range. intuition lia. }
  assert (Hfst : (check_file_collisions fs dir variations).1 = bool_decide (hits ≠ [])).
  { unfold check_file_collisions. simpl. rewrite collisions_loop_filter. simpl.
    fold exists_in. fold hits. destruct hits; [done|].
    rewrite fmap_cons. simpl length.
    rewrite (bool_decide_true (0 < S _)%nat) by lia.
    by rewrite bool_decide_true. }
  assert (Hsorted : StronglySorted Z.lt hits) by apply filter_sorted, py_range_sorted.
  assert (Hlast : slot_filename <$> hits =
     filter (fun f => os_path_exists fs (os_path_join dir f) = true)
       (target_filenames variations)).
  { unfold hits, target_filenames, exists_in.
    generalize (py_range 1 (variations + 1)). intros l.
    induction l as [|i l IH]; [done|].
    rewrite fmap_cons, !filter_cons.
    destruct (decide (os_path_exists fs (os_path_join dir (slot_filename i)) = true)).
    + by rewrite fmap_cons, IH.
    + done. }
  assert (Hex : hits ≠ [] <-> exists f, f ∈ target_filenames variations
                /\ os_path_exists fs (os_path_join dir f) = true).
  { clearbody hits. split.
    - intros Hne. destruct hits as [|i r]; [done|].
      destruct (Hmem i) as [Hi _]. destruct Hi as [Hr He]; [left|].
      exists (slot_filename i). split; [|done].
      unfold target_filenames. apply list_elem_of_fmap. exists i.
      split; [done|]. apply elem_of_py_range. lia.
    - intros [f [Hf He]] Hnil.
      unfold target_filenames in Hf. apply list_elem_of_fmap in Hf as [i [-> Hi]].
      apply elem_of_py_range in Hi.
      assert (Hin : i ∈ hits) by (apply Hmem; split; [lia|done]).
      rewrite Hnil in Hin. by apply elem_of_nil in Hin. }
  clearbody hits.
  split; [done|]. split; [done|]. split; [done|]. split; [|split].
  - rewrite Hfst, bool_decide_eq_true. apply Hex.
  - intros Hnone.
    assert (hits = []) as Hnil.
    { destruct (decide (hits = [])) as [|Hne]; [done|].
      apply Hex in Hne as [f [Hf He]]. rewrite Hnone in He; done. }
    destruct (check_file_collisions fs dir variations) as [b l] eqn:E.
    simpl in *. rewrite Hfst, Hsnd, Hnil. by rewrite bool_decide_false by auto.
  - by rewrite Hsnd.
Qed.

(** The list returned is the filter of the target names. *)
Lemma check_file_collisions_default_filter fs dir variations :
  (check_file_collisions fs dir variations).2 =
  filter (fun f => os_path_exists fs (os_path_join dir f) = true)
    (target_filenames variations).
Proof.
  unfold check_file_collisions, target_filenames. simpl.
  rewrite collisions_loop_filter. simpl.
  generalize (py_range 1 (variations + 1)). intros l.
  induction l as [|i l IH]; [done|].
  rewrite fmap_cons, !filter_cons.
  destruct (decide (os_path_exists fs (os_path_join dir (slot_filename i)) = true)).
  - by rewrite fmap_cons, IH.
  - done.
Qed.

(** ** File names *)

Lemma submit_loop_trace p a dir slots futures w :
  trace (submit_loop p a dir slots futures w).2 =
  trace w ++ ((fun i => EvSubmit i (slot_filename i)) <$> slots).
Proof.
  revert futures w. induction slots as [|i rest IH]; intros futures w; simpl.
  - by rewrite app_nil_r.
  - rewrite IH. simpl. by rewrite <- app_assoc.
Qed.

Lemma submit_loop_fs p a dir slots futures w :
  fs (submit_loop p a dir slots futures w).2 = fs w.
Proof.
  revert futures w. induction slots as [|i rest IH]; intros futures w; simpl; [done|].
  by rewrite IH.
Qed.

Lemma submitted_filenames_app t1 t2 :
  submitted_filenames (t1 ++ t2) = submitted_filenames t1 ++ submitted_filenames t2.
Proof. unfold submitted_filenames. apply omap_app. Qed.

Lemma submitted_filenames_submits slots :
  submitted_filenames ((fun i => EvSubmit i (slot_filename i)) <$> slots)
  = slot_filename <$> slots.
Proof.
  induction slots as [|i r IH]; [done|].
  rewrite !fmap_cons. unfold submitted_filenames in *.
  cbn -[slot_filename]. f_equal. exact IH.
Qed.

(** C5.  The batch has no basename: whatever the output path, slot [i] is
    named [imggen_{i:03d}.png].  For [--output sunset.png] and one image
    the naming rule asks for [sunset.png]; the batch looks for and writes
    [imggen_001.png] inside a directory [sunset.png], and a file
    [sunset.png] already there goes unnoticed. *)
Theorem custom_basename_ignored :
  generate_filename (Some "sunset") 1 1 = "sunset.png"
  /\ target_filenames 1 = ["imggen_001.png"]
  /\ check_file_collisions {["./sunset.png" := Blob]} "." 1 = (false, [])
  /\ check_file_collisions {["sunset.png" := Blob]} (rstrip_sep "sunset.png") 1 = (false, [])
  /\ submitted_filenames
       (trace (generate_from_prompt (sample_runtime always_succeeds)
                 (sample_arguments "sunset.png" 1) [1] empty_world).2)
     = ["imggen_001.png"]
  /\ written_sidecars
       (trace (generate_from_prompt (sample_runtime always_succeeds)
                 (sample_arguments "sunset.png" 1) [1] empty_world).2)
     = [(1, "sunset.png/imggen_001.json")].
Proof. vm_compute. repeat split. Qed.

(** ** The collision precondition *)

Lemma written_sidecars_app t1 t2 :
  written_sidecars (t1 ++ t2) = written_sidecars t1 ++ written_sidecars t2.
Proof. unfold written_sidecars. apply omap_app. Qed.

Lemma stdout_app t1 t2 : stdout (t1 ++ t2) = stdout t1 ++ stdout t2.
Proof. unfold stdout. apply omap_app. Qed.

(** C1.  Whenever the collision check reports a collision,
    [generate_from_prompt] raises [ValueError] before anything else
    happens: no task is handed to the executor (so no adapter is called
    and no image is written), no sidecar is written, the file system is
    unchanged, the only output is the error message and [main] exits
    with status 1. *)
Theorem collision_aborts_before_any_call rt a completion w :
  (check_file_collisions (fs w) (rstrip_sep (output_dir a)) (variations a)).1 = true ->
  let out_dir := rstrip_sep (output_dir a) in
  let collisions := (check_file_collisions (fs w) out_dir (variations a)).2 in
  let message := format_collision_error collisions out_dir in
  generate_from_prompt rt a completion w = (Raise (Exn "ValueError" message), w)
  /\ main_generate rt a completion w = (1, print ("Error: " +:+ message) w)
  /\ (main_generate rt a completion w).1 <> 0
  /\ fs (main_generate rt a completion w).2 = fs w
  /\ submitted_filenames (trace (main_generate rt a completion w).2)
      = submitted_filenames (trace w)
  /\ written_sidecars (trace (main_generate rt a completion w).2)
      = written_sidecars (trace w)
  /\ trace (main_generate rt a completion w).2
      = trace w ++ [EvPrint ("Error: " +:+ message)].
Proof.
  intros Hcol out_dir collisions message.
  assert (Hg : generate_from_prompt rt a completion w
               = (Raise (Exn "ValueError" message), w)).
  { unfold generate_from_prompt, message, collisions, out_dir.
    destruct (check_file_collisions (fs w) (rstrip_sep (output_dir a)) (variations a))
      as [b l]. simpl in Hcol. subst b. reflexivity. }
  assert (Hm : main_generate rt a completion w = (1, print ("Error: " +:+ message) w)).
  { unfold main_generate. by rewrite Hg. }
  rewrite Hm. simpl.
  rewrite submitted_filenames_app, written_sidecars_app. simpl.
  rewrite !app_nil_r. repeat split; done.
Qed.

Lemma collision_aborts_before_any_call_witness :
  (main_generate (sample_runtime always_succeeds) (sample_arguments "out/" 2)
     [1; 2] (world_with "out/imggen_001.png")).1 = 1
  /\ submitted_filenames
       (trace (main_generate (sample_runtime always_succeeds)
                 (sample_arguments "out/" 2) [1; 2]
                 (world_with "out/imggen_001.png")).2) = [].
Proof.
  destruct (collision_aborts_before_any_call (sample_runtime always_succeeds)
              (sample_arguments "out/" 2) [1; 2] (world_with "out/imggen_001.png"))
    as (_ & Hm & _ & _ & Hs & _); [vm_compute; reflexivity|].
  split; [by rewrite Hm | exact Hs].
Defined.

(** ** The metadata writer *)

Lemma dict_set_fresh k v d :
  k ∉ d.*1 -> dict_set k v d = d ++ [(k, v)].
Proof.
  induction d as [|[k' v'] d IH]; intros Hk; [done|].
  simpl in *. apply not_elem_of_cons in Hk as [Hne Hk].
  destruct (String.eqb k' k) eqn:E.
  - apply String.eqb_eq in E. congruence.
  - by rewrite IH.
Qed.

Lemma add_extra_fields_fresh kwargs metadata :
  NoDup kwargs.*1 ->
  (forall k, k ∈ kwargs.*1 -> k ∉ metadata.*1) ->
  add_extra_fields kwargs metadata =
  metadata ++ filter (fun kv => is_not_None kv.2 = true) kwargs.
Proof.
  revert metadata. induction kwargs as [|[k v] rest IH]; intros metadata Hnd Hfresh.
  - by rewrite app_nil_r.
  - simpl in Hnd. apply NoDup_cons in Hnd as [Hk Hnd].
    simpl. rewrite filter_cons. simpl.
    destruct (is_not_None v) eqn:Ev.
    + rewrite decide_True by done.
      rewrite dict_set_fresh by (apply Hfresh; left).
      rewrite IH; [by rewrite <- app_assoc | done |].
      intros k' Hk'. rewrite fmap_app. simpl.
      rewrite elem_of_app, list_elem_of_singleton. intros [Hin| ->].
      * revert Hin. apply Hfresh. by right.
      * done.
    + rewrite decide_False by (by intros ?).
      apply IH; [done|]. intros k' Hk'. apply Hfresh. by right.
Qed.

Lemma dict_lookup_app {V} k (d1 d2 : list (string * V)) :
  dict_lookup k (d1 ++ d2) =
  match dict_lookup k d1 with Some v => Some v | None => dict_lookup k d2 end.
Proof.
  induction d1 as [|[k' v'] d1 IH]; [done|].
  simpl. destruct (String.eqb k' k); [done | apply IH].
Qed.

Lemma dict_lookup_notin {V} k (d : list (string * V)) :
  k ∉ d.*1 -> dict_lookup k d = None.
Proof.
  induction d as [|[k' v'] d IH]; [done|].
  simpl. intros Hk. apply not_elem_of_cons in Hk as [Hne Hk].
  destruct (String.eqb k' k) eqn:E; [|by apply IH].
  apply String.eqb_eq in E. congruence.
Qed.

Lemma dict_lookup_in {V} k (v : V) (d : list (string * V)) :
  NoDup d.*1 -> (k, v) ∈ d -> dict_lookup k d = Some v.
Proof.
  induction d as [|[k' v'] d IH]; intros Hnd Hin.
  - by apply elem_of_nil in Hin.
  - simpl in Hnd. apply NoDup_cons in Hnd as [Hk Hnd].
    apply elem_of_cons in Hin as [Heq|Hin].
    + inversion Heq; subst. simpl. by rewrite String.eqb_refl.
    + simpl. destruct (String.eqb k' k) eqn:E; [|by apply IH].
      apply String.eqb_eq in E. subst k'. exfalso. apply Hk.
      apply list_elem_of_fmap. by exists (k, v).
Qed.

Lemma filter_keys_subset (kwargs : list (string * pyval)) k :
  k ∈ (filter (fun kv => is_not_None kv.2 = true) kwargs).*1 -> k ∈ kwargs.*1.
Proof.
  intros H. apply list_elem_of_fmap in H as [[k' v] [-> H]].
  apply list_elem_of_filter in H as [_ H].
  apply list_elem_of_fmap. by exists (k', v).
Qed.

Lemma filter_keys_NoDup (kwargs : list (string * pyval)) :
  NoDup kwargs.*1 -> NoDup (filter (fun kv => is_not_None kv.2 = true) kwargs).*1.
Proof.
  induction kwargs as [|[k v] rest IH]; [done|].
  simpl. intros Hnd. apply NoDup_cons in Hnd as [Hk Hnd].
  rewrite filter_cons. destruct (decide _); [|by apply IH].
  simpl. apply NoDup_cons. split; [|by apply IH].
  intros Hin. apply Hk. by apply filter_keys_subset.
Qed.

(** Case analysis on which optional fields are present. *)
Ltac case_optional_fields :=
  repeat match goal with
    | |- context [if ?c then _ else _] =>
        lazymatch c with
        | andb (is_not_None _) (ne_str _ _) => destruct c
        | is_not_None _ => destruct c
        end
    end.

(** The record before the provider-specific fields are added. *)
Lemma build_metadata_no_extras original_prompt provider model
    revised_prompt created quality size cost_usd :
  build_metadata original_prompt provider model
    revised_prompt created quality size cost_usd [] =
  [("original_prompt", VStr original_prompt);
   ("provider", VStr provider);
   ("model", VStr model)]
  ++ (if is_not_None revised_prompt && ne_str revised_prompt original_prompt
      then [("revised_prompt", revised_prompt)] else [])
  ++ field_if_present "created" created
  ++ field_if_present "quality" quality
  ++ field_if_present "size" size
  ++ field_if_present "cost_usd" cost_usd.
Proof.
  unfold build_metadata, field_if_present.
  cbn [add_extra_fields]. case_optional_fields; reflexivity.
Qed.

Lemma build_metadata_split original_prompt provider model
    revised_prompt created quality size cost_usd kwargs :
  build_metadata original_prompt provider model
    revised_prompt created quality size cost_usd kwargs =
  add_extra_fields kwargs
    (build_metadata original_prompt provider model
       revised_prompt created quality size cost_usd []).
Proof. reflexivity. Qed.

Lemma no_extras_keys_named original_prompt provider model
    revised_prompt created quality size cost_usd k :
  k ∈ (build_metadata original_prompt provider model
         revised_prompt created quality size cost_usd []).*1 ->
  k ∈ named_parameters.
Proof.
  rewrite build_metadata_no_extras. unfold field_if_present, named_parameters.
  case_optional_fields; simpl;
    rewrite ?elem_of_cons, ?elem_of_nil; intuition (subst; auto).
Qed.

(** C8.  For every input of the metadata writer the record persisted at
    the sidecar path is exactly: the three required fields; then
    [revised_prompt] when it is not [None] and differs from the original
    prompt; then each of [created], [quality], [size], [cost_usd] whose
    value is not [None]; then each provider-specific field whose value
    is not [None]; each with the value passed, and nothing else.  A
    value that is present but false, such as the empty string or [0.0],
    is kept. *)
Theorem save_metadata_file_record fs output_dir filename original_prompt
    provider model revised_prompt created quality size cost_usd kwargs :
  kwargs_well_formed kwargs ->
  let record :=
    [("original_prompt", VStr original_prompt);
     ("provider", VStr provider);
     ("model", VStr model)]
    ++ (if is_not_None revised_prompt && ne_str revised_prompt original_prompt
        then [("revised_prompt", revised_prompt)] else [])
    ++ field_if_present "created" created
    ++ field_if_present "quality" quality
    ++ field_if_present "size" size
    ++ field_if_present "cost_usd" cost_usd
    ++ filter (fun kv => is_not_None kv.2 = true) kwargs in
  save_metadata_file fs output_dir filename original_prompt provider model
    revised_prompt created quality size cost_usd kwargs
    !! json_path_of output_dir filename = Some (Json record)
  /\ dict_lookup "original_prompt" record = Some (VStr original_prompt)
  /\ dict_lookup "provider" record = Some (VStr provider)
  /\ dict_lookup "model" record = Some (VStr model)
  /\ dict_lookup "revised_prompt" record =
       (if is_not_None revised_prompt && ne_str revised_prompt original_prompt
        then Some revised_prompt else None)
  /\ dict_lookup "created" record = (if is_not_None created then Some created else None)
  /\ dict_lookup "quality" record = (if is_not_None quality then Some quality else None)
  /\ dict_lookup "size" record = (if is_not_None size then Some size else None)
  /\ dict_lookup "cost_usd" record = (if is_not_None cost_usd then Some cost_usd else None)
  /\ (forall k v, (k, v) ∈ kwargs ->
        dict_lookup k record = (if is_not_None v then Some v else None))
  /\ (forall k, k ∉ named_parameters -> k ∉ kwargs.*1 -> dict_lookup k record = None)
  /\ (forall k, k ∈ ["output_dir"; "filename"] -> dict_lookup k record = None)
  /\ (revised_prompt = VStr original_prompt -> dict_lookup "revised_prompt" record = None)
  /\ is_not_None (VStr "") = true
  /\ is_not_None (VFloat 0%float) = true.
Proof.
  intros [Hnd Hfresh] record.
  set (base := build_metadata original_prompt provider model
                 revised_prompt created quality size cost_usd []).
  set (extras := filter (fun kv => is_not_None kv.2 = true) kwargs).
  assert (Hrec : build_metadata original_prompt provider model
                   revised_prompt created quality size cost_usd kwargs = record).
  { rewrite build_metadata_split. rewrite add_extra_fields_fresh; [|done|].
    - rewrite build_metadata_no_extras. unfold record.
      by rewrite <- !app_assoc.
    - intros k Hk Hin. apply (Hfresh k Hk).
      by eapply no_extras_keys_named. }
  assert (Hsplit : record = base ++ extras).
  { unfold record, base, extras. rewrite build_metadata_no_extras.
    by rewrite <- !app_assoc. }
  assert (Hnamed : forall k, k ∈ named_parameters -> dict_lookup k extras = None).
  { intros k Hk. apply dict_lookup_notin. intros Hin.
    apply filter_keys_subset in Hin. by apply (Hfresh k). }
  assert (Hlook : forall k, k ∈ named_parameters ->
                    dict_lookup k record = dict_lookup k base).
  { intros k Hk. rewrite Hsplit, dict_lookup_app, (Hnamed k Hk).
    by destruct (dict_lookup k base). }
  assert (Hbase : forall k, k ∉ named_parameters -> dict_lookup k base = None).
  { intros k Hk. apply dict_lookup_notin. intros Hin. apply Hk.
    by eapply no_extras_keys_named. }
  split.
  { unfold save_metadata_file. rewrite Hrec. apply lookup_insert_eq. }
  assert (Hev : forall k, k ∈ named_parameters ->
            dict_lookup k record =
            dict_lookup k
              ([("original_prompt", VStr original_prompt);
                ("provider", VStr provider); ("model", VStr model)]
               ++ (if is_not_None revised_prompt && ne_str revised_prompt original_prompt
                   then [("revised_prompt", revised_prompt)] else [])
               ++ field_if_present "created" created
               ++ field_if_present "quality" quality
               ++ field_if_present "size" size
               ++ field_if_present "cost_usd" cost_usd)).
  { intros k Hk. rewrite (Hlook k Hk). unfold base.
    by rewrite build_metadata_no_extras. }
  assert (Hin : forall k, k ∈ named_parameters <->
            k = "output_dir" \/ k = "filename" \/ k = "original_prompt"
            \/ k = "provider" \/ k = "model" \/ k = "revised_prompt"
            \/ k = "created" \/ k = "quality" \/ k = "size" \/ k = "cost_usd").
  { intros k. unfold named_parameters. rewrite !elem_of_cons, elem_of_nil. tauto. }
  clearbody record base.
  repeat match goal with |- _ /\ _ => split end;
    try (rewrite Hev by (apply Hin; tauto); unfold field_if_present;
         case_optional_fields; reflexivity);
    try reflexivity.
  - intros k v Hkv. rewrite Hsplit, dict_lookup_app.
    assert (Hk : k ∈ kwargs.*1) by (apply list_elem_of_fmap; by exists (k, v)).
    rewrite (Hbase k (Hfresh k Hk)).
    destruct (is_not_None v) eqn:Ev.
    + apply dict_lookup_in.
      * subst extras. by apply filter_keys_NoDup.
      * subst extras. by apply list_elem_of_filter.
    + apply dict_lookup_notin. subst extras. intros Hin'.
      apply list_elem_of_fmap in Hin' as [[k' v'] [Hk' Hin']]. simpl in Hk'. subst k'.
      apply list_elem_of_filter in Hin' as [Hv' Hin']. simpl in Hv'.
      assert (v' = v); [|congruence].
      assert (Some v' = Some v); [|congruence].
      rewrite <- (dict_lookup_in k v' kwargs Hnd Hin').
      by rewrite <- (dict_lookup_in k v kwargs Hnd Hkv).
  - intros k Hk1 Hk2. rewrite Hsplit, dict_lookup_app, (Hbase k Hk1).
    apply dict_lookup_notin. subst extras. intros Hin'.
    by apply filter_keys_subset in Hin'.
  - intros k Hk. rewrite Hev.
    + apply elem_of_cons in Hk as [->|Hk]; [|apply list_elem_of_singleton in Hk as ->];
        unfold field_if_present; case_optional_fields; reflexivity.
    + apply Hin. rewrite !elem_of_cons, elem_of_nil in Hk. tauto.
  - intros ->. rewrite Hev by (apply Hin; tauto). simpl.
    rewrite String.eqb_refl. simpl. unfold field_if_present.
    case_optional_fields; reflexivity.
Qed.

Lemma save_metadata_file_record_witness :
  save_metadata_file ∅ "out" "imggen_001.png" "a cat" "google" "gemini"
    (VStr "a cat") VNone (VStr "") VNone (VFloat 0%float)
    [("model_version", VNone); ("prompt_tokens", VInt 0); ("response_id", VStr "r1")]
    !! "out/imggen_001.json"
  = Some (Json [("original_prompt", VStr "a cat"); ("provider", VStr "google");
                ("model", VStr "gemini"); ("quality", VStr "");
                ("cost_usd", VFloat 0%float); ("prompt_tokens", VInt 0);
                ("response_id", VStr "r1")]).
Proof.
  refine (proj1 (save_metadata_file_record ∅ "out" "imggen_001.png" "a cat" "google"
                   "gemini" (VStr "a cat") VNone (VStr "") VNone (VFloat 0%float)
                   [("model_version", VNone); ("prompt_tokens", VInt 0);
                    ("response_id", VStr "r1")] _)).
  split.
  - cbn [fmap list_fmap fst].
    repeat (constructor; [rewrite ?elem_of_cons, ?elem_of_nil; intuition discriminate|]).
    constructor.
  - intros k Hk. cbn [fmap list_fmap fst] in Hk.
    rewrite !elem_of_cons, elem_of_nil in Hk.
    destruct Hk as [->|[->|[->|[]]]]; unfold named_parameters;
      rewrite !elem_of_cons, elem_of_nil; intuition discriminate.
Defined.

(** ** The three loops of the batch *)

Lemma submit_loop_futures p a dir slots futures w i :
  (submit_loop p a dir slots futures w).1 !! i =
  if decide (i ∈ slots) then Some (slot_filename i, slot_result p a dir i)
  else futures !! i.
Proof.
  revert futures w. induction slots as [|j rest IH]; intros futures w.
  - cbn [submit_loop fst]. by rewrite decide_False by apply not_elem_of_nil.
  - cbn [submit_loop]. rewrite IH. destruct (decide (i ∈ rest)) as [Hin|Hnin].
    + by rewrite decide_True by (by right).
    + destruct (decide (i = j)) as [->|Hne].
      * rewrite decide_True by left. by rewrite lookup_insert_eq.
      * rewrite decide_False by (rewrite elem_of_cons; tauto).
        by rewrite lookup_insert_ne.
Qed.

Lemma results_of_lookup p a dir cs i :
  results_of p a dir cs !! i =
  if decide (i ∈ cs) then Some (slot_filename i, slot_result p a dir i) else None.
Proof.
  unfold results_of. induction cs as [|j rest IH].
  - rewrite fmap_nil, list_to_map_nil, lookup_empty.
    by rewrite decide_False by apply not_elem_of_nil.
  - rewrite fmap_cons, list_to_map_cons. destruct (decide (i = j)) as [->|Hne].
    + rewrite lookup_insert_eq. by rewrite decide_True by left.
    + rewrite lookup_insert_ne by done. rewrite IH.
      destruct (decide (i ∈ rest)).
      * by rewrite decide_True by (by right).
      * by rewrite decide_False by (rewrite elem_of_cons; tauto).
Qed.

Lemma collected_in_futures futures completion i :
  i ∈ collected futures completion -> i ∈ completion /\ is_Some (futures !! i).
Proof.
  induction completion as [|j rest IH]; cbn [collected]; [by intros ?%elem_of_nil|].
  destruct (futures !! j) as [[f r]|] eqn:E.
  - destruct (is_rate_limited r).
    + intros ->%list_elem_of_singleton. split; [left | by rewrite E].
    + intros [->|Hin]%elem_of_cons; [split; [left | by rewrite E]|].
      destruct (IH Hin). split; [by right | done].
  - intros Hin. destruct (IH Hin). split; [by right | done].
Qed.

Lemma collect_loop_spec futures completion results w :
  (forall i, (collect_loop futures completion results w).1.1 !! i =
             if decide (i ∈ collected futures completion) then futures !! i
             else results !! i)
  /\ (collect_loop futures completion results w).1.2 = short_circuited futures completion
  /\ (collect_loop futures completion results w).2 =
     World (fs w)
       (trace w ++ (EvCollect <$> collected futures completion)
          ++ (if short_circuited futures completion then [EvShutdown] else [])).
Proof.
  revert results w. induction completion as [|j rest IH]; intros results w.
  - cbn [collect_loop collected short_circuited fst snd]. split; [|split]; [| done |].
    + intros i. by rewrite decide_False by apply not_elem_of_nil.
    + destruct w. simpl. by rewrite app_nil_r.
  - cbn [collect_loop collected short_circuited].
    destruct (futures !! j) as [[f r]|] eqn:E; [|apply IH].
    fold (is_rate_limited r). destruct (is_rate_limited r) eqn:Erl.
    + cbn [fst snd]. split; [|split]; [| done |].
      * intros i. destruct (decide (i = j)) as [->|Hne].
        -- rewrite lookup_insert_eq. by rewrite decide_True by left.
        -- rewrite lookup_insert_ne by done.
           by rewrite decide_False by (rewrite list_elem_of_singleton; done).
      * unfold emit. simpl. by rewrite <- app_assoc.
    + destruct (IH (<[j:=(f, r)]> results) (emit (EvCollect j) w)) as (H1 & H2 & H3).
      split; [|split]; [| done |].
      * intros i. rewrite H1. destruct (decide (i = j)) as [->|Hne].
        -- rewrite (decide_True (P := j ∈ j :: _)) by left.
           rewrite lookup_insert_eq. by destruct (decide _).
        -- rewrite lookup_insert_ne by done.
           destruct (decide (i ∈ collected futures rest)).
           ++ by rewrite decide_True by (by right).
           ++ by rewrite decide_False by (rewrite elem_of_cons; tauto).
      * rewrite H3. simpl. by rewrite <- app_assoc.
Qed.

Lemma print_all_spec lines w :
  print_all lines w = World (fs w) (trace w ++ (EvPrint <$> lines)).
Proof.
  unfold print_all. revert w. induction lines as [|l rest IH]; intros w; simpl.
  - destruct w. simpl. by rewrite app_nil_r.
  - rewrite IH. simpl. by rewrite <- app_assoc.
Qed.

Lemma print_summary_spec rt dir cost t w :
  print_summary rt dir cost t w =
  World (fs w) (trace w ++ (EvPrint <$> summary_lines rt dir cost t)).
Proof.
  unfold print_summary, summary_lines.
  destruct (0 <? failed t).
  - rewrite print_all_spec. unfold print, emit. cbn [fs trace].
    f_equal. rewrite !fmap_app, <- !app_assoc. reflexivity.
  - unfold print, emit. cbn [fs trace].
    f_equal. rewrite <- !app_assoc. reflexivity.
Qed.

Lemma count_outcome_cons o results i slots :
  count_outcome o results (i :: slots) =
  (if decide (classify results i = o) then 1 else 0) + count_outcome o results slots.
Proof.
  unfold count_outcome. rewrite filter_cons.
  destruct (decide (classify results i = o)); simpl length; lia.
Qed.

(** One turn of the replay. *)
Lemma display_loop_cons rt p a dir results i rest t w :
  classify results i <> NoStatus ->
  display_loop rt p a dir results (i :: rest) t w =
  display_loop rt p a dir results rest
    (Tally (successful t + (if decide (classify results i = Succeeded) then 1 else 0))
       (failed t + (if decide (classify results i = Failed) then 1 else 0))
       (errors t ++ slot_errors rt results i))
    (World (slot_write p a dir results (fs w) i)
       (trace w ++ slot_events p a dir results i)).
Proof.
  intros Hi. cbn [display_loop].
  unfold slot_events, slot_errors, slot_write. unfold classify in *.
  destruct (results !! i) as [[f r]|] eqn:E.
  - destruct (r !! "status") as [status|] eqn:Es; [|done].
    destruct (negb (ne_str status "success")) eqn:Ec.
    + rewrite (decide_True (P := Succeeded = Succeeded)) by done.
      rewrite (decide_False (P := Succeeded = Failed)) by done.
      rewrite Z.add_0_r, app_nil_r. unfold print, emit. cbn [fs trace successful failed errors].
      by rewrite <- app_assoc.
    + rewrite (decide_False (P := Failed = Succeeded)) by done.
      rewrite (decide_True (P := Failed = Failed)) by done.
      rewrite Z.add_0_r. unfold print, emit. cbn [fs trace successful failed errors].
      reflexivity.
  - rewrite (decide_False (P := NotCollected = Succeeded)) by done.
    rewrite (decide_False (P := NotCollected = Failed)) by done.
    rewrite !Z.add_0_r, !app_nil_r. by destruct t, w.
Qed.

(** The replay over [slots], when every collected result has a status. *)
Lemma display_loop_spec rt p a dir results slots t w :
  (forall i, i ∈ slots -> classify results i <> NoStatus) ->
  display_loop rt p a dir results slots t w =
  (Ok (Tally (successful t + count_outcome Succeeded results slots)
         (failed t + count_outcome Failed results slots)
         (errors t ++ concat (slot_errors rt results <$> slots))),
   World (foldl (slot_write p a dir results) (fs w) slots)
     (trace w ++ concat (slot_events p a dir results <$> slots))).
Proof.
  revert t w. induction slots as [|i rest IH]; intros t w Hst.
  - cbn [display_loop]. unfold count_outcome. cbn [filter list_filter length].
    rewrite fmap_nil. cbn [concat foldl]. rewrite !Z.add_0_r, !app_nil_r.
    by destruct t, w.
  - rewrite display_loop_cons by (apply Hst; left).
    rewrite IH by (intros j Hj; apply Hst; by right).
    rewrite !count_outcome_cons, !fmap_cons.
    cbn [concat foldl fs trace successful failed errors].
    rewrite <- !app_assoc, !Z.add_assoc. reflexivity.
Qed.

Lemma display_loop_no_status rt p a dir results i rest t w :
  classify results i = NoStatus ->
  display_loop rt p a dir results (i :: rest) t w
  = (Raise (Exn "KeyError" "'status'"), w).
Proof.
  unfold classify. cbn [display_loop].
  destruct (results !! i) as [[f r]|]; [|done].
  destruct (r !! "status"); [|done].
  by destruct (negb _).
Qed.

(** The replay over [slots] for any results: what it has emitted is the
    events of a prefix of [slots], of all of them when it returns. *)
Lemma display_loop_trace rt p a dir results slots t w :
  exists k,
    trace (display_loop rt p a dir results slots t w).2 =
    trace w ++ concat (slot_events p a dir results <$> take k slots)
    /\ (forall t', (display_loop rt p a dir results slots t w).1 = Ok t' ->
                   k = length slots).
Proof.
  revert t w. induction slots as [|i rest IH]; intros t w.
  - exists 0%nat. cbn [display_loop snd take]. rewrite fmap_nil.
    cbn [concat]. by rewrite app_nil_r.
  - destruct (decide (classify results i = NoStatus)) as [Hn|Hn].
    + exists 0%nat. rewrite display_loop_no_status by done.
      cbn [fst snd take]. rewrite fmap_nil. cbn [concat].
      split; [by rewrite app_nil_r | done].
    + rewrite display_loop_cons by done.
      match goal with |- context [display_loop _ _ _ _ _ rest ?t1 ?w1] =>
        destruct (IH t1 w1) as [k [Hk1 Hk2]] end.
      exists (S k). split; [|intros t' Ht'; cbn [length]; f_equal; by eapply Hk2].
      rewrite Hk1. cbn [take trace]. rewrite fmap_cons. cbn [concat].
      by rewrite <- app_assoc.
Qed.

(** ** The batch as a whole *)

Lemma submit_loop_world p a dir slots futures w :
  (submit_loop p a dir slots futures w).2 =
  World (fs w) (trace w ++ ((fun i => EvSubmit i (slot_filename i)) <$> slots)).
Proof.
  pose proof (submit_loop_trace p a dir slots futures w) as Ht.
  pose proof (submit_loop_fs p a dir slots futures w) as Hf.
  destruct (submit_loop p a dir slots futures w).2. simpl in *. by subst.
Qed.

Lemma submit_loop_results p a dir slots w :
  (submit_loop p a dir slots ∅ w).1 = results_of p a dir slots.
Proof.
  apply map_eq. intros i. rewrite submit_loop_futures, results_of_lookup.
  destruct (decide (i ∈ slots)); [done | apply lookup_empty].
Qed.

Lemma run_batch_unfold rt p a dir cost completion w :
  0 < variations a ->
  let slots := py_range 1 (variations a + 1) in
  let results := results_of p a dir (collected (results_of p a dir slots) completion) in
  run_batch rt p a dir cost completion w =
  match display_loop rt p a dir results slots (Tally 0 0 [])
          (World (fs w) (trace w ++ batch_prefix p a dir completion)) with
  | (Raise e, w2) => (Raise e, w2)
  | (Ok t, w2) => (Ok tt, print_summary rt dir cost t w2)
  end.
Proof.
  intros Hpos slots results. unfold run_batch. fold slots.
  rewrite (proj2 (Z.leb_gt _ _)) by lia.
  pose proof (submit_loop_world p a dir slots ∅ (print "" w)) as Hw.
  pose proof (submit_loop_results p a dir slots (print "" w)) as Hf.
  destruct (submit_loop p a dir slots ∅ (print "" w)) as [futures w1].
  cbn [fst snd] in Hw, Hf. subst futures w1.
  match goal with |- context [collect_loop ?f ?c ?r ?w1] =>
    destruct (collect_loop_spec f c r w1) as (H1 & H2 & H3);
    assert (Hres : (collect_loop f c r w1).1.1 = results);
    [|destruct (collect_loop f c r w1) as [[res rl] w2]]
  end.
  { apply map_eq. intros i. rewrite H1. unfold results.
    rewrite (results_of_lookup p a dir (collected _ _) i).
    destruct (decide (i ∈ collected (results_of p a dir slots) completion)) as [Hin|];
      [|apply lookup_empty].
    apply collected_in_futures in Hin as [_ [x Hx]].
    rewrite results_of_lookup in Hx |- *. by destruct (decide (i ∈ slots)). }
  cbn [fst snd] in *. subst res w2.
  unfold batch_prefix. fold slots. unfold print, emit. cbn [fs trace].
  rewrite <- !app_assoc. reflexivity.
Qed.

Lemma display_loop_ok_inv rt p a dir results slots t w t' w' :
  display_loop rt p a dir results slots t w = (Ok t', w') ->
  forall i, i ∈ slots -> classify results i <> NoStatus.
Proof.
  revert t w. induction slots as [|i rest IH]; intros t w Hd j Hj.
  - by apply elem_of_nil in Hj.
  - destruct (decide (classify results i = NoStatus)) as [Hn|Hn].
    + by rewrite display_loop_no_status in Hd.
    + rewrite display_loop_cons in Hd by done.
      apply elem_of_cons in Hj as [->|Hj]; [done|]. by eapply IH.
Qed.

(** A batch that returns has replayed every slot and printed the summary
    of the tally. *)
Lemma run_batch_ok rt p a dir cost completion w w' :
  run_batch rt p a dir cost completion w = (Ok tt, w') ->
  let slots := py_range 1 (variations a + 1) in
  let results := results_of p a dir (collected (results_of p a dir slots) completion) in
  w' = World (foldl (slot_write p a dir results) (fs w) slots)
         (trace w ++ batch_prefix p a dir completion
            ++ concat (slot_events p a dir results <$> slots)
            ++ (EvPrint <$> summary_lines rt dir cost (tally_of rt results slots))).
Proof.
  intros Hrun slots results.
  assert (Hpos : 0 < variations a).
  { unfold run_batch in Hrun. destruct (Z.min 4 (variations a) <=? 0) eqn:E; [done|].
    apply Z.leb_gt in E. lia. }
  rewrite run_batch_unfold in Hrun by done.
  fold slots in Hrun. fold results in Hrun.
  destruct (display_loop rt p a dir results slots (Tally 0 0 [])
              (World (fs w) (trace w ++ batch_prefix p a dir completion)))
    as [[t|e] w2] eqn:Hd; [|done].
  pose proof (display_loop_ok_inv _ _ _ _ _ _ _ _ _ _ Hd) as Hst.
  rewrite display_loop_spec in Hd by done.
  inversion Hd; subst. inversion Hrun; subst.
  rewrite print_summary_spec. cbn [fs trace successful failed errors].
  unfold tally_of. rewrite ?Z.add_0_l, ?app_nil_l, <- ?app_assoc. reflexivity.
Qed.

Lemma run_batch_total rt p a dir cost completion w :
  0 < variations a ->
  let slots := py_range 1 (variations a + 1) in
  let results := results_of p a dir (collected (results_of p a dir slots) completion) in
  (forall i, i ∈ slots -> classify results i <> NoStatus) ->
  run_batch rt p a dir cost completion w =
  (Ok tt,
   World (foldl (slot_write p a dir results) (fs w) slots)
     (trace w ++ batch_prefix p a dir completion
        ++ concat (slot_events p a dir results <$> slots)
        ++ (EvPrint <$> summary_lines rt dir cost (tally_of rt results slots)))).
Proof.
  intros Hpos slots results Hst. rewrite run_batch_unfold by done.
  fold slots. fold results. rewrite display_loop_spec by done.
  rewrite print_summary_spec. cbn [fs trace successful failed errors].
  unfold tally_of. rewrite ?Z.add_0_l, ?app_nil_l, <- ?app_assoc. reflexivity.
Qed.

(** The collection stops at the first rate-limited result. *)
Lemma collected_stop futures pre k post :
  (forall i, i ∈ pre -> exists f r, futures !! i = Some (f, r) /\ is_rate_limited r = false) ->
  (exists f r, futures !! k = Some (f, r) /\ is_rate_limited r = true) ->
  collected futures (pre ++ k :: post) = pre ++ [k]
  /\ short_circuited futures (pre ++ k :: post) = true.
Proof.
  intros Hpre (f & r & Hk & Hrl). induction pre as [|j pre IH].
  - cbn [app collected short_circuited]. by rewrite Hk, Hrl.
  - destruct (Hpre j (list_elem_of_here _ _)) as (fj & rj & Hj & Hnrl).
    destruct IH as [IH1 IH2]; [intros i Hi; apply Hpre; by right|].
    cbn [app collected short_circuited]. rewrite Hj, Hnrl, IH1, IH2. done.
Qed.

(** Without a rate-limited result every completed slot is collected. *)
Lemma collected_all futures completion :
  (forall i f r, futures !! i = Some (f, r) -> is_rate_limited r = false) ->
  collected futures completion = filter (fun i => is_Some (futures !! i)) completion
  /\ short_circuited futures completion = false.
Proof.
  intros Hn. induction completion as [|j rest [IH1 IH2]]; [done|].
  cbn [collected short_circuited]. rewrite filter_cons.
  destruct (futures !! j) as [[f r]|] eqn:E.
  - rewrite (Hn _ _ _ E), IH1, IH2. by rewrite decide_True by (by eexists).
  - rewrite IH1, IH2. by rewrite decide_False by (by intros [? ?]).
Qed.

(** A short circuit comes from a collected result whose [rate_limited]
    entry is true. *)
Lemma short_circuited_inv futures completion :
  short_circuited futures completion = true ->
  exists k f r, k ∈ completion /\ futures !! k = Some (f, r)
                /\ is_rate_limited r = true.
Proof.
  induction completion as [|j rest IH]; cbn [short_circuited]; [done|].
  destruct (futures !! j) as [[f r]|] eqn:E.
  - destruct (is_rate_limited r) eqn:Erl.
    + intros _. exists j, f, r. split; [left | done].
    + intros H. destruct (IH H) as (k & f' & r' & Hk & Hf & Hr).
      exists k, f', r'. split; [by right | done].
  - intros H. destruct (IH H) as (k & f' & r' & Hk & Hf & Hr).
    exists k, f', r'. split; [by right | done].
Qed.

Lemma classify_results_of p a dir cs i :
  classify (results_of p a dir cs) i =
  if decide (i ∈ cs) then
    match slot_result p a dir i !! "status" with
    | None => NoStatus
    | Some status => if negb (ne_str status "success") then Succeeded else Failed
    end
  else NotCollected.
Proof.
  unfold classify. rewrite results_of_lookup. by destruct (decide (i ∈ cs)).
Qed.

(** Counting an outcome over the slots is counting it over the slots
    collected. *)
Lemma count_outcome_collected o p a dir cs slots :
  o <> NotCollected -> NoDup cs -> NoDup slots -> (forall i, i ∈ cs -> i ∈ slots) ->
  count_outcome o (results_of p a dir cs) slots
  = count_outcome o (results_of p a dir cs) cs.
Proof.
  intros Ho Hcs Hslots Hsub. unfold count_outcome. f_equal.
  apply Permutation_length, NoDup_Permutation.
  - by apply NoDup_filter.
  - by apply NoDup_filter.
  - intros i. rewrite !list_elem_of_filter. split.
    + intros [Hc Hi]. split; [done|]. rewrite classify_results_of in Hc.
      destruct (decide (i ∈ cs)); [done | congruence].
    + intros [Hc Hi]. split; [done | by apply Hsub].
Qed.

Lemma count_outcome_partition results cs :
  (forall i, i ∈ cs -> classify results i = Succeeded \/ classify results i = Failed) ->
  count_outcome Succeeded results cs + count_outcome Failed results cs
  = Z.of_nat (length cs).
Proof.
  induction cs as [|i rest IH]; intros H; [done|].
  rewrite !count_outcome_cons. cbn [length].
  specialize (IH (fun j Hj => H j (list_elem_of_further _ _ _ Hj))).
  destruct (H i (list_elem_of_here _ _)) as [Hc|Hc]; rewrite Hc.
  - rewrite (decide_True (P := Succeeded = Succeeded)) by done.
    rewrite (decide_False (P := Succeeded = Failed)) by done. lia.
  - rewrite (decide_False (P := Failed = Succeeded)) by done.
    rewrite (decide_True (P := Failed = Failed)) by done. lia.
Qed.

(** ** The rate-limit short circuit *)

(** C2 (amended).  Let the completion order be [pre], then [k], then
    [post], where [k] is the first slot whose result has a true
    [rate_limited] entry.  Then the batch reads the results of [pre] and
    [k] and nothing after: [post] has no influence, no task is submitted
    and no result is read after the trigger.  The counts are those of the
    results read, so they add up to the number of results read.  A slot
    whose result was not read produces no line and no sidecar and enters
    neither count: nothing reports it. *)
Theorem rate_limit_short_circuit rt p a dir cost pre k post w :
  let slots := py_range 1 (variations a + 1) in
  let results := results_of p a dir (pre ++ [k]) in
  let t := tally_of rt results slots in
  (forall i, i ∈ pre ++ [k] -> i ∈ slots) ->
  NoDup (pre ++ [k]) ->
  (forall i, i ∈ pre -> is_rate_limited (slot_result p a dir i) = false) ->
  is_rate_limited (slot_result p a dir k) = true ->
  (forall i, i ∈ pre ++ [k] -> is_Some (slot_result p a dir i !! "status")) ->
  run_batch rt p a dir cost (pre ++ k :: post) w =
    (Ok tt,
     World (foldl (slot_write p a dir results) (fs w) slots)
       (trace w ++ [EvPrint ""]
          ++ ((fun i => EvSubmit i (slot_filename i)) <$> slots)
          ++ (EvCollect <$> pre ++ [k]) ++ [EvShutdown]
          ++ concat (slot_events p a dir results <$> slots)
          ++ (EvPrint <$> summary_lines rt dir cost t)))
  /\ (forall post',
        run_batch rt p a dir cost (pre ++ k :: post') w
        = run_batch rt p a dir cost (pre ++ k :: post) w)
  /\ successful t = count_outcome Succeeded results (pre ++ [k])
  /\ failed t = count_outcome Failed results (pre ++ [k])
  /\ successful t + failed t = Z.of_nat (length (pre ++ [k]))
  /\ (forall j, j ∈ slots -> j ∉ pre ++ [k] ->
        results !! j = None
        /\ classify results j = NotCollected
        /\ slot_events p a dir results j = []
        /\ slot_errors rt results j = []
        /\ forall files, slot_write p a dir results files j = files).
Proof.
  intros slots results t Hsub Hnd Hpre Hk Hst.
  assert (Hcol : forall post0,
            collected (results_of p a dir slots) (pre ++ k :: post0) = pre ++ [k]
            /\ short_circuited (results_of p a dir slots) (pre ++ k :: post0) = true).
  { intros post0. apply collected_stop.
    - intros i Hi. exists (slot_filename i), (slot_result p a dir i).
      split; [|by apply Hpre]. rewrite results_of_lookup.
      rewrite decide_True; [done|]. apply Hsub, elem_of_app. by left.
    - exists (slot_filename k), (slot_result p a dir k).
      split; [|done]. rewrite results_of_lookup.
      rewrite decide_True; [done|]. apply Hsub, elem_of_app. right. left. }
  assert (Hcls : forall i, i ∈ pre ++ [k] ->
            classify results i = Succeeded \/ classify results i = Failed).
  { intros i Hi. unfold results. rewrite classify_results_of.
    rewrite decide_True by done. destruct (Hst i Hi) as [s ->].
    destruct (negb (ne_str s "success")); auto. }
  assert (Hnc : forall j, j ∉ pre ++ [k] -> results !! j = None).
  { intros j Hj. unfold results. rewrite results_of_lookup.
    by rewrite decide_False. }
  assert (Hns : forall i, i ∈ slots -> classify results i <> NoStatus).
  { intros i Hi. destruct (decide (i ∈ pre ++ [k])) as [Hin|Hnin].
    - destruct (Hcls i Hin) as [-> | ->]; done.
    - unfold classify. by rewrite (Hnc i Hnin). }
  assert (Hrun : forall post0,
    run_batch rt p a dir cost (pre ++ k :: post0) w =
    (Ok tt,
     World (foldl (slot_write p a dir results) (fs w) slots)
       (trace w ++ [EvPrint ""]
          ++ ((fun i => EvSubmit i (slot_filename i)) <$> slots)
          ++ (EvCollect <$> pre ++ [k]) ++ [EvShutdown]
          ++ concat (slot_events p a dir results <$> slots)
          ++ (EvPrint <$> summary_lines rt dir cost t)))).
  { intros post0. destruct (Hcol post0) as [Hc Hs].
    assert (Hpos : 0 < variations a).
    { assert (Hin : k ∈ slots) by (apply Hsub, elem_of_app; right; left).
      apply elem_of_py_range in Hin. lia. }
    rewrite run_batch_total;
      [ | exact Hpos | fold slots; rewrite Hc; fold results; exact Hns ].
    fold slots. rewrite Hc. fold results.
    unfold batch_prefix. fold slots. rewrite Hc, Hs.
    rewrite <- !app_assoc. reflexivity. }
  assert (Hslots : NoDup slots) by apply NoDup_seqZ.
  split; [apply Hrun|]. split; [intros post'; by rewrite !Hrun|].
  split; [by apply count_outcome_collected|].
  split; [by apply count_outcome_collected|].
  split.
  - unfold t, tally_of. cbn [successful failed].
    rewrite !(count_outcome_collected _ p a dir (pre ++ [k]) slots) by done.
    by apply count_outcome_partition.
  - intros j Hj Hnin. pose proof (Hnc j Hnin) as Hn.
    unfold classify, slot_events, slot_errors, slot_write. rewrite Hn. done.
Qed.

Lemma rate_limit_short_circuit_witness :
  (run_batch (sample_runtime rate_limited_on_2) (sample_provider rate_limited_on_2)
     (sample_arguments "out" 4) "out" 0.009%float ([1] ++ 2 :: [3; 4]) empty_world).1
  = Ok tt
  /\ collected_slots
       (trace (run_batch (sample_runtime rate_limited_on_2)
                 (sample_provider rate_limited_on_2)
                 (sample_arguments "out" 4) "out" 0.009%float
                 ([1] ++ 2 :: [3; 4]) empty_world).2)
     = [1; 2].
Proof.
  destruct (rate_limit_short_circuit (sample_runtime rate_limited_on_2)
              (sample_provider rate_limited_on_2) (sample_arguments "out" 4)
              "out" 0.009%float [1] 2 [3; 4] empty_world) as [Hrun _].
  - intros i Hi. apply elem_of_py_range. cbn [app] in Hi.
    rewrite !elem_of_cons, elem_of_nil in Hi. simpl. lia.
  - cbn [app]. repeat constructor; rewrite ?elem_of_cons, ?elem_of_nil; intuition discriminate.
  - intros i Hi. rewrite elem_of_cons, elem_of_nil in Hi.
    destruct Hi as [->|[]]. reflexivity.
  - reflexivity.
  - intros i Hi. cbn [app] in Hi. rewrite !elem_of_cons, elem_of_nil in Hi.
    destruct Hi as [->|[->|[]]]; vm_compute; eauto.
  - rewrite Hrun. split; [reflexivity | vm_compute; reflexivity].
Defined.

(** C2 as stated has every slot without a collected result reported as
    not attempted.  In a batch of four where slot 1 completes first and
    slot 2, rate limited, second, slot 3 is never read and no line of the
    whole output names it. *)
Lemma skipped_slot_not_reported :
  rate_limited_run.1 = Ok tt
  /\ collected_slots (trace (rate_limited_run.2)) = [1; 2]
  /\ (3 ∉ collected_slots (trace (rate_limited_run.2)))
  /\ forallb (fun line => negb (reports_slot 3 4 line))
       (stdout (trace (rate_limited_run.2))) = true
  /\ forallb (fun line => negb (contains "not attempted" line))
       (stdout (trace (rate_limited_run.2))) = true.
Proof.
  split; [vm_compute; reflexivity|].
  split; [vm_compute; reflexivity|].
  split; [|split; vm_compute; reflexivity].
  assert (H : collected_slots (trace (rate_limited_run.2)) = [1; 2])
    by (vm_compute; reflexivity).
  rewrite H. rewrite !elem_of_cons, elem_of_nil. intuition discriminate.
Qed.

Lemma batch_prefix_empty p a dir completion :
  variations a <= 0 -> batch_prefix p a dir completion = [EvPrint ""].
Proof.
  intros Hle. unfold batch_prefix, py_range.
  replace (variations a + 1 - 1) with (variations a) by lia.
  assert (Hnil : seqZ 1 (variations a) = []).
  { unfold seqZ. by replace (Z.to_nat (variations a)) with 0%nat by lia. }
  rewrite Hnil. unfold results_of. rewrite !fmap_nil, list_to_map_nil.
  assert (Hc : forall c, collected (∅ : gmap Z (string * gmap string pyval)) c = []
                         /\ short_circuited (∅ : gmap Z (string * gmap string pyval)) c = false).
  { induction c as [|i c [IH1 IH2]]; [done|].
    cbn [collected short_circuited]. by rewrite lookup_empty. }
  destruct (Hc completion) as [-> ->]. reflexivity.
Qed.

(** ** The replay order *)

Lemma written_sidecars_slot_events p a dir results slots :
  (written_sidecars (concat (slot_events p a dir results <$> slots))).*1
  = filter (fun i => classify results i = Succeeded) slots.
Proof.
  induction slots as [|i rest IH]; [done|].
  rewrite fmap_cons. cbn [concat]. rewrite written_sidecars_app, fmap_app, IH.
  rewrite filter_cons. unfold slot_events at 1.
  destruct (results !! i) as [[f r]|] eqn:E.
  - destruct (classify results i) eqn:Ec.
    + by rewrite decide_False by done.
    + by rewrite decide_True by done.
    + by rewrite decide_False by done.
    + by rewrite decide_False by done.
  - unfold classify. rewrite E. by rewrite decide_False by done.
Qed.

Lemma take_sorted (l : list Z) k :
  StronglySorted Z.lt l -> StronglySorted Z.lt (take k l).
Proof.
  intros H. rewrite <- (take_drop k l) in H.
  by apply StronglySorted_app_1_l in H.
Qed.

(** C4.  For every mapping of collected results the replay walks the
    slots [1..variations] upwards: what it emits is, slot after slot in
    that order, nothing for a slot without a result, the success line
    followed by the sidecar write for a success, the failure line for a
    failure.  So lines and sidecars come in ascending slot order whatever
    the completion order was, and so do the error lines of the summary;
    this holds of the whole batch for every completion order, and when no
    result is rate limited the results replayed do not depend on that
    order at all. *)
Theorem replay_in_slot_order rt p a dir results t w :
  let slots := py_range 1 (variations a + 1) in
  StronglySorted Z.lt slots
  /\ (forall i, i ∈ slots <-> 1 <= i <= variations a)
  /\ (exists k,
        trace (display_loop rt p a dir results slots t w).2 =
        trace w ++ concat (slot_events p a dir results <$> take k slots)
        /\ (forall t', (display_loop rt p a dir results slots t w).1 = Ok t' ->
                       k = length slots))
  /\ (forall i f r, results !! i = Some (f, r) -> classify results i = Succeeded ->
        slot_events p a dir results i =
        [EvPrint (slot_line i (variations a) f "✓");
         EvWriteJson i (json_path_of dir f)
           (build_metadata (prompt a) (name p) (get_generate_model p)
              (result_get r "revised_prompt") (result_get r "created")
              (result_get r "quality") (result_get r "size")
              (result_get r "cost_usd") (extra_fields r))])
  /\ (forall i f r, results !! i = Some (f, r) -> classify results i = Failed ->
        slot_events p a dir results i = [EvPrint (slot_line i (variations a) f "✗")])
  /\ (forall i, results !! i = None -> slot_events p a dir results i = [])
  /\ StronglySorted Z.lt
       (written_sidecars
          (drop (length (trace w))
             (trace (display_loop rt p a dir results slots t w).2))).*1
  /\ (forall t', (display_loop rt p a dir results slots t w).1 = Ok t' ->
        errors t' = errors t ++ concat (slot_errors rt results <$> slots))
  /\ (forall cost completion,
        let collected_results :=
          results_of p a dir (collected (results_of p a dir slots) completion) in
        exists k tail,
          trace (run_batch rt p a dir cost completion w).2 =
          trace w ++ batch_prefix p a dir completion
            ++ concat (slot_events p a dir collected_results <$> take k slots)
            ++ tail
          /\ (tail = [] \/ exists t', tail = EvPrint <$> summary_lines rt dir cost t'))
  /\ (forall completion,
        (forall i, i ∈ slots -> is_rate_limited (slot_result p a dir i) = false) ->
        (forall i, i ∈ slots -> i ∈ completion) ->
        results_of p a dir (collected (results_of p a dir slots) completion)
        = results_of p a dir slots).
Proof.
  intros slots.
  split; [apply py_range_sorted|].
  split; [intros i; unfold slots; rewrite elem_of_py_range; lia|].
  split; [apply display_loop_trace|].
  split; [intros i f r E Ec; unfold slot_events; by rewrite E, Ec|].
  split; [intros i f r E Ec; unfold slot_events; by rewrite E, Ec|].
  split; [intros i E; unfold slot_events; by rewrite E|].
  split.
  - destruct (display_loop_trace rt p a dir results slots t w) as [k [Hk _]].
    rewrite Hk, drop_app_length, written_sidecars_slot_events.
    apply filter_sorted, take_sorted, py_range_sorted.
  - split.
    { intros t' Ht'.
      destruct (display_loop rt p a dir results slots t w) as [r w2] eqn:Hd.
      cbn [fst] in Ht'. subst r.
      pose proof (display_loop_ok_inv _ _ _ _ _ _ _ _ _ _ Hd) as Hst.
      rewrite display_loop_spec in Hd by done. by inversion Hd. }
    split; cycle 1.
    { intros completion Hnrl Hall. apply map_eq. intros i.
      rewrite !results_of_lookup.
      destruct (collected_all (results_of p a dir slots) completion) as [Hc _].
      { intros j f r Hj. rewrite results_of_lookup in Hj.
        destruct (decide (j ∈ slots)); [|done]. inversion Hj; subst. by apply Hnrl. }
      rewrite Hc. destruct (decide (i ∈ slots)) as [Hi|Hi].
      - rewrite decide_True; [done|]. apply list_elem_of_filter.
        split; [|by apply Hall]. rewrite results_of_lookup.
        rewrite decide_True by done. by eexists.
      - rewrite decide_False; [done|]. intros Hin.
        apply list_elem_of_filter in Hin as [[x Hx] _].
        rewrite results_of_lookup in Hx. by rewrite decide_False in Hx. }
    intros cost completion collected_results.
    destruct (decide (0 < variations a)) as [Hpos|Hneg]; cycle 1.
    { exists 0%nat, []. unfold run_batch.
      rewrite (proj2 (Z.leb_le _ _)) by lia. cbn [snd print emit trace take].
      rewrite batch_prefix_empty by lia. rewrite take_0, fmap_nil. cbn [concat].
      split; [by rewrite !app_nil_r | by left]. }
    rewrite run_batch_unfold by done.
    fold slots. fold collected_results.
    destruct (display_loop_trace rt p a dir collected_results slots (Tally 0 0 [])
                (World (fs w) (trace w ++ batch_prefix p a dir completion)))
      as [k [Hk _]].
    destruct (display_loop rt p a dir collected_results slots (Tally 0 0 [])
                (World (fs w) (trace w ++ batch_prefix p a dir completion)))
      as [[t'|e] w2]; cbn [fst snd trace] in *.
    + exists k, (EvPrint <$> summary_lines rt dir cost t').
      rewrite print_summary_spec. cbn [trace]. rewrite Hk, <- !app_assoc.
      split; [done | right; by exists t'].
    + exists k, []. rewrite Hk, app_nil_r, <- !app_assoc. split; [done | by left].
Qed.

(** ** The displayed cost *)

Lemma stdout_prints lines : stdout (EvPrint <$> lines) = lines.
Proof.
  induction lines as [|l rest IH]; [done|].
  rewrite fmap_cons. unfold stdout in *. cbn [omap list_omap]. by rewrite IH.
Qed.

(** With three successes and one failure the estimate is the [low] price
    taken three times; the three results report 0.2 each. *)
Lemma actual_cost_is_not_sum_of_reported_costs :
  calculate_image_cost (Some "openai") None None = Ok 0.009%float
  /\ count_outcome Succeeded
       (results_of (sample_provider fails_on_4) (sample_arguments "out" 4) "out"
          (collected
             (results_of (sample_provider fails_on_4) (sample_arguments "out" 4)
                "out" (py_range 1 5))
             [3; 1; 4; 2]))
       (py_range 1 5) = 3
  /\ count_outcome Failed
       (results_of (sample_provider fails_on_4) (sample_arguments "out" 4) "out"
          (collected
             (results_of (sample_provider fails_on_4) (sample_arguments "out" 4)
                "out" (py_range 1 5))
             [3; 1; 4; 2]))
       (py_range 1 5) = 1
  /\ PrimFloat.eqb (cost_times 0.009%float 3)
       (PrimFloat.add (PrimFloat.add 0.2%float 0.2%float) 0.2%float) = false
  /\ PrimFloat.ltb (cost_times 0.009%float 3) 0.03%float = true.
Proof. repeat split; vm_compute; reflexivity. Qed.

(** ** Exceptions raised by an adapter *)

Lemma failed_dict_status (msg : string) :
  (<["error" := VStr msg]> (<["status" := VStr "failed"]> (∅ : gmap string pyval)))
    !! "status" = Some (VStr "failed").
Proof. rewrite lookup_insert_ne by done. apply lookup_insert_eq. Qed.

Lemma failed_dict_rate_limited (msg : string) :
  (<["error" := VStr msg]> (<["status" := VStr "failed"]> (∅ : gmap string pyval)))
    !! "rate_limited" = None.
Proof. rewrite !lookup_insert_ne by done. apply lookup_empty. Qed.

(** C9.  When the adapter raises, [generate_single_image] returns the
    two-entry dictionary [{status: failed, error: str(e)}], which has no
    [rate_limited] entry.  Collected, it never stops the collection; in
    the replay it is a failure of its slot, with the failure line, the
    failure count and the error text, and the replay goes on.  A short
    circuit always comes from a dictionary an adapter returned with a
    true [rate_limited] entry. *)
Theorem raised_exception_is_ordinary_failure p req e :
  generate_image p req = Raised e ->
  generate_single_image p req
  = <["error" := VStr (exn_str e)]> (<["status" := VStr "failed"]> ∅)
  /\ (forall k, is_Some (generate_single_image p req !! k) <-> k = "status" \/ k = "error")
  /\ generate_single_image p req !! "rate_limited" = None
  /\ is_rate_limited (generate_single_image p req) = false
  /\ (forall futures i f rest results w,
        futures !! i = Some (f, generate_single_image p req) ->
        collect_loop futures (i :: rest) results w
        = collect_loop futures rest
            (<[i := (f, generate_single_image p req)]> results)
            (emit (EvCollect i) w))
  /\ (forall rt a dir results i f rest t w,
        results !! i = Some (f, generate_single_image p req) ->
        classify results i = Failed
        /\ display_loop rt p a dir results (i :: rest) t w
           = display_loop rt p a dir results rest
               (Tally (successful t) (failed t + 1)
                  (errors t ++ ["  - " +:+ f +:+ ": " +:+ exn_str e]))
               (print (slot_line i (variations a) f "✗") w))
  /\ (forall a dir completion,
        short_circuited (results_of p a dir (py_range 1 (variations a + 1)))
          completion = true ->
        exists k result,
          k ∈ completion
          /\ generate_image p (slot_request a dir k) = Returned result
          /\ truthy (result_get result "rate_limited") = true).
Proof.
  intros Hraise.
  assert (Hres : generate_single_image p req
                 = <["error" := VStr (exn_str e)]> (<["status" := VStr "failed"]> ∅))
    by (unfold generate_single_image; by rewrite Hraise).
  assert (Hrl : is_rate_limited (generate_single_image p req) = false).
  { unfold is_rate_limited, result_get. by rewrite Hres, failed_dict_rate_limited. }
  split; [done|]. split; [|split; [|split; [|split; [|split]]]].
  - intros k. rewrite Hres. split.
    + intros [v Hv]. destruct (decide (k = "error")) as [->|Hne1]; [by right|].
      rewrite lookup_insert_ne in Hv by done.
      destruct (decide (k = "status")) as [->|Hne2]; [by left|].
      rewrite lookup_insert_ne in Hv by done. by rewrite lookup_empty in Hv.
    + intros [-> | ->].
      * rewrite failed_dict_status. by eexists.
      * rewrite lookup_insert_eq. by eexists.
  - rewrite Hres. apply failed_dict_rate_limited.
  - done.
  - intros futures i f rest results w Hf. cbn [collect_loop]. rewrite Hf.
    fold (is_rate_limited (generate_single_image p req)). by rewrite Hrl.
  - intros rt a dir results i f rest t w Hi.
    assert (Hc : classify results i = Failed).
    { unfold classify. by rewrite Hi, Hres, failed_dict_status. }
    split; [done|]. cbn [display_loop]. rewrite Hi, Hres, failed_dict_status.
    rewrite lookup_insert_eq. reflexivity.
  - intros a dir completion Hsc.
    apply short_circuited_inv in Hsc as (k & f & r & Hk & Hf & Hr).
    rewrite results_of_lookup in Hf.
    destruct (decide (k ∈ py_range 1 (variations a + 1))); [|done].
    inversion Hf; subst f r. unfold slot_result, generate_single_image in Hr.
    destruct (generate_image p (slot_request a dir k)) as [result|e'] eqn:Eg.
    + exists k, result. done.
    + unfold is_rate_limited, result_get in Hr.
      by rewrite failed_dict_rate_limited in Hr.
Qed.

Lemma raised_exception_is_ordinary_failure_witness :
  generate_single_image (sample_provider raises_on_2)
    (slot_request (sample_arguments "out" 4) "out" 2)
  = <["error" := VStr "429 connection reset"]> (<["status" := VStr "failed"]> ∅)
  /\ is_rate_limited
       (generate_single_image (sample_provider raises_on_2)
          (slot_request (sample_arguments "out" 4) "out" 2)) = false.
Proof.
  destruct (raised_exception_is_ordinary_failure (sample_provider raises_on_2)
              (slot_request (sample_arguments "out" 4) "out" 2)
              (Exn "ConnectionError" "429 connection reset") eq_refl)
    as (H1 & _ & _ & H2 & _).
  split; [exact H1 | exact H2].
Defined.

(** ** The pricing lookup *)

Lemma float_ok_neq (x y : float) :
  PrimFloat.eqb x y = false -> PrimFloat.eqb x x = true -> Ok x <> Ok y.
Proof. intros Hxy Hxx Heq. inversion Heq; subst. congruence. Qed.

Lemma get_image_cost_google resolution quality :
  get_image_cost (Some "google") resolution quality
  = Ok (dict_get_default GOOGLE_PRICING (str_or resolution DEFAULT_RESOLUTION)
          0.134%float).
Proof. reflexivity. Qed.

Lemma get_image_cost_openai resolution quality :
  get_image_cost (Some "openai") resolution quality
  = Ok (dict_get_default OPENAI_PRICING (str_or quality DEFAULT_QUALITY)
          0.009%float).
Proof. reflexivity. Qed.

Lemma dict_get_default_fallback (table : list (string * float)) o d fallback :
  missing_or_unrecognized table o = true ->
  dict_lookup d table = Some fallback ->
  dict_get_default table (str_or o d) fallback = fallback.
Proof.
  intros Hm Hd. unfold dict_get_default, missing_or_unrecognized, str_or in *.
  destruct o as [s|]; [|by rewrite Hd].
  destruct (String.eqb s "") eqn:Es; [by rewrite Hd|].
  simpl in Hm. apply negb_true_iff, bool_decide_eq_false in Hm.
  destruct (dict_lookup s table) eqn:El; [|done].
  exfalso. apply Hm. by eexists.
Qed.

Lemma dict_get_default_found (table : list (string * float)) s d price fallback :
  s <> "" -> dict_lookup s table = Some price ->
  dict_get_default table (str_or (Some s) d) fallback = price.
Proof.
  intros Hs Hl. apply String.eqb_neq in Hs.
  unfold dict_get_default, str_or. by rewrite Hs, Hl.
Qed.

(** C10 (amended).  The lookup always returns and never raises.  A
    provider that is missing or the empty string counts as [openai]; any
    other name that is neither [google] nor [openai] costs 0.0.  For
    [google] a resolution that is missing, empty or not in the table
    gives the [1K] price; for [openai] a quality that is missing, empty
    or not in the table gives the [low] price.  [calculate_image_cost]
    is the same lookup. *)
Theorem get_image_cost_total provider resolution quality :
  (exists cost, get_image_cost provider resolution quality = Ok cost)
  /\ calculate_image_cost provider quality resolution
     = get_image_cost provider resolution quality
  /\ (forall name, provider = Some name -> name <> "" ->
        name <> "google" -> name <> "openai" ->
        get_image_cost provider resolution quality = Ok 0%float)
  /\ (provider = None \/ provider = Some "" ->
        get_image_cost provider resolution quality
        = get_image_cost (Some "openai") resolution quality)
  /\ (provider = Some "google" ->
        missing_or_unrecognized GOOGLE_PRICING resolution = true ->
        get_image_cost provider resolution quality = Ok 0.134%float
        /\ dict_lookup "1K" GOOGLE_PRICING = Some 0.134%float)
  /\ (provider = Some "openai" ->
        missing_or_unrecognized OPENAI_PRICING quality = true ->
        get_image_cost provider resolution quality = Ok 0.009%float
        /\ dict_lookup "low" OPENAI_PRICING = Some 0.009%float)
  /\ (provider = Some "google" ->
        forall r price, resolution = Some r -> r <> "" ->
          dict_lookup r GOOGLE_PRICING = Some price ->
          get_image_cost provider resolution quality = Ok price)
  /\ (provider = Some "openai" ->
        forall q price, quality = Some q -> q <> "" ->
          dict_lookup q OPENAI_PRICING = Some price ->
          get_image_cost provider resolution quality = Ok price).
Proof.
  split; [|split; [done|]].
  - unfold get_image_cost.
    destruct (String.eqb (str_or provider DEFAULT_PROVIDER) "google"); [by eexists|].
    destruct (String.eqb (str_or provider DEFAULT_PROVIDER) "openai"); by eexists.
  - split; [|split; [|split; [|split; [|split]]]].
    + intros name -> Hne Hg Ho. unfold get_image_cost, str_or.
      apply String.eqb_neq in Hne, Hg, Ho. by rewrite Hne, Hg, Ho.
    + intros [-> | ->]; reflexivity.
    + intros -> Hm. split; [|reflexivity].
      rewrite get_image_cost_google. f_equal. by apply dict_get_default_fallback.
    + intros -> Hm. split; [|reflexivity].
      rewrite get_image_cost_openai. f_equal. by apply dict_get_default_fallback.
    + intros -> r price -> Hr Hl.
      rewrite get_image_cost_google. f_equal. by apply dict_get_default_found.
    + intros -> q price -> Hq Hl.
      rewrite get_image_cost_openai. f_equal. by apply dict_get_default_found.
Qed.

(** C10 as stated gives 0.0 for every provider name other than [google]
    and [openai]; the empty name is priced as [openai]. *)
Lemma empty_provider_name_is_not_free : ~ unknown_provider_is_free "".
Proof.
  intros H. specialize (H ltac:(done) ltac:(done) None None).
  revert H. apply float_ok_neq; reflexivity.
Qed.

(** * Further properties of the code *)

(** ** Text search *)

Lemma prefix_nil t : String.prefix "" t = true.
Proof. by destruct t. Qed.

Lemma prefix_app s t : String.prefix s (s +:+ t) = true.
Proof.
  induction s as [|c s IH]; [apply prefix_nil|].
  change (String c s +:+ t) with (String c (s +:+ t)). simpl.
  destruct (Ascii.ascii_dec c c); [apply IH | done].
Qed.

Lemma prefix_app_l s t u : String.prefix s t = true -> String.prefix s (t +:+ u) = true.
Proof.
  revert t. induction s as [|c s IH]; intros t H; [apply prefix_nil|].
  destruct t as [|d t]; [done|].
  change (String d t +:+ u) with (String d (t +:+ u)). simpl in *.
  destruct (Ascii.ascii_dec c d); [by apply IH | done].
Qed.

Lemma prefix_cancel a b c :
  String.prefix b c = true -> String.prefix (a +:+ b) (a +:+ c) = true.
Proof.
  intros H. induction a as [|x a IH]; [done|].
  change (String x a +:+ b) with (String x (a +:+ b)).
  change (String x a +:+ c) with (String x (a +:+ c)). simpl.
  destruct (Ascii.ascii_dec x x); [apply IH | done].
Qed.

Lemma contains_unfold needle hay :
  contains needle hay =
  String.prefix needle hay
  || match hay with
     | EmptyString => false
     | String _ rest => contains needle rest
     end.
Proof. by destruct hay. Qed.

Lemma contains_here s t : contains s (s +:+ t) = true.
Proof. by rewrite contains_unfold, prefix_app. Qed.

Lemma prefix_refl s : String.prefix s s = true.
Proof.
  induction s as [|c s IH]; [done|]. simpl.
  destruct (Ascii.ascii_dec c c); [apply IH | done].
Qed.

Lemma contains_refl s : contains s s = true.
Proof. by rewrite contains_unfold, prefix_refl. Qed.

Lemma contains_app_l s t u : contains s t = true -> contains s (t +:+ u) = true.
Proof.
  induction t as [|d t IH]; intros H.
  - rewrite contains_unfold, orb_false_r in H.
    rewrite contains_unfold. apply orb_true_iff. left.
    destruct s; [apply prefix_nil | done].
  - rewrite contains_unfold in H. apply orb_true_iff in H as [H|H].
    + rewrite contains_unfold. apply orb_true_iff. left. by apply prefix_app_l.
    + change (String d t +:+ u) with (String d (t +:+ u)).
      rewrite contains_unfold. apply orb_true_iff. right. by apply IH.
Qed.

Lemma contains_app_r s t u : contains s t = true -> contains s (u +:+ t) = true.
Proof.
  intros H. induction u as [|d u IH]; [done|].
  change (String d u +:+ t) with (String d (u +:+ t)).
  rewrite contains_unfold. apply orb_true_iff. by right.
Qed.

Lemma contains_join needle sep l x :
  x ∈ l -> contains needle x = true -> contains needle (str_join sep l) = true.
Proof.
  intros Hin Hx. induction l as [|y l IH]; [by apply elem_of_nil in Hin|].
  apply elem_of_cons in Hin as [->|Hin].
  - destruct l as [|z l]; [done|].
    cbn [str_join]. by apply contains_app_l.
  - destruct l as [|z l]; [by apply elem_of_nil in Hin|].
    cbn [str_join]. apply contains_app_r, contains_app_r. by apply IH.
Qed.

(** ** The collision message *)

(** Every file the check found, the directory and the assurance that no
    call was made are in the message of the error. *)
Theorem collision_error_names_every_file rt a completion w i :
  1 <= i <= variations a ->
  os_path_exists (fs w)
    (os_path_join (rstrip_sep (output_dir a)) (slot_filename i)) = true ->
  exists message,
    generate_from_prompt rt a completion w = (Raise (Exn "ValueError" message), w)
    /\ contains ("  - " +:+ slot_filename i) message = true
    /\ contains (rstrip_sep (output_dir a)) message = true
    /\ contains "No API calls were made (no charges incurred)." message = true
    /\ String.prefix "Error: File collision detected" message = true.
Proof.
  intros Hi Hex. set (dir := rstrip_sep (output_dir a)) in *.
  pose proof (check_file_collisions_default_filter (fs w) dir (variations a)) as Hsnd.
  assert (Hin : slot_filename i ∈ (check_file_collisions (fs w) dir (variations a)).2).
  { rewrite Hsnd. apply list_elem_of_filter. split; [done|].
    unfold target_filenames. apply list_elem_of_fmap. exists i.
    split; [done|]. apply elem_of_py_range. lia. }
  assert (Hfst : (check_file_collisions (fs w) dir (variations a)).1 = true).
  { unfold check_file_collisions in *. cbn [fst snd] in *.
    destruct (collisions_loop (fs w) dir (py_range 1 (variations a + 1)) []);
      [by apply elem_of_nil in Hin|].
    apply bool_decide_eq_true. simpl. lia. }
  exists (format_collision_error (check_file_collisions (fs w) dir (variations a)).2 dir).
  split.
  { unfold generate_from_prompt. fold dir.
    destruct (check_file_collisions (fs w) dir (variations a)) as [b l].
    cbn [fst snd] in *. by subst b. }
  set (cols := (check_file_collisions (fs w) dir (variations a)).2) in *.
  unfold format_collision_error. cbn zeta.
  split; [|split; [|split]].
  - apply (contains_join _ _ _ ("  - " +:+ slot_filename i)).
    + rewrite !elem_of_app. left. left. left. left. left. left. right.
      apply list_elem_of_fmap. by exists (slot_filename i).
    + apply contains_refl.
  - apply (contains_join _ _ _
             ("The following files already exist in " +:+ dir +:+ ":")).
    + rewrite !elem_of_app. do 7 left. right. apply list_elem_of_singleton. done.
    + apply contains_app_r, contains_here.
  - apply (contains_join _ _ _ "No API calls were made (no charges incurred).").
    + rewrite !elem_of_app. right. by apply list_elem_of_singleton.
    + apply contains_refl.
  - rewrite <- !app_assoc. reflexivity.
Qed.

Lemma collision_error_names_every_file_witness :
  exists message,
    generate_from_prompt (sample_runtime always_succeeds) (sample_arguments "out/" 2)
      [1; 2] (world_with "out/imggen_001.png")
    = (Raise (Exn "ValueError" message), world_with "out/imggen_001.png")
    /\ contains "  - imggen_001.png" message = true.
Proof.
  destruct (collision_error_names_every_file (sample_runtime always_succeeds)
              (sample_arguments "out/" 2) [1; 2] (world_with "out/imggen_001.png") 1)
    as (message & H1 & H2 & _); [simpl; lia | vm_compute; reflexivity |].
  exists message. split; [exact H1 | exact H2].
Defined.

(** ** The sidecar path *)

Lemma has_dot_app b e : has_dot (b +:+ "." +:+ e) = true.
Proof.
  induction b as [|c b IH]; [done|].
  change (String c b +:+ "." +:+ e) with (String c (b +:+ "." +:+ e)).
  cbn [has_dot]. rewrite IH. apply orb_true_r.
Qed.

Lemma rsplit_dot_head_app b e :
  has_dot e = false -> rsplit_dot_head (b +:+ "." +:+ e) = b.
Proof.
  intros He. induction b as [|c b IH].
  - change ("" +:+ "." +:+ e) with (String "."%char e).
    cbn [rsplit_dot_head]. by rewrite He.
  - change (String c b +:+ "." +:+ e) with (String c (b +:+ "." +:+ e)).
    cbn [rsplit_dot_head]. by rewrite has_dot_app, IH.
Qed.

Lemma rsplit_dot_head_no_dot s : has_dot s = false -> rsplit_dot_head s = s.
Proof.
  destruct s as [|c s]; [done|]. cbn [has_dot rsplit_dot_head].
  intros H. apply orb_false_iff in H as [Hc Hs]. by rewrite Hs, Hc.
Qed.

(** The sidecar of an image [base.ext] is [base.json] in the same
    directory, whatever dots [base] has; only the part after the last
    dot is replaced. *)
Theorem sidecar_replaces_last_extension dir base ext :
  has_dot ext = false ->
  json_path_of dir (base +:+ "." +:+ ext) = os_path_join dir (base +:+ ".json").
Proof. intros He. unfold json_path_of. by rewrite rsplit_dot_head_app. Qed.

Lemma sidecar_replaces_last_extension_witness :
  json_path_of "out" ("photo.v2" +:+ "." +:+ "png") = "out/photo.v2.json".
Proof. exact (sidecar_replaces_last_extension "out" "photo.v2" "png" eq_refl). Defined.

(** A file name without a dot keeps all of its name: the sidecar is the
    name with [.json] appended. *)
Theorem sidecar_of_name_without_extension dir name :
  has_dot name = false ->
  json_path_of dir name = os_path_join dir (name +:+ ".json").
Proof. intros Hn. unfold json_path_of. by rewrite rsplit_dot_head_no_dot. Qed.

Lemma sidecar_of_name_without_extension_witness :
  json_path_of "out" "README" = "out/README.json".
Proof. exact (sidecar_of_name_without_extension "out" "README" eq_refl). Defined.

(** ** What a run leaves alone *)

Lemma display_loop_world rt p a dir results slots t w :
  exists k,
    (display_loop rt p a dir results slots t w).2 =
    World (foldl (slot_write p a dir results) (fs w) (take k slots))
      (trace w ++ concat (slot_events p a dir results <$> take k slots)).
Proof.
  revert t w. induction slots as [|i rest IH]; intros t w.
  - exists 0%nat. cbn [display_loop snd take foldl]. rewrite fmap_nil.
    cbn [concat]. rewrite app_nil_r. by destruct w.
  - destruct (decide (classify results i = NoStatus)) as [Hn|Hn].
    + exists 0%nat. rewrite display_loop_no_status by done.
      cbn [snd take foldl]. rewrite fmap_nil. cbn [concat].
      rewrite app_nil_r. by destruct w.
    + rewrite display_loop_cons by done.
      match goal with |- context [display_loop _ _ _ _ _ rest ?t1 ?w1] =>
        destruct (IH t1 w1) as [k Hk] end.
      exists (S k). rewrite Hk. cbn [take foldl fs trace]. rewrite fmap_cons.
      cbn [concat]. by rewrite <- app_assoc.
Qed.



Lemma print_configuration_spec rt p a dir pname est w :
  print_configuration rt p a dir pname est w =
  World (fs w) (trace w ++ (EvPrint <$> configuration_lines rt p a dir pname est)).
Proof.
  unfold print_configuration, configuration_lines, print_if.
  destruct (str_truthy (quality a)); destruct (str_truthy (resolution a));
    destruct (str_truthy (aspect_ratio a)); destruct (str_truthy (input_fidelity a));
    destruct (bool_decide (reference_images a ≠ []));
    unfold print, emit; cbn [fs trace]; f_equal;
    rewrite <- ?app_assoc; reflexivity.
Qed.




(** ** The dry run *)

(** A dry run over a directory without collision resolves the provider,
    shows the configuration with the estimate [cost_per_image *
    variations] and the hint, and returns: no task is submitted, no
    result is read, no sidecar is written and the file system is as it
    was. *)
Theorem dry_run_makes_no_call rt a completion w pname p :
  dry_run a = true ->
  (check_file_collisions (fs w) (rstrip_sep (output_dir a)) (variations a)).1 = false ->
  resolve_provider rt a = Ok (pname, p) ->
  exists cost_per_image,
    get_image_cost (Some pname) (resolution a) (quality a) = Ok cost_per_image
    /\ generate_from_prompt rt a completion w =
       (Ok tt,
        World (fs w)
          (trace w ++
           (EvPrint <$>
              configuration_lines rt p a (rstrip_sep (output_dir a)) pname
                (PrimFloat.mul cost_per_image (SF2Prim (binary_normalize prec emax (variations a) 0 false)))
              ++ [""; "Run without --dry-run to generate images."])))
    /\ submitted_filenames (trace (generate_from_prompt rt a completion w).2)
       = submitted_filenames (trace w)
    /\ collected_slots (trace (generate_from_prompt rt a completion w).2)
       = collected_slots (trace w)
    /\ written_sidecars (trace (generate_from_prompt rt a completion w).2)
       = written_sidecars (trace w)
    /\ (main_generate rt a completion w).1 = 0.
Proof.
  intros Hdry Hcol Hres.
  assert (Hc : exists c, get_image_cost (Some pname) (resolution a) (quality a) = Ok c).
  { unfold get_image_cost.
    destruct (String.eqb (str_or (Some pname) DEFAULT_PROVIDER) "google"); [by eexists|].
    destruct (String.eqb (str_or (Some pname) DEFAULT_PROVIDER) "openai"); by eexists. }
  destruct Hc as [c Hc]. exists c. split; [done|].
  assert (Hg : generate_from_prompt rt a completion w =
       (Ok tt,
        World (fs w)
          (trace w ++
           (EvPrint <$>
              configuration_lines rt p a (rstrip_sep (output_dir a)) pname
                (cost_times c (variations a))
              ++ [""; "Run without --dry-run to generate images."])))).
  { unfold generate_from_prompt.
    destruct (check_file_collisions _ _ _) as [b cols]. cbn [fst] in Hcol. subst b.
    rewrite Hres. unfold calculate_image_cost. rewrite Hc, Hdry.
    rewrite print_configuration_spec. unfold print, emit. cbn [fs trace].
    rewrite fmap_app, <- !app_assoc. reflexivity. }
  split; [done|]. unfold main_generate. rewrite Hg. cbn [fst snd trace].
  assert (Hs : forall lines, submitted_filenames (EvPrint <$> lines) = []).
  { induction lines as [|l r IH]; [done|]. rewrite fmap_cons. exact IH. }
  assert (Hk : forall lines, collected_slots (EvPrint <$> lines) = []).
  { induction lines as [|l r IH]; [done|]. rewrite fmap_cons. exact IH. }
  assert (Hw : forall lines, written_sidecars (EvPrint <$> lines) = []).
  { induction lines as [|l r IH]; [done|]. rewrite fmap_cons. exact IH. }
  rewrite submitted_filenames_app, written_sidecars_app, Hs, Hw.
  unfold collected_slots. rewrite omap_app. fold (collected_slots (trace w)).
  fold (collected_slots (EvPrint <$>
          configuration_lines rt p a (rstrip_sep (output_dir a)) pname
            (cost_times c (variations a))
          ++ [""; "Run without --dry-run to generate images."])).
  rewrite Hk, !app_nil_r. done.
Qed.

Lemma dry_run_makes_no_call_witness :
  submitted_filenames
    (trace (generate_from_prompt (sample_runtime always_succeeds)
              (Args "a cat" [] "out" 3 "openai" "sk-test" None (Some "high") None
                 None None true)
              [1; 2; 3] empty_world).2) = [].
Proof.
  destruct (dry_run_makes_no_call (sample_runtime always_succeeds)
              (Args "a cat" [] "out" 3 "openai" "sk-test" None (Some "high") None
                 None None true)
              [1; 2; 3] empty_world "openai" (sample_provider always_succeeds)
              eq_refl eq_refl eq_refl)
    as (c & _ & _ & Hs & _).
  exact Hs.
Defined.

(** ** Provider resolution *)

(** When the provider cannot be resolved (unknown name, inference or key
    lookup failing), the run raises before it prints or submits
    anything, and [main] reports the error and exits with status 1.  The
    collision check comes first: a collision is the error reported even
    then. *)
Theorem provider_error_aborts_before_output rt a completion w e :
  resolve_provider rt a = Raise e ->
  exists e',
    generate_from_prompt rt a completion w = (Raise e', w)
    /\ ((check_file_collisions (fs w) (rstrip_sep (output_dir a)) (variations a)).1
        = false -> e' = e)
    /\ ((check_file_collisions (fs w) (rstrip_sep (output_dir a)) (variations a)).1
        = true -> exn_class e' = "ValueError"
                  /\ String.prefix "Error: File collision detected" (exn_str e') = true)
    /\ main_generate rt a completion w = (1, print ("Error: " +:+ exn_str e') w).
Proof.
  intros Hres. unfold main_generate, generate_from_prompt.
  destruct (check_file_collisions _ _ _) as [[|] cols]; cbn [fst].
  - eexists. split; [reflexivity|]. split; [done|]. split; [|done].
    intros _. split; [done|]. unfold format_collision_error. cbn zeta.
    rewrite <- !app_assoc. reflexivity.
  - rewrite Hres. exists e. done.
Qed.

Lemma provider_error_aborts_before_output_witness :
  (main_generate
     (Runtime (fun _ => Ok "openai") (fun _ => Ok "k")
        (fun n _ => Raise (Exn "ValueError" ("Unknown provider: " +:+ n)))
        (fun s => s) (fun _ => "?") (fun _ => "?"))
     (sample_arguments "out" 2) [1; 2] empty_world)
  = (1, print "Error: Unknown provider: openai" empty_world).
Proof.
  destruct (provider_error_aborts_before_output
              (Runtime (fun _ => Ok "openai") (fun _ => Ok "k")
                 (fun n _ => Raise (Exn "ValueError" ("Unknown provider: " +:+ n)))
                 (fun s => s) (fun _ => "?") (fun _ => "?"))
              (sample_arguments "out" 2) [1; 2] empty_world
              (Exn "ValueError" "Unknown provider: openai") eq_refl)
    as (e' & Hg & He & _ & Hm).
  rewrite Hm. rewrite (He eq_refl). reflexivity.
Defined.

Lemma submit_loop_same p a1 a2 dir slots futures w :
  (forall i, slot_request a1 dir i = slot_request a2 dir i) ->
  submit_loop p a1 dir slots futures w = submit_loop p a2 dir slots futures w.
Proof.
  intros Hreq. revert futures w. induction slots as [|i rest IH]; intros futures w; [done|].
  cbn [submit_loop]. by rewrite Hreq, IH.
Qed.

Lemma display_loop_same rt p a1 a2 dir results slots t w :
  variations a1 = variations a2 -> prompt a1 = prompt a2 ->
  display_loop rt p a1 dir results slots t w
  = display_loop rt p a2 dir results slots t w.
Proof.
  intros Hv Hp. revert t w. induction slots as [|i rest IH]; intros t w; [done|].
  cbn [display_loop]. destruct (results !! i) as [[f r]|]; [|apply IH].
  destruct (r !! "status") as [status|]; [|done].
  rewrite Hv, Hp. destruct (negb (ne_str status "success")); apply IH.
Qed.

(** When a model is named, the provider name and the API key passed in
    play no part: the provider is inferred from the model and the key is
    looked up for it, so two calls that differ only in those two
    arguments behave alike. *)
Theorem model_overrides_provider_arguments rt a1 a2 completion w :
  same_but_provider a1 a2 ->
  str_truthy (model a1) = true ->
  generate_from_prompt rt a1 completion w = generate_from_prompt rt a2 completion w.
Proof.
  intros (Hp & Hr & Ho & Hv & Has & Hq & Hres & Hm & Hi & Hd) Hmodel.
  assert (Hrp : resolve_provider rt a1 = resolve_provider rt a2).
  { unfold resolve_provider. rewrite <- Hm, Hmodel. reflexivity. }
  assert (Hreq : forall dir i, slot_request a1 dir i = slot_request a2 dir i).
  { intros dir i. unfold slot_request. by rewrite Hp, Has, Hres, Hq, Hr, Hm, Hi. }
  unfold generate_from_prompt. rewrite <- Ho, <- Hv, <- Hrp, <- Hq, <- Hres, <- Hd.
  destruct (check_file_collisions _ _ _) as [[|] cols]; [done|].
  destruct (resolve_provider rt a1) as [[pname p]|e]; [|done].
  destruct (calculate_image_cost _ _ _) as [c|e]; [|done].
  assert (Hcfg : forall est w0,
            print_configuration rt p a1 (rstrip_sep (output_dir a1)) pname est w0
            = print_configuration rt p a2 (rstrip_sep (output_dir a1)) pname est w0).
  { intros est w0. rewrite !print_configuration_spec. unfold configuration_lines.
    by rewrite Hp, Hv, Hq, Hres, Has, Hi, Hr. }
  rewrite Hcfg. destruct (dry_run a1); [done|].
  unfold run_batch. rewrite <- Hv.
  destruct (Z.min 4 (variations a1) <=? 0); [done|].
  rewrite (submit_loop_same p a1 a2) by apply Hreq.
  destruct (submit_loop p a2 _ _ _ _) as [futures w1].
  destruct (collect_loop futures completion ∅ w1) as [[results rl] w2].
  by rewrite (display_loop_same rt p a1 a2).
Qed.

Lemma model_overrides_provider_arguments_witness :
  generate_from_prompt (sample_runtime always_succeeds)
    (Args "a cat" [] "out" 1 "google" "key-1" None None None
       (Some "gpt-image-1.5") None false) [1] empty_world
  = generate_from_prompt (sample_runtime always_succeeds)
      (Args "a cat" [] "out" 1 "openai" "key-2" None None None
         (Some "gpt-image-1.5") None false) [1] empty_world.
Proof.
  apply model_overrides_provider_arguments; [|reflexivity].
  repeat split.
Defined.

(** ** A batch that runs to its end *)

Lemma results_of_collected_all p a dir slots completion :
  (forall i, i ∈ slots -> is_rate_limited (slot_result p a dir i) = false) ->
  (forall i, i ∈ slots -> i ∈ completion) ->
  results_of p a dir (collected (results_of p a dir slots) completion)
  = results_of p a dir slots
  /\ short_circuited (results_of p a dir slots) completion = false.
Proof.
  intros Hnrl Hall.
  destruct (collected_all (results_of p a dir slots) completion) as [Hc Hs].
  { intros j f r Hj. rewrite results_of_lookup in Hj.
    destruct (decide (j ∈ slots)); [|done]. inversion Hj; subst. by apply Hnrl. }
  split; [|done]. apply map_eq. intros i. rewrite !results_of_lookup, Hc.
  destruct (decide (i ∈ slots)) as [Hi|Hi].
  - rewrite decide_True; [done|]. apply list_elem_of_filter.
    split; [|by apply Hall]. rewrite results_of_lookup.
    rewrite decide_True by done. by eexists.
  - rewrite decide_False; [done|]. intros Hin.
    apply list_elem_of_filter in Hin as [[x Hx] _].
    rewrite results_of_lookup in Hx. by rewrite decide_False in Hx.
Qed.

Lemma length_slot_errors rt results slots :
  Z.of_nat (length (concat (slot_errors rt results <$> slots)))
  = count_outcome Failed results slots.
Proof.
  induction slots as [|i rest IH]; [done|].
  rewrite fmap_cons, count_outcome_cons. cbn [concat].
  rewrite length_app, Nat2Z.inj_add, IH. f_equal.
  unfold slot_errors, classify.
  destruct (results !! i) as [[f r]|]; [|done].
  destruct (r !! "status") as [status|]; [|done].
  by destruct (negb (ne_str status "success")).
Qed.

Lemma length_written_sidecars p a dir results slots :
  Z.of_nat (length (written_sidecars (concat (slot_events p a dir results <$> slots))))
  = count_outcome Succeeded results slots.
Proof.
  unfold count_outcome. rewrite <- (written_sidecars_slot_events p a dir).
  by rewrite length_fmap.
Qed.

Lemma length_py_range n : 0 <= n -> Z.of_nat (length (py_range 1 (n + 1))) = n.
Proof. intros Hn. unfold py_range. rewrite length_seqZ. lia. Qed.

Lemma run_batch_complete rt p a dir cost completion w :
  let slots := py_range 1 (variations a + 1) in
  let results := results_of p a dir slots in
  0 < variations a ->
  (forall i, i ∈ slots -> i ∈ completion) ->
  (forall i, i ∈ slots -> is_rate_limited (slot_result p a dir i) = false) ->
  (forall i, i ∈ slots ->
     classify results i = Succeeded \/ classify results i = Failed) ->
  run_batch rt p a dir cost completion w =
    (Ok tt,
     World (foldl (slot_write p a dir results) (fs w) slots)
       (trace w ++ batch_prefix p a dir completion
          ++ concat (slot_events p a dir results <$> slots)
          ++ (EvPrint <$> summary_lines rt dir cost (tally_of rt results slots)))).
Proof.
  intros slots results Hpos Hall Hnrl Hcls.
  destruct (results_of_collected_all p a dir slots completion Hnrl Hall) as [Hres Hsc].
  rewrite run_batch_total; fold slots; rewrite ?Hres; fold results; [done|done|].
  intros i Hi. destruct (Hcls i Hi) as [-> | ->]; done.
Qed.

(** When every slot completes, none is rate limited and every result has
    a status, the batch returns and accounts for every slot: each slot
    gets its line, successes and failures add up to [variations], there
    is one sidecar per success and one error line per failure. *)
Theorem complete_batch_accounts_for_every_slot rt p a dir cost completion w :
  let slots := py_range 1 (variations a + 1) in
  let results := results_of p a dir slots in
  let t := tally_of rt results slots in
  0 < variations a ->
  (forall i, i ∈ slots -> i ∈ completion) ->
  (forall i, i ∈ slots -> is_rate_limited (slot_result p a dir i) = false) ->
  (forall i, i ∈ slots -> is_Some (slot_result p a dir i !! "status")) ->
  run_batch rt p a dir cost completion w =
    (Ok tt,
     World (foldl (slot_write p a dir results) (fs w) slots)
       (trace w ++ batch_prefix p a dir completion
          ++ concat (slot_events p a dir results <$> slots)
          ++ (EvPrint <$> summary_lines rt dir cost t)))
  /\ successful t + failed t = variations a
  /\ Z.of_nat (length (errors t)) = failed t
  /\ Z.of_nat (length (written_sidecars
                        (concat (slot_events p a dir results <$> slots))))
     = successful t
  /\ (forall i, i ∈ slots -> exists line,
        EvPrint line ∈ slot_events p a dir results i
        /\ String.prefix ("  [" +:+ format_d i +:+ "/" +:+ format_d (variations a) +:+ "]")
             line = true)
  /\ EvShutdown ∉ batch_prefix p a dir completion.
Proof.
  intros slots results t Hpos Hall Hnrl Hst.
  destruct (results_of_collected_all p a dir slots completion Hnrl Hall) as [Hres Hsc].
  assert (Hcls : forall i, i ∈ slots ->
            classify results i = Succeeded \/ classify results i = Failed).
  { intros i Hi. unfold results. rewrite classify_results_of.
    rewrite decide_True by done. destruct (Hst i Hi) as [s ->].
    destruct (negb (ne_str s "success")); auto. }
  split; [|split; [|split; [|split; [|split]]]].
  - by apply run_batch_complete.
  - unfold t, tally_of. cbn [successful failed].
    rewrite count_outcome_partition by done. by apply length_py_range; lia.
  - unfold t, tally_of. cbn [errors failed]. apply length_slot_errors.
  - unfold t, tally_of. cbn [successful]. apply length_written_sidecars.
  - intros i Hi. unfold slot_events, results. rewrite results_of_lookup.
    rewrite decide_True by done. fold results.
    destruct (Hcls i Hi) as [-> | ->]; eexists; (split; [left|]);
      unfold slot_line; do 4 apply prefix_cancel; by apply prefix_app_l.
  - unfold batch_prefix. fold slots. rewrite Hsc, app_nil_r.
    rewrite !elem_of_app, elem_of_cons, elem_of_nil, !list_elem_of_fmap.
    intros [[?|[]]|[(i & ? & _)|(i & ? & _)]]; discriminate.
Qed.

Lemma complete_batch_accounts_for_every_slot_witness :
  (run_batch (sample_runtime fails_on_4) (sample_provider fails_on_4)
     (sample_arguments "out" 4) "out" 0.009%float [3; 1; 4; 2] empty_world).1 = Ok tt
  /\ successful
       (tally_of (sample_runtime fails_on_4)
          (results_of (sample_provider fails_on_4) (sample_arguments "out" 4) "out"
             (py_range 1 5)) (py_range 1 5))
     + failed
         (tally_of (sample_runtime fails_on_4)
            (results_of (sample_provider fails_on_4) (sample_arguments "out" 4) "out"
               (py_range 1 5)) (py_range 1 5)) = 4.
Proof.
  destruct (complete_batch_accounts_for_every_slot (sample_runtime fails_on_4)
              (sample_provider fails_on_4) (sample_arguments "out" 4) "out"
              0.009%float [3; 1; 4; 2] empty_world) as (Hrun & Hsum & _).
  - simpl. lia.
  - intros i Hi. apply elem_of_py_range in Hi. simpl in Hi.
    assert (i = 1 \/ i = 2 \/ i = 3 \/ i = 4) as [->|[->|[->| ->]]] by lia;
      rewrite !elem_of_cons; auto.
  - intros i Hi. apply elem_of_py_range in Hi. simpl in Hi.
    assert (i = 1 \/ i = 2 \/ i = 3 \/ i = 4) as [->|[->|[->| ->]]] by lia;
      reflexivity.
  - intros i Hi. apply elem_of_py_range in Hi. simpl in Hi.
    assert (i = 1 \/ i = 2 \/ i = 3 \/ i = 4) as [->|[->|[->| ->]]] by lia;
      vm_compute; eauto.
  - split; [by rewrite Hrun | exact Hsum].
Defined.

Lemma count_outcome_none o results slots :
  (forall i, i ∈ slots -> classify results i <> o) ->
  count_outcome o results slots = 0.
Proof.
  induction slots as [|i rest IH]; intros H; [done|].
  rewrite count_outcome_cons, IH by (intros j Hj; apply H; by right).
  by rewrite decide_False by (apply H; left).
Qed.

(** When every slot completes with a success, the actual cost shown at
    the end is the very estimate shown at the start, [cost_per_image *
    variations]; the summary reads [variations/variations] and has no
    failure section, and there is one sidecar per slot. *)
Theorem all_successes_cost_the_estimate rt a completion w pname p :
  let dir := rstrip_sep (output_dir a) in
  let slots := py_range 1 (variations a + 1) in
  dry_run a = false ->
  (check_file_collisions (fs w) dir (variations a)).1 = false ->
  resolve_provider rt a = Ok (pname, p) ->
  0 < variations a ->
  (forall i, i ∈ slots -> i ∈ completion) ->
  (forall i, i ∈ slots -> exists result,
     generate_image p (slot_request a dir i) = Returned result
     /\ result !! "status" = Some (VStr "success")
     /\ truthy (result_get result "rate_limited") = false) ->
  exists cost_per_image middle,
    get_image_cost (Some pname) (resolution a) (quality a) = Ok cost_per_image
    /\ (generate_from_prompt rt a completion w).1 = Ok tt
    /\ stdout (trace (generate_from_prompt rt a completion w).2) =
       stdout (trace w)
       ++ configuration_lines rt p a dir pname
            (PrimFloat.mul cost_per_image (SF2Prim (binary_normalize prec emax (variations a) 0 false)))
       ++ middle
       ++ ["  Successful: " +:+ format_d (variations a) +:+ "/"
             +:+ format_d (variations a);
           "";
           "Actual cost: $" +:+
             format_2f rt (PrimFloat.mul cost_per_image (SF2Prim (binary_normalize prec emax (variations a) 0 false)));
           "Output directory: " +:+ dir]
    /\ Z.of_nat (length (written_sidecars
                           (drop (length (trace w))
                              (trace (generate_from_prompt rt a completion w).2))))
       = variations a.
Proof.
  intros dir slots Hdry Hcol Hres Hpos Hall Hok.
  assert (Hc : exists c, get_image_cost (Some pname) (resolution a) (quality a) = Ok c).
  { unfold get_image_cost.
    destruct (String.eqb (str_or (Some pname) DEFAULT_PROVIDER) "google"); [by eexists|].
    destruct (String.eqb (str_or (Some pname) DEFAULT_PROVIDER) "openai"); by eexists. }
  destruct Hc as [c Hc].
  set (results := results_of p a dir slots).
  assert (Hsr : forall i, i ∈ slots -> exists result,
            slot_result p a dir i = result
            /\ result !! "status" = Some (VStr "success")
            /\ is_rate_limited result = false).
  { intros i Hi. destruct (Hok i Hi) as (r & Hg & Hs & Hr). exists r.
    unfold slot_result, generate_single_image. by rewrite Hg. }
  assert (Hcls : forall i, i ∈ slots -> classify results i = Succeeded).
  { intros i Hi. unfold results. rewrite classify_results_of, decide_True by done.
    destruct (Hsr i Hi) as (r & -> & -> & _). reflexivity. }
  assert (Hnrl : forall i, i ∈ slots -> is_rate_limited (slot_result p a dir i) = false).
  { intros i Hi. by destruct (Hsr i Hi) as (r & -> & _ & Hr). }
  assert (Hfail : count_outcome Failed results slots = 0).
  { apply count_outcome_none. intros i Hi. by rewrite Hcls. }
  assert (Hsucc : count_outcome Succeeded results slots = variations a).
  { rewrite <- (length_py_range (variations a)) by lia. fold slots.
    rewrite <- (count_outcome_partition results slots), Hfail by (intros; left; auto).
    lia. }
  assert (Hg : generate_from_prompt rt a completion w =
    (Ok tt,
     World (foldl (slot_write p a dir results) (fs w) slots)
       ((trace w ++ (EvPrint <$> configuration_lines rt p a dir pname
                                   (cost_times c (variations a))))
          ++ batch_prefix p a dir completion
          ++ concat (slot_events p a dir results <$> slots)
          ++ (EvPrint <$> summary_lines rt dir c (tally_of rt results slots))))).
  { unfold generate_from_prompt. fold dir.
    destruct (check_file_collisions _ _ _) as [b cols]. cbn [fst] in Hcol. subst b.
    rewrite Hres. unfold calculate_image_cost. rewrite Hc, Hdry.
    rewrite run_batch_complete; fold slots; fold results;
      [|done|done|done|intros; left; auto].
    by rewrite print_configuration_spec. }
  exists c,
    (stdout (batch_prefix p a dir completion)
     ++ stdout (concat (slot_events p a dir results <$> slots))
     ++ [""; str_repeat "=" 50; "Generation complete!"]).
  split; [done|]. rewrite Hg. cbn [fst snd trace].
  split; [done|]. split.
  - rewrite !stdout_app, !stdout_prints.
    unfold summary_lines, tally_of. cbn [successful failed errors].
    rewrite Hfail, Hsucc, Z.add_0_r.
    change (0 <? 0) with false. cbv iota.
    rewrite app_nil_l, <- !app_assoc. reflexivity.
  - rewrite <- !app_assoc, drop_app_length, !written_sidecars_app.
    assert (Hw : forall lines, written_sidecars (EvPrint <$> lines) = []).
    { induction lines as [|l r IH]; [done|]. rewrite fmap_cons. exact IH. }
    rewrite !Hw, app_nil_l, app_nil_r.
    assert (Hb : written_sidecars (batch_prefix p a dir completion) = []).
    { unfold batch_prefix. rewrite !written_sidecars_app.
      assert (forall l, written_sidecars ((fun i => EvSubmit i (slot_filename i)) <$> l) = []) as Hs
        by (induction l as [|x l IH]; [done|]; rewrite fmap_cons; exact IH).
      assert (forall l, written_sidecars (EvCollect <$> l) = []) as Hk
        by (induction l as [|x l IH]; [done|]; rewrite fmap_cons; exact IH).
      rewrite Hs, Hk. by destruct (short_circuited _ _). }
    rewrite Hb, app_nil_l, length_written_sidecars. exact Hsucc.
Qed.

Lemma all_successes_cost_the_estimate_witness :
  exists cost_per_image middle,
    get_image_cost (Some "openai") None None = Ok cost_per_image
    /\ stdout (trace (generate_from_prompt (sample_runtime always_succeeds)
                        (sample_arguments "out" 2) [2; 1] empty_world).2) =
       configuration_lines (sample_runtime always_succeeds)
         (sample_provider always_succeeds) (sample_arguments "out" 2) "out" "openai"
         (PrimFloat.mul cost_per_image (SF2Prim (binary_normalize prec emax 2 0 false)))
       ++ middle
       ++ ["  Successful: 2/2"; "";
           "Actual cost: $" +:+
             format_2f (sample_runtime always_succeeds) (PrimFloat.mul cost_per_image (SF2Prim (binary_normalize prec emax 2 0 false)));
           "Output directory: out"].
Proof.
  destruct (all_successes_cost_the_estimate (sample_runtime always_succeeds)
              (sample_arguments "out" 2) [2; 1] empty_world "openai"
              (sample_provider always_succeeds) eq_refl eq_refl eq_refl)
    as (c & middle & Hc & _ & Hout & _).
  - simpl. lia.
  - intros i Hi. apply elem_of_py_range in Hi. simpl in Hi.
    assert (i = 1 \/ i = 2) as [-> | ->] by lia; rewrite !elem_of_cons; auto.
  - intros i Hi. apply elem_of_py_range in Hi. simpl in Hi.
    assert (i = 1 \/ i = 2) as [-> | ->] by lia;
      eexists; (split; [reflexivity|]); split; reflexivity.
  - exists c, middle. split; [exact Hc | exact Hout].
Defined.

(** ** cli.py: validation and loading *)

Lemma str_truthy_spec o :
  str_truthy o = true <-> exists s, o = Some s /\ s <> "".
Proof.
  destruct o as [s|]; simpl.
  - rewrite negb_true_iff, String.eqb_neq. split; [by exists s | by intros (? & [= ->] & ?)].
  - split; [done | by intros (? & ? & _)].
Qed.

Lemma given_but_not_in_false o whitelist :
  given_but_not_in o whitelist = false <->
  (forall s, o = Some s -> s <> "" -> s ∈ whitelist).
Proof.
  unfold given_but_not_in. rewrite andb_false_iff, negb_false_iff, bool_decide_eq_true.
  split.
  - intros [H|H] s -> Hs.
    + simpl in H. apply negb_false_iff, String.eqb_eq in H. done.
    + done.
  - intros H. destruct (str_truthy o) eqn:E; [|by left].
    right. apply str_truthy_spec in E as (s & -> & Hs). by apply H.
Qed.

Lemma validate_arguments_iff args :
  validate_arguments args = Ok tt <->
  (forall s, ns_aspect_ratio args = Some s -> s <> "" -> s ∈ ASPECT_RATIO_WHITELIST)
  /\ (forall s, ns_quality args = Some s -> s <> "" -> s ∈ QUALITY_LEVELS)
  /\ (forall s, ns_resolution args = Some s -> s <> "" -> s ∈ RESOLUTION_WHITELIST)
  /\ 1 <= ns_variations args <= 4
  /\ str_truthy (ns_prompt args) <> str_truthy (ns_file args)
  /\ (ns_reference_images args = [] \/ str_truthy (ns_references args) = false)
  /\ (forall s, ns_input_fidelity args = Some (Some s) -> s <> "" ->
        s ∈ INPUT_FIDELITY_LEVELS).
Proof.
  unfold validate_arguments, value_error.
  rewrite <- !given_but_not_in_false.
  assert (Hf : (forall s, ns_input_fidelity args = Some (Some s) -> s <> "" ->
                  s ∈ INPUT_FIDELITY_LEVELS) <->
               match ns_input_fidelity args with
               | Some fidelity => given_but_not_in fidelity INPUT_FIDELITY_LEVELS
               | None => false
               end = false).
  { destruct (ns_input_fidelity args) as [fid|].
    - rewrite given_but_not_in_false. split.
      + intros H s -> Hs. by apply H.
      + intros H s [= ->] Hs. by apply H.
    - split; [done | by intros _ s [=]]. }
  rewrite Hf. clear Hf.
  destruct (given_but_not_in (ns_aspect_ratio args) _); [split; [done | by intros (? & _)]|].
  destruct (given_but_not_in (ns_quality args) _); [split; [done | by intros (_ & ? & _)]|].
  destruct (given_but_not_in (ns_resolution args) _);
    [split; [done | by intros (_ & _ & ? & _)]|].
  destruct (ns_variations args <? 1) eqn:E1;
    [apply Z.ltb_lt in E1; split; [done | intros (_ & _ & _ & ? & _); lia]|].
  destruct (4 <? ns_variations args) eqn:E2;
    [apply Z.ltb_lt in E2; split; [done | intros (_ & _ & _ & ? & _); lia]|].
  apply Z.ltb_ge in E1, E2. cbn [orb].
  destruct (str_truthy (ns_prompt args)), (str_truthy (ns_file args)); cbn [negb andb];
    try (split; [done | by intros (_ & _ & _ & _ & ? & _)]).
  - destruct (bool_decide (ns_reference_images args ≠ [])) eqn:Er;
      destruct (str_truthy (ns_references args)) eqn:Es; cbn [andb];
      try apply bool_decide_eq_true in Er; try apply bool_decide_eq_false in Er;
      [split; [done | intros (_ & _ & _ & _ & _ & [?|?] & _); done]| | |];
      (destruct (match ns_input_fidelity args with
                 | Some fidelity => given_but_not_in fidelity INPUT_FIDELITY_LEVELS
                 | None => false
                 end);
       [split; [done | by intros (_ & _ & _ & _ & _ & _ & ?)]|]);
      (split; [intros _|done]);
      repeat split; try done; try lia; auto;
      right + left; try done; by destruct (decide (ns_reference_images args = [])).
  - destruct (bool_decide (ns_reference_images args ≠ [])) eqn:Er;
      destruct (str_truthy (ns_references args)) eqn:Es; cbn [andb];
      try apply bool_decide_eq_true in Er; try apply bool_decide_eq_false in Er;
      [split; [done | intros (_ & _ & _ & _ & _ & [?|?] & _); done]| | |];
      (destruct (match ns_input_fidelity args with
                 | Some fidelity => given_but_not_in fidelity INPUT_FIDELITY_LEVELS
                 | None => false
                 end);
       [split; [done | by intros (_ & _ & _ & _ & _ & _ & ?)]|]);
      (split; [intros _|done]);
      repeat split; try done; try lia; auto;
      right + left; try done; by destruct (decide (ns_reference_images args = [])).
Qed.

(** [validate_arguments] accepts exactly the command lines in which every
    option that is given and not empty is in its whitelist, the number of
    variations is between 1 and 4, exactly one of the prompt and the
    prompt file is given, and reference images do not come both as
    arguments and from a file. *)
Theorem validate_arguments_accepts args :
  validate_arguments args = Ok tt <->
  (forall s, ns_aspect_ratio args = Some s -> s <> "" -> s ∈ ASPECT_RATIO_WHITELIST)
  /\ (forall s, ns_quality args = Some s -> s <> "" -> s ∈ QUALITY_LEVELS)
  /\ (forall s, ns_resolution args = Some s -> s <> "" -> s ∈ RESOLUTION_WHITELIST)
  /\ 1 <= ns_variations args <= 4
  /\ str_truthy (ns_prompt args) <> str_truthy (ns_file args)
  /\ (ns_reference_images args = [] \/ str_truthy (ns_references args) = false)
  /\ (forall s, ns_input_fidelity args = Some (Some s) -> s <> "" ->
        s ∈ INPUT_FIDELITY_LEVELS).
Proof. apply validate_arguments_iff. Qed.

(** A prompt that [load_prompt] returns is never empty: it is the inline
    text when one is given, and otherwise the stripped content of the
    prompt file, which is a text file that exists. *)
Theorem load_prompt_returns_nonempty strip files prompt_text prompt_file prompt :
  load_prompt strip files prompt_text prompt_file = Ok prompt ->
  prompt <> ""
  /\ ((prompt_text = Some prompt)
      \/ (str_truthy prompt_text = false
          /\ exists path text,
               prompt_file = Some path /\ path <> ""
               /\ files !! path = Some (TextFile text)
               /\ prompt = strip text)).
Proof.
  unfold load_prompt, value_error.
  destruct (str_truthy prompt_text) eqn:Et.
  - apply str_truthy_spec in Et as (s & -> & Hs). intros [= <-]. split; [done | by left].
  - destruct (str_truthy prompt_file) eqn:Ef; [|done].
    apply str_truthy_spec in Ef as (path & -> & Hp). cbn [opt_str].
    destruct (bool_decide (is_Some (files !! path))); [|done]. cbn [negb].
    unfold read_text. destruct (files !! path) as [[text|]|] eqn:E; try done.
    destruct (String.eqb (strip text) "") eqn:Es; [done|].
    apply String.eqb_neq in Es. intros [= <-]. split; [done|].
    right. split; [done|]. by exists path, text.
Qed.

Lemma load_prompt_returns_nonempty_witness :
  "a quiet harbour" <> "".
Proof.
  exact (proj1 (load_prompt_returns_nonempty strip_ascii
                  {["prompt.txt" := TextFile ("a quiet harbour" +:+ newline)]}
                  None (Some "prompt.txt") "a quiet harbour" eq_refl)).
Defined.

(** The reference paths [load_references] returns from a references file
    are at least one and none is empty; given as arguments they are
    returned as they are, whether or not they exist. *)
Theorem load_references_returns strip files reference_paths reference_file paths :
  load_references strip files reference_paths reference_file = Ok paths ->
  (str_truthy reference_file = true ->
     default [] reference_paths = []
     /\ paths <> []
     /\ Forall (fun p => p <> "") paths
     /\ exists path text,
          reference_file = Some path
          /\ files !! path = Some (TextFile text)
          /\ paths = strip <$> filter (fun line => strip line ≠ "") (file_lines text))
  /\ (str_truthy reference_file = false -> paths = default [] reference_paths).
Proof.
  unfold load_references, value_error.
  destruct (str_truthy reference_file) eqn:Ef.
  - destruct (bool_decide (default [] reference_paths ≠ [])) eqn:Er; [done|].
    apply bool_decide_eq_false in Er. cbn [andb].
    apply str_truthy_spec in Ef as (path & -> & Hp). cbn [opt_str].
    destruct (bool_decide (is_Some (files !! path))); [|done]. cbn [negb].
    unfold read_text. destruct (files !! path) as [[text|]|] eqn:E; try done.
    destruct (bool_decide (_ = [])) eqn:Ee; [done|].
    apply bool_decide_eq_false in Ee. intros [= <-]. split; [intros _|done].
    split; [by destruct (decide (default [] reference_paths = []))|].
    split; [done|]. split; [|by exists path, text].
    apply Forall_forall. intros p Hin.
    apply list_elem_of_fmap in Hin as (line & -> & Hin).
    by apply list_elem_of_filter in Hin as [Hne _].
  - rewrite andb_false_r. intros [= <-]. by split.
Qed.

Lemma load_references_returns_witness :
  Forall (fun p => p <> "") ["a.png"; "b.png"].
Proof.
  refine (proj1 (proj2 (proj2
    (proj1 (load_references_returns strip_ascii
              {["refs.txt" := TextFile ("a.png" +:+ newline +:+ "  " +:+ newline
                                          +:+ " b.png ")]}
              None (Some "refs.txt") ["a.png"; "b.png"] _) eq_refl)))).
  vm_compute. reflexivity.
Defined.

(** After [validate_arguments] has accepted a command line, the checks
    that [load_prompt] and [load_references] repeat cannot fail: neither
    the missing-prompt error nor the both-sources error is raised. *)
Theorem validated_sources_load strip files args :
  validate_arguments args = Ok tt ->
  load_prompt strip files (ns_prompt args) (ns_file args)
    <> value_error "Must provide either --prompt or --file"
  /\ load_references strip files (Some (ns_reference_images args)) (ns_references args)
    <> value_error "Cannot specify both positional reference images and --references file".
Proof.
  intros Hv. apply validate_arguments_iff in Hv as (_ & _ & _ & _ & Hsrc & Href & _).
  split.
  - unfold load_prompt, value_error.
    destruct (str_truthy (ns_prompt args)) eqn:Ep; [done|].
    destruct (str_truthy (ns_file args)) eqn:Ef; [|done].
    destruct (negb _); [done|].
    unfold read_text. destruct (files !! _) as [[text|]|]; try done.
    destruct (String.eqb _ _); done.
  - unfold load_references, value_error. cbn [default].
    destruct Href as [-> | ->].
    + cbn [andb]. rewrite bool_decide_false by (by intros ?). cbn [andb].
      destruct (str_truthy (ns_references args)); [|done].
      destruct (negb _); [done|].
      unfold read_text. destruct (files !! _) as [[text|]|]; try done.
      destruct (bool_decide _); done.
    + by rewrite andb_false_r.
Qed.

Lemma validated_sources_load_witness :
  load_prompt strip_ascii ∅ (Some "a cat") None
  <> value_error "Must provide either --prompt or --file".
Proof.
  exact (proj1 (validated_sources_load strip_ascii ∅
                  (Namespace (Some "a cat") None [] None "." 1 None None None None
                     (Some None) false) eq_refl)).
Defined.

Lemma display_loop_raise_inv rt p a dir results slots t w e w' :
  display_loop rt p a dir results slots t w = (Raise e, w') ->
  e = Exn "KeyError" "'status'".
Proof.
  revert t w. induction slots as [|i rest IH]; intros t w Hd; [done|].
  destruct (decide (classify results i = NoStatus)) as [Hn|Hn].
  - rewrite display_loop_no_status in Hd by done. by inversion Hd.
  - rewrite display_loop_cons in Hd by done. by eapply IH.
Qed.

(** For a command line that [validate_arguments] accepts, the batch that
    [main] starts has between one and four variations: its targets are
    the first of the four default names, and the thread pool is always
    created, so the batch runs to the replay. *)
Theorem validated_batch_starts args prompt_text references provider_name_value
    api_key_value :
  validate_arguments args = Ok tt ->
  let a := batch_arguments args prompt_text references provider_name_value
             api_key_value in
  1 <= variations a <= 4
  /\ target_filenames (variations a) =
     take (Z.to_nat (variations a))
       ["imggen_001.png"; "imggen_002.png"; "imggen_003.png"; "imggen_004.png"]
  /\ (forall rt p dir cost completion w,
        (run_batch rt p a dir cost completion w).1 = Ok tt
        \/ (run_batch rt p a dir cost completion w).1
           = Raise (Exn "KeyError" "'status'"))
  /\ (forall rt p dir cost completion w,
        submitted_filenames (trace (run_batch rt p a dir cost completion w).2)
        = submitted_filenames (trace w) ++ target_filenames (variations a)).
Proof.
  intros Hv a. apply validate_arguments_iff in Hv as (_ & _ & _ & Hn & _).
  change (variations a) with (ns_variations args).
  split; [done|]. split.
  - assert (ns_variations args = 1 \/ ns_variations args = 2
            \/ ns_variations args = 3 \/ ns_variations args = 4)
      as [->|[->|[->| ->]]] by lia; reflexivity.
  - assert (Hpos : 0 < variations a) by (change (variations a) with (ns_variations args); lia).
    split.
    + intros rt p dir cost completion w. rewrite run_batch_unfold by done.
      match goal with |- context [display_loop ?rt ?p ?a ?d ?r ?s ?t ?w1] =>
        destruct (display_loop rt p a d r s t w1) as [[t'|e] w2] eqn:Hd end.
      * by left.
      * right. cbn [fst]. f_equal. by eapply display_loop_raise_inv.
    + intros rt p dir cost completion w. rewrite run_batch_unfold by done.
      match goal with |- context [display_loop ?rt ?p ?a ?d ?r ?s ?t ?w1] =>
        destruct (display_loop_world rt p a d r s t w1) as [k Hk];
        destruct (display_loop rt p a d r s t w1) as [[t'|e] w2] end;
        cbn [snd] in *; subst w2; rewrite ?print_summary_spec; cbn [trace];
        unfold batch_prefix; rewrite !submitted_filenames_app;
        rewrite submitted_filenames_submits.
      all: assert (Hp : forall lines, submitted_filenames (EvPrint <$> lines) = [])
        by (induction lines as [|l r IH]; [done|]; rewrite fmap_cons; exact IH).
      all: assert (Hc : forall l, submitted_filenames (EvCollect <$> l) = [])
        by (induction l as [|x l IH]; [done|]; rewrite fmap_cons; exact IH).
      all: assert (Hse : forall res l,
             submitted_filenames (concat (slot_events p a dir res <$> l)) = []).
      1,3: (intros res l; induction l as [|x l IH]; [done|];
            rewrite fmap_cons; cbn [concat]; rewrite submitted_filenames_app, IH;
            unfold slot_events; destruct (res !! x) as [[f r]|]; [|done];
            by destruct (classify res x)).
      all: rewrite ?Hp, Hc, Hse.
      all: change (submitted_filenames [EvPrint ""]) with (@nil string).
      all: destruct (short_circuited _ _); cbn [app]; by rewrite ?app_nil_r.
Qed.

Lemma validated_batch_starts_witness :
  target_filenames 2 = ["imggen_001.png"; "imggen_002.png"].
Proof.
  exact (proj1 (proj2 (validated_batch_starts
                  (Namespace (Some "a cat") None [] None "out" 2 None None None None
                     (Some None) false) "a cat" [] "openai" "sk-test" eq_refl))).
Defined.

(** ** pricing.py: the total *)

Lemma total_cost_loop_same_default infer d1 d2 images total :
  (forall img, img ∈ images -> is_Some (img_model img)) ->
  total_cost_loop infer d1 images total = total_cost_loop infer d2 images total.
Proof.
  revert total. induction images as [|img rest IH]; intros total Hm; [done|].
  cbn [total_cost_loop].
  destruct (Hm img (list_elem_of_here _ _)) as [m ->].
  destruct (infer m) as [provider|e]; [|done].
  destruct (get_image_cost _ _ _) as [c|e]; [|done].
  apply IH. intros img' Hin. apply Hm. by right.
Qed.

(** The default provider only prices the images that name no model: when
    every image names one, the total is the same for every default.  A
    default that is missing or empty is [openai]. *)
Theorem total_cost_default_provider infer images default1 default2 :
  (forall img, img ∈ images -> is_Some (img_model img)) ->
  calculate_total_cost infer images default1
  = calculate_total_cost infer images default2.
Proof. intros Hm. unfold calculate_total_cost. by apply total_cost_loop_same_default. Qed.

Lemma total_cost_default_provider_witness :
  calculate_total_cost (fun _ => Ok "google")
    [ImageConfig (Some "gemini-3-pro-image-preview") (Some "4K") None (Some 2)]
    (Some "openai")
  = calculate_total_cost (fun _ => Ok "google")
      [ImageConfig (Some "gemini-3-pro-image-preview") (Some "4K") None (Some 2)]
      None.
Proof.
  apply total_cost_default_provider.
  intros img Hin. apply list_elem_of_singleton in Hin as ->. by eexists.
Defined.

(** An image configuration without a [variations] key counts as four
    variations. *)
Theorem total_cost_default_variations infer images default_provider :
  calculate_total_cost infer
    ((fun img => ImageConfig (img_model img) (img_resolution img) (img_quality img)
                   (Some (default 4 (img_variations img)))) <$> images)
    default_provider
  = calculate_total_cost infer images default_provider.
Proof.
  unfold calculate_total_cost. generalize 0%float.
  generalize (str_or default_provider DEFAULT_PROVIDER). intros d.
  induction images as [|img rest IH]; intros total; [done|].
  rewrite fmap_cons. cbn [total_cost_loop img_model img_resolution img_quality
                            img_variations default].
  destruct (match img_model img with Some m => infer m | None => Ok d end)
    as [provider|e]; [|done].
  destruct (get_image_cost _ _ _) as [c|e]; [|done]. apply IH.
Qed.

(** ** providers/openai_provider.py *)

(** At 1024x1024 the cost the adapter reports for an image is the price
    the estimate uses, for each of the three quality levels. *)
Theorem openai_square_cost_is_the_estimate quality :
  quality ∈ QUALITY_LEVELS ->
  get_image_cost (Some "openai") None (Some quality)
  = Ok (calculate_openai_image_cost quality "1024x1024")
  /\ calculate_openai_image_cost quality (openai_image_size None)
     = calculate_openai_image_cost quality "1024x1024"
  /\ calculate_openai_image_cost quality (openai_image_size (Some "1:1"))
     = calculate_openai_image_cost quality "1024x1024".
Proof.
  unfold QUALITY_LEVELS. rewrite !elem_of_cons, elem_of_nil.
  intros [->|[->|[->|[]]]]; repeat split; reflexivity.
Qed.

Lemma openai_square_cost_is_the_estimate_witness :
  get_image_cost (Some "openai") None (Some "medium")
  = Ok (calculate_openai_image_cost "medium" "1024x1024").
Proof.
  refine (proj1 (openai_square_cost_is_the_estimate "medium" _)).
  unfold QUALITY_LEVELS. rewrite !elem_of_cons. auto.
Defined.

Lemma pair_lookup_size quality size price table :
  pair_lookup quality size table = Some price ->
  exists q, (q, size, price) ∈ table.
Proof.
  induction table as [|[[q s] pr] rest IH]; [done|]. cbn [pair_lookup].
  destruct (String.eqb q quality && String.eqb s size) eqn:E.
  - apply andb_true_iff in E as [_ Es]. apply String.eqb_eq in Es as ->.
    intros [= ->]. exists q. left.
  - intros H. destruct (IH H) as [q' Hq']. exists q'. by right.
Qed.

(** For each of the four aspect ratios that are not square, the size the
    adapter asks for is not a size of its own cost table: the cost of an
    image of the requested size is 0.0 whatever the quality. *)
Theorem openai_wide_sizes_are_not_priced ratio quality :
  ratio ∈ ["16:9"; "9:16"; "4:3"; "3:4"] ->
  ratio ∈ ASPECT_RATIO_WHITELIST
  /\ openai_image_size (Some ratio) <> "1024x1024"
  /\ calculate_openai_image_cost quality (openai_image_size (Some ratio)) = 0%float.
Proof.
  intros Hr. rewrite !elem_of_cons, elem_of_nil in Hr.
  assert (Hnone : forall size,
            (forall q pr, (q, size, pr) ∉ OPENAI_IMAGE_PRICING) ->
            calculate_openai_image_cost quality size = 0%float).
  { intros size Hnot. unfold calculate_openai_image_cost.
    destruct (pair_lookup quality size OPENAI_IMAGE_PRICING) as [pr|] eqn:E; [|done].
    apply pair_lookup_size in E as [q Hq]. by apply Hnot in Hq. }
  unfold ASPECT_RATIO_WHITELIST.
  destruct Hr as [->|[->|[->|[->|[]]]]];
    (split; [rewrite !elem_of_cons; auto 10|]); (split; [done|]);
    apply Hnone; intros q pr Hin; unfold OPENAI_IMAGE_PRICING in Hin;
    rewrite !elem_of_cons, elem_of_nil in Hin;
    repeat (destruct Hin as [Hin|Hin]; [discriminate|]); done.
Qed.

Lemma openai_wide_sizes_are_not_priced_witness :
  calculate_openai_image_cost "high" (openai_image_size (Some "16:9")) = 0%float.
Proof.
  refine (proj2 (proj2 (openai_wide_sizes_are_not_priced "16:9" "high" _))).
  rewrite !elem_of_cons. auto.
Defined.

Lemma openai_calls_app e1 e2 : openai_calls (e1 ++ e2) = openai_calls e1 ++ openai_calls e2.
Proof. apply omap_app. Qed.

Lemma openai_opened_app e1 e2 :
  openai_opened (e1 ++ e2) = openai_opened e1 ++ openai_opened e2.
Proof. apply omap_app. Qed.

Lemma openai_closed_app e1 e2 :
  openai_closed (e1 ++ e2) = openai_closed e1 ++ openai_closed e2.
Proof. apply omap_app. Qed.

Lemma openai_slept_app e1 e2 :
  openai_slept (e1 ++ e2) = openai_slept e1 + openai_slept e2.
Proof.
  unfold openai_slept. rewrite omap_app.
  induction (omap _ e1) as [|x l IH]; [done|]. cbn [app foldr]. rewrite IH. lia.
Qed.

Lemma openai_opens_projections files :
  openai_opened (OaOpen <$> files) = files
  /\ openai_closed (OaOpen <$> files) = []
  /\ openai_calls (OaOpen <$> files) = []
  /\ openai_slept (OaOpen <$> files) = 0.
Proof.
  induction files as [|f r (H1 & H2 & H3 & H4)]; [done|].
  rewrite fmap_cons. repeat split; [|done|done|done].
  unfold openai_opened in *. cbn [omap list_omap]. by rewrite H1.
Qed.

Lemma openai_closes_projections files :
  openai_opened (OaClose <$> files) = []
  /\ openai_closed (OaClose <$> files) = files
  /\ openai_calls (OaClose <$> files) = []
  /\ openai_slept (OaClose <$> files) = 0.
Proof.
  induction files as [|f r (H1 & H2 & H3 & H4)]; [done|].
  rewrite fmap_cons. repeat split; [done| |done|done].
  unfold openai_closed in *. cbn [omap list_omap]. by rewrite H2.
Qed.

Lemma openai_handle_response_events world req full_prompt quality size response :
  ((openai_handle_response world req full_prompt quality size response).2 = []
   \/ (openai_handle_response world req full_prompt quality size response).2
      = [OaSave (os_path_join (req_output_dir req) (req_filename req))])
  /\ ((exists result,
         (openai_handle_response world req full_prompt quality size response).1
         = TryReturn result /\ result !! "rate_limited" = None)
      \/ exists text,
           (openai_handle_response world req full_prompt quality size response).1
           = TryException text).
Proof.
  unfold openai_handle_response.
  destruct (response_data response) as [|first rest].
  - split; [by left|]. left. eexists. split; [done|].
    unfold failed_with. by rewrite !lookup_insert_ne, lookup_empty.
  - destruct (save_image world _ _) as [text|]; [split; [by left | right; by eexists]|].
    destruct (created_isoformat world _) as [iso|e];
      [|split; [by right | right; by eexists]].
    split; [by right|]. left. eexists. split; [done|].
    by rewrite !lookup_insert_ne, lookup_empty.
Qed.

(** What one [try] block does: the reference files it opened are closed
    again, it makes at most one call, and an error of the service can
    only come out of a call. *)
Lemma openai_try_spec world req full_prompt quality size attempt :
  let r := openai_try world req full_prompt quality size attempt in
  openai_opened r.2 = openai_closed r.2
  /\ openai_slept r.2 = 0
  /\ (openai_calls r.2 = [attempt]
      \/ (openai_calls r.2 = []
          /\ r.1 <> TryRateLimitError /\ forall text, r.1 <> TryApiError text))
  /\ (forall result, r.1 = TryReturn result -> result !! "rate_limited" = None).
Proof.
  unfold openai_try.
  destruct (req_reference_images req) as [|ref refs] eqn:Erefs.
  - destruct (images_generate world attempt _) as [response| |text|filename text|text];
      cbn [fst snd]; try (repeat split; [by left | done]).
    destruct (openai_handle_response_events world req full_prompt quality size response)
      as [[Hev|Hev] [(result & Hr & Hrl)|(text & Hr)]];
      destruct (openai_handle_response world req full_prompt quality size response)
        as [o ev]; cbn [fst snd] in *; subst;
      (repeat split; [by left|]); intros result' [=]; by subst.
  - destruct (open_references world attempt (ref :: refs) []) as [files failure].
    destruct (openai_opens_projections files) as (Ho1 & Ho2 & Ho3 & Ho4).
    destruct (openai_closes_projections files) as (Hc1 & Hc2 & Hc3 & Hc4).
    destruct failure as [[path [|text]]|]; cbn [fst snd].
    + rewrite openai_opened_app, openai_closed_app, openai_calls_app, openai_slept_app.
      rewrite Ho1, Ho2, Ho3, Ho4, Hc1, Hc2, Hc3, Hc4, app_nil_r.
      repeat split; [right; repeat split; done|].
      intros result [= <-]. unfold failed_with. by rewrite !lookup_insert_ne, lookup_empty.
    + rewrite openai_opened_app, openai_closed_app, openai_calls_app, openai_slept_app.
      rewrite Ho1, Ho2, Ho3, Ho4, Hc1, Hc2, Hc3, Hc4, app_nil_r.
      repeat split; [right; repeat split; done | done].
    + assert (Hcalled : forall tail : list openai_event,
                (tail = [] \/ exists p, tail = [OaSave p]) ->
                let ev := (OaOpen <$> files)
                          ++ [OaEdit attempt
                                (OpenAIParams (str_or (req_model req) OPENAI_GENERATE_MODEL)
                                   full_prompt size quality 1 (Some files)
                                   (req_input_fidelity req))]
                          ++ (OaClose <$> files) in
                openai_opened (ev ++ tail) = openai_closed (ev ++ tail)
                /\ openai_slept (ev ++ tail) = 0
                /\ openai_calls (ev ++ tail) = [attempt]).
      { intros tail Ht ev. unfold ev.
        rewrite !openai_opened_app, !openai_closed_app, !openai_calls_app,
          !openai_slept_app.
        rewrite Ho1, Ho2, Ho3, Ho4, Hc1, Hc2, Hc3, Hc4.
        destruct Ht as [-> | [p ->]]; cbn; rewrite ?app_nil_r; done. }
      cbn [param_model param_prompt param_size param_quality param_n].
      destruct (images_edit world attempt _) as [response| |text|filename text|text];
        cbn [fst snd].
      * destruct (openai_handle_response_events world req full_prompt quality size response)
          as [Hev [(result & Hr & Hrl)|(text & Hr)]];
          destruct (openai_handle_response world req full_prompt quality size response)
            as [o ev]; cbn [fst snd] in *; subst;
          (destruct (Hcalled ev) as (H1 & H2 & H3);
           [destruct Hev as [->| ->]; [by left | right; by eexists]|]);
          (split; [done|]); (split; [done|]); (split; [by left|]);
          intros result' [=]; by subst.
      * destruct (Hcalled [] (or_introl eq_refl)) as (H1 & H2 & H3).
        rewrite app_nil_r in *. repeat split; [done|done|by left|done].
      * destruct (Hcalled [] (or_introl eq_refl)) as (H1 & H2 & H3).
        rewrite app_nil_r in *. repeat split; [done|done|by left|done].
      * destruct (Hcalled [] (or_introl eq_refl)) as (H1 & H2 & H3).
        rewrite app_nil_r in *. repeat split; [done|done|by left|].
        intros result [= <-]. unfold failed_with.
        by rewrite !lookup_insert_ne, lookup_empty.
      * destruct (Hcalled [] (or_introl eq_refl)) as (H1 & H2 & H3).
        rewrite app_nil_r in *. repeat split; [done|done|by left|done].
Qed.

Lemma openai_attempt_spec world req full_prompt quality size attempt :
  let r := openai_attempt world req full_prompt quality size attempt in
  openai_opened r.2 = openai_closed r.2
  /\ (r.1 = None ->
      attempt < OPENAI_MAX_RETRIES /\ openai_calls r.2 = [attempt]
      /\ openai_slept r.2 = OPENAI_RETRY_DELAY)
  /\ (forall result, r.1 = Some result ->
      openai_slept r.2 = 0
      /\ (openai_calls r.2 = [attempt] \/ openai_calls r.2 = [])
      /\ (result !! "rate_limited" = None
          \/ (result !! "rate_limited" = Some (VBool true)
              /\ openai_calls r.2 = [attempt]
              /\ (openai_try world req full_prompt quality size attempt).1
                 = TryRateLimitError))).
Proof.
  unfold openai_attempt.
  destruct (openai_try_spec world req full_prompt quality size attempt)
    as (Hoc & Hsl & Hcalls & Hret).
  destruct (openai_try world req full_prompt quality size attempt) as [o ev].
  cbn [fst snd] in *.
  assert (Hfail : forall text, failed_with text !! "rate_limited" = None).
  { intros text. unfold failed_with. by rewrite !lookup_insert_ne, lookup_empty. }
  destruct o as [result| |text|text]; cbn [fst snd].
  - split; [done|]. split; [done|]. intros d [= <-]. split; [done|].
    split; [destruct Hcalls as [?|[? _]]; auto|]. left. by apply Hret.
  - split; [done|]. split; [done|]. intros d [= <-]. split; [done|].
    assert (Hc : openai_calls ev = [attempt]).
    { destruct Hcalls as [?|(_ & Hn & _)]; [done | by destruct Hn]. }
    split; [by left|]. right. by rewrite lookup_insert_eq.
  - assert (Hc : openai_calls ev = [attempt]).
    { destruct Hcalls as [?|(_ & _ & Hn)]; [done | by destruct (Hn text)]. }
    destruct (contains "Error code: 403" text || contains "status_code=403" text).
    + destruct (attempt <? OPENAI_MAX_RETRIES) eqn:E; cbn [fst snd].
      * apply Z.ltb_lt in E.
        rewrite openai_opened_app, openai_closed_app, openai_calls_app, openai_slept_app.
        rewrite Hoc, Hsl, Hc. split; [done|]. split; [intros _; done | done].
      * split; [done|]. split; [done|]. intros d [= <-]. split; [done|].
        split; [by left | left; apply Hfail].
    + cbn [fst snd]. split; [done|]. split; [done|]. intros d [= <-]. split; [done|].
      split; [by left | left; apply Hfail].
  - split; [done|]. split; [done|]. intros d [= <-]. split; [done|].
    split; [destruct Hcalls as [?|[? _]]; auto | left; apply Hfail].
Qed.

Lemma openai_attempts_spec world req full_prompt quality size attempts :
  let r := openai_attempts world req full_prompt quality size attempts in
  openai_opened r.2 = openai_closed r.2
  /\ (r.1 = None ->
      openai_calls r.2 = attempts
      /\ openai_slept r.2 = OPENAI_RETRY_DELAY * Z.of_nat (length attempts)
      /\ Forall (fun k => k < OPENAI_MAX_RETRIES) attempts)
  /\ (forall result, r.1 = Some result ->
      exists pre k post,
        attempts = pre ++ k :: post
        /\ Forall (fun j => j < OPENAI_MAX_RETRIES) pre
        /\ openai_slept r.2 = OPENAI_RETRY_DELAY * Z.of_nat (length pre)
        /\ (openai_calls r.2 = pre ++ [k] \/ openai_calls r.2 = pre)
        /\ (openai_attempt world req full_prompt quality size k).1 = Some result
        /\ (result !! "rate_limited" = None
            \/ (result !! "rate_limited" = Some (VBool true)
                /\ openai_calls r.2 = pre ++ [k]
                /\ (openai_try world req full_prompt quality size k).1
                   = TryRateLimitError))).
Proof.
  induction attempts as [|k rest IH]; cbn zeta.
  - cbn [openai_attempts fst snd]. repeat split; done.
  - cbn [openai_attempts].
    destruct (openai_attempt_spec world req full_prompt quality size k)
      as (Hoc & Hnone & Hsome).
    destruct (openai_attempt world req full_prompt quality size k) as [[d|] ev] eqn:Ek;
      cbn [fst snd] in *.
    + split; [done|]. split; [done|]. intros result [= <-].
      destruct (Hsome d eq_refl) as (Hsl & Hcalls & Hrl).
      exists [], k, rest. split; [done|]. split; [constructor|].
      split; [by rewrite Hsl|]. split; [done|]. split; [by rewrite Ek|].
      destruct Hrl as [?|(? & ? & ?)]; [by left | by right].
    + destruct (Hnone eq_refl) as (Hlt & Hcalls & Hsl).
      cbn zeta in IH. destruct IH as (IHoc & IHnone & IHsome).
      destruct (openai_attempts world req full_prompt quality size rest)
        as [r later]; cbn [fst snd] in *.
      rewrite openai_opened_app, openai_closed_app, openai_calls_app, openai_slept_app.
      rewrite Hoc, IHoc, Hcalls, Hsl. split; [done|]. split.
      * intros ->. destruct (IHnone eq_refl) as (H1 & H2 & H3).
        rewrite H1, H2. cbn [length]. split; [done|]. split; [lia|].
        by constructor.
      * intros result ->.
        destruct (IHsome result eq_refl) as (pre & j & post & -> & Hpre & Hs & Hc & Hj & Hrl).
        exists (k :: pre), j, post. split; [done|]. split; [by constructor|].
        rewrite Hs. cbn [length]. split; [lia|].
        split; [destruct Hc as [-> | ->]; auto|]. split; [done|].
        destruct Hrl as [?|(? & -> & ?)]; [by left | by right].
Qed.

Lemma openai_range : py_range 1 (OPENAI_MAX_RETRIES + 1) = [1; 2; 3].
Proof. reflexivity. Qed.

(** One call of the adapter calls the service at most three times, for
    the attempts 1, 2, 3 in this order, and sleeps five seconds between
    two attempts: at most ten seconds in all, and never after the last
    call. *)
Theorem openai_retries_are_bounded world req :
  let events := (openai_generate_image world req).2 in
  openai_calls events `prefix_of` [1; 2; 3]
  /\ 0 <= openai_slept events <= 10
  /\ openai_slept events <= 5 * Z.of_nat (length (openai_calls events))
  /\ (openai_calls events = [] -> openai_slept events = 0).
Proof.
  unfold openai_generate_image.
  destruct (match req_input_fidelity req with
            | Some fidelity => negb (bool_decide (fidelity ∈ ["high"; "low"]))
            | None => false
            end).
  { cbn [snd]. repeat split; try done. by exists [1; 2; 3]. }
  rewrite openai_range.
  match goal with |- context [openai_attempts ?w ?r ?f ?q ?s ?l] =>
    destruct (openai_attempts_spec w r f q s l) as (_ & Hnone & Hsome);
    destruct (openai_attempts w r f q s l) as [[d|] ev] end; cbn [fst snd] in *.
  - destruct (Hsome d eq_refl) as (pre & k & post & Hl & Hpre & Hs & Hc & _).
    assert (Hlen : (length pre <= 2)%nat).
    { apply (f_equal length) in Hl. rewrite length_app in Hl. cbn [length] in Hl. lia. }
    change OPENAI_RETRY_DELAY with 5 in Hs.
    split.
    + destruct Hc as [-> | ->].
      * exists post. by rewrite <- app_assoc.
      * exists (k :: post). done.
    + rewrite Hs. split; [lia|]. split.
      * destruct Hc as [-> | ->]; rewrite ?length_app; cbn [length]; lia.
      * destruct Hc as [-> | ->]; [by destruct pre|]. by intros ->.
  - destruct (Hnone eq_refl) as (_ & _ & Hall).
    exfalso. apply Forall_cons in Hall as [_ Hall].
    apply Forall_cons in Hall as [_ Hall]. apply Forall_cons in Hall as [Hall _].
    unfold OPENAI_MAX_RETRIES in Hall. lia.
Qed.

(** The return that follows the retry loop is never reached: the result
    of the adapter is always the one an attempt returned, and when the
    first two attempts both ask for a retry the third settles it. *)
Theorem openai_loop_always_returns world req :
  (forall fidelity, req_input_fidelity req = Some fidelity ->
     fidelity ∈ ["high"; "low"]) ->
  exists full_prompt quality size attempt,
    1 <= attempt <= 3
    /\ (openai_attempt world req full_prompt quality size attempt).1
       = Some (openai_generate_image world req).1
    /\ (forall earlier, 1 <= earlier < attempt ->
          (openai_attempt world req full_prompt quality size earlier).1 = None).
Proof.
  intros Hfid. unfold openai_generate_image.
  destruct (match req_input_fidelity req with
            | Some fidelity => negb (bool_decide (fidelity ∈ ["high"; "low"]))
            | None => false
            end) eqn:Ef.
  { destruct (req_input_fidelity req) as [fid|]; [|done].
    apply negb_true_iff, bool_decide_eq_false in Ef. destruct Ef. by apply Hfid. }
  rewrite openai_range.
  set (full_prompt :=
         if str_truthy (req_aspect_ratio req)
         then req_prompt req +:+ newline +:+ newline +:+ "[aspect_ratio: "
                +:+ opt_str (req_aspect_ratio req) +:+ "]"
         else req_prompt req).
  set (quality := dict_get_default OPENAI_QUALITY_MAP (str_or (req_quality req) "low") "low").
  set (size := openai_image_size (req_aspect_ratio req)).
  exists full_prompt, quality, size. cbn [openai_attempts].
  set (step := openai_attempt world req full_prompt quality size).
  destruct (openai_attempt_spec world req full_prompt quality size 3)
    as (_ & Hnone3 & _).
  fold step in Hnone3.
  destruct (step 1) as [[d1|] e1] eqn:E1; cbn [fst snd].
  { exists 1. rewrite E1. split; [lia|]. split; [done|]. intros; lia. }
  destruct (step 2) as [[d2|] e2] eqn:E2; cbn [fst snd].
  { exists 2. rewrite E2. split; [lia|]. split; [done|].
    intros earlier He. assert (earlier = 1) as -> by lia. by rewrite E1. }
  destruct (step 3) as [[d3|] e3] eqn:E3; cbn [fst snd] in *.
  { exists 3. rewrite E3. split; [lia|]. split; [done|].
    intros earlier He. assert (earlier = 1 \/ earlier = 2) as [-> | ->] by lia.
    - by rewrite E1.
    - by rewrite E2. }
  destruct (Hnone3 eq_refl) as (Hlt & _). unfold OPENAI_MAX_RETRIES in Hlt. lia.
Qed.

Lemma openai_loop_always_returns_witness :
  exists full_prompt quality size attempt,
    1 <= attempt <= 3
    /\ (openai_attempt
          (sample_openai_world (fun _ => ApiException "unused")
             (fun _ => ApiError "Error code: 403 - forbidden"))
          (sample_request [] None (Some "high")) full_prompt quality size attempt).1
       = Some (openai_generate_image
                 (sample_openai_world (fun _ => ApiException "unused")
                    (fun _ => ApiError "Error code: 403 - forbidden"))
                 (sample_request [] None (Some "high"))).1.
Proof.
  destruct (openai_loop_always_returns
              (sample_openai_world (fun _ => ApiException "unused")
                 (fun _ => ApiError "Error code: 403 - forbidden"))
              (sample_request [] None (Some "high")))
    as (fp & q & s & k & Hk & Hres & _).
  - intros fidelity [= <-]. rewrite !elem_of_cons. auto.
  - exists fp, q, s, k. split; [exact Hk | exact Hres].
Defined.

(** Every reference file the adapter opens it closes again before it
    returns, on every path: success, error of the service, missing file,
    retry. *)
Theorem openai_closes_what_it_opens world req :
  openai_opened (openai_generate_image world req).2
  = openai_closed (openai_generate_image world req).2.
Proof.
  unfold openai_generate_image.
  destruct (match req_input_fidelity req with
            | Some fidelity => negb (bool_decide (fidelity ∈ ["high"; "low"]))
            | None => false
            end); [done|].
  match goal with |- context [openai_attempts ?w ?r ?f ?q ?s ?l] =>
    destruct (openai_attempts_spec w r f q s l) as (Hoc & _);
    destruct (openai_attempts w r f q s l) as [d ev] end.
  exact Hoc.
Qed.

Lemma openai_try_rate_limit_inv world req full_prompt quality size attempt :
  (openai_try world req full_prompt quality size attempt).1 = TryRateLimitError ->
  exists params,
    images_generate world attempt params = ApiRateLimitError
    \/ images_edit world attempt params = ApiRateLimitError.
Proof.
  unfold openai_try. destruct (req_reference_images req) as [|ref refs].
  - destruct (images_generate world attempt _) as [response| | | |] eqn:E;
      cbn [fst]; try done.
    + destruct (openai_handle_response_events world req full_prompt quality size response)
        as [_ [(result & Hr & _)|(text & Hr)]];
        destruct (openai_handle_response _ _ _ _ _ _) as [o ev]; cbn [fst] in *;
        by subst.
    + intros _. eexists. left. exact E.
  - destruct (open_references world attempt (ref :: refs) []) as [files failure].
    destruct failure as [[path [|text]]|]; cbn [fst]; try done.
    cbn [param_model param_prompt param_size param_quality param_n].
    destruct (images_edit world attempt _) as [response| | | |] eqn:E;
      cbn [fst]; try done.
    + destruct (openai_handle_response_events world req full_prompt quality size response)
        as [_ [(result & Hr & _)|(text & Hr)]];
        destruct (openai_handle_response _ _ _ _ _ _) as [o ev]; cbn [fst] in *;
        by subst.
    + intros _. eexists. right. exact E.
Qed.

(** A result of the adapter carries [rate_limited] only when the service
    raised [RateLimitError]: the entry is [True], the error text is
    fixed, the call that raised is the last one made and no retry
    follows. *)
Theorem openai_rate_limit_comes_from_the_service world req v :
  (openai_generate_image world req).1 !! "rate_limited" = Some v ->
  v = VBool true
  /\ (openai_generate_image world req).1
     = <["rate_limited" := VBool true]> (failed_with "Rate limit exceeded")
  /\ exists attempt,
       1 <= attempt <= 3
       /\ last (openai_calls (openai_generate_image world req).2) = Some attempt
       /\ exists params,
            images_generate world attempt params = ApiRateLimitError
            \/ images_edit world attempt params = ApiRateLimitError.
Proof.
  unfold openai_generate_image.
  destruct (match req_input_fidelity req with
            | Some fidelity => negb (bool_decide (fidelity ∈ ["high"; "low"]))
            | None => false
            end).
  { cbn [fst]. unfold failed_with. by rewrite !lookup_insert_ne, lookup_empty. }
  rewrite openai_range.
  match goal with |- context [openai_attempts ?w ?r ?f ?q ?s ?l] =>
    destruct (openai_attempts_spec w r f q s l) as (_ & Hnone & Hsome);
    destruct (openai_attempts w r f q s l) as [[d|] ev] end;
    unfold default; cbn [fst snd from_option id] in *.
  - intros Hv.
    destruct (Hsome d eq_refl) as (pre & k & post & Hl & _ & _ & _ & Hk & Hrl).
    destruct Hrl as [Hrl|(Hrl & Hcalls & Htry)]; [congruence|].
    assert (v = VBool true) as -> by congruence. split; [done|].
    split.
    + unfold openai_attempt in Hk.
      destruct (openai_try _ _ _ _ _ k) as [o ev']. cbn [fst] in Htry. subst o.
      cbn [fst] in Hk. by inversion Hk.
    + exists k. split.
      * assert (Hin : k ∈ [1; 2; 3]) by (rewrite Hl, elem_of_app; right; left).
        rewrite !elem_of_cons, elem_of_nil in Hin. lia.
      * split; [by rewrite Hcalls, last_snoc|]. by eapply openai_try_rate_limit_inv.
  - unfold failed_with. by rewrite !lookup_insert_ne, lookup_empty.
Qed.

Lemma openai_rate_limit_comes_from_the_service_witness :
  (openai_generate_image
     (sample_openai_world (fun _ => ApiException "unused")
        (fun attempt => if attempt =? 1 then ApiError "status_code=403"
                        else ApiRateLimitError))
     (sample_request [] None None)).1
  = <["rate_limited" := VBool true]> (failed_with "Rate limit exceeded").
Proof.
  refine (proj1 (proj2 (openai_rate_limit_comes_from_the_service
                          (sample_openai_world (fun _ => ApiException "unused")
                             (fun attempt => if attempt =? 1 then ApiError "status_code=403"
                                             else ApiRateLimitError))
                          (sample_request [] None None) (VBool true) _))).
  vm_compute. reflexivity.
Defined.

Lemma openai_refuses_unknown_fidelity_aux world req fidelity :
  req_input_fidelity req = Some fidelity ->
  fidelity ∉ ["high"; "low"] ->
  openai_generate_image world req
  = (failed_with ("Invalid input_fidelity: " +:+ fidelity +:+ ". Valid values: high, low"),
     []).
Proof.
  intros Hf Hn. unfold openai_generate_image. rewrite Hf.
  by rewrite bool_decide_false by done.
Qed.

(** An empty [--input-fidelity] passes [validate_arguments], which only
    looks at values that are not empty, and reaches the adapter, which
    refuses every value but [high] and [low]: each image of such a batch
    fails without a call. *)
Theorem empty_fidelity_is_validated_then_refused args world prompt_text references
    provider_name_value api_key_value dir i :
  validate_arguments args = Ok tt ->
  ns_input_fidelity args = Some (Some "") ->
  openai_generate_image world
    (slot_request
       (batch_arguments args prompt_text references provider_name_value api_key_value)
       dir i)
  = (failed_with "Invalid input_fidelity: . Valid values: high, low", []).
Proof.
  intros _ Hf.
  apply (openai_refuses_unknown_fidelity_aux world _ "").
  - unfold slot_request, batch_arguments. cbn. by rewrite Hf.
  - rewrite !elem_of_cons, elem_of_nil. intuition discriminate.
Qed.

Lemma empty_fidelity_is_validated_then_refused_witness :
  openai_generate_image
    (sample_openai_world (fun _ => ApiRateLimitError) (fun _ => ApiRateLimitError))
    (slot_request
       (batch_arguments
          (Namespace (Some "a cat") None [] None "out" 2 None None None None
             (Some (Some "")) false)
          "a cat" [] "openai" "sk-test")
       "out" 1)
  = (failed_with "Invalid input_fidelity: . Valid values: high, low", []).
Proof.
  exact (empty_fidelity_is_validated_then_refused
           (Namespace (Some "a cat") None [] None "out" 2 None None None None
              (Some (Some "")) false)
           (sample_openai_world (fun _ => ApiRateLimitError) (fun _ => ApiRateLimitError))
           "a cat" [] "openai" "sk-test" "out" 1 eq_refl eq_refl).
Defined.

(** ** The adapter: a missing reference and a success *)

Lemma open_references_stops world attempt before path after acc failure :
  Forall (fun p => open_reference world attempt p = OpenOk) before ->
  open_reference world attempt path = OpenFailed failure ->
  open_references world attempt (before ++ path :: after) acc
  = (acc ++ before, Some (path, failure)).
Proof.
  intros Hok Hfail. revert acc.
  induction Hok as [|p before Hp Hok IH]; intros acc; cbn [app open_references].
  - by rewrite Hfail, app_nil_r.
  - rewrite Hp, IH, <- app_assoc. reflexivity.
Qed.

(** When a reference image does not exist, the adapter returns the
    failure that names it at the first attempt: the files before it have
    been opened and are closed again, the service is not called and
    nothing is retried. *)
Theorem openai_missing_reference_makes_no_call world req before path after :
  (forall fidelity, req_input_fidelity req = Some fidelity ->
     fidelity ∈ ["high"; "low"]) ->
  req_reference_images req = before ++ path :: after ->
  Forall (fun p => open_reference world 1 p = OpenOk) before ->
  open_reference world 1 path = OpenFailed OpenFileNotFoundError ->
  openai_generate_image world req
  = (failed_with ("Reference image not found: " +:+ path),
     (OaOpen <$> before) ++ (OaClose <$> before))
  /\ openai_calls (openai_generate_image world req).2 = []
  /\ openai_slept (openai_generate_image world req).2 = 0.
Proof.
  intros Hfid Hrefs Hok Hmissing.
  assert (Hgen : openai_generate_image world req
                 = (failed_with ("Reference image not found: " +:+ path),
                    (OaOpen <$> before) ++ (OaClose <$> before))).
  { unfold openai_generate_image.
    destruct (req_input_fidelity req) as [fidelity|] eqn:Ef.
    - rewrite bool_decide_true by (by apply Hfid). cbn [negb].
      rewrite openai_range. cbn [openai_attempts]. unfold openai_attempt, openai_try.
      rewrite Hrefs.
      rewrite (open_references_stops world 1 before path after [] _ Hok Hmissing).
      by destruct before.
    - rewrite openai_range. cbn [openai_attempts]. unfold openai_attempt, openai_try.
      rewrite Hrefs.
      rewrite (open_references_stops world 1 before path after [] _ Hok Hmissing).
      by destruct before. }
  rewrite Hgen. cbn [snd].
  destruct (openai_opens_projections before) as (Ho1 & Ho2 & Ho3 & Ho4).
  destruct (openai_closes_projections before) as (Hc1 & Hc2 & Hc3 & Hc4).
  split; [done|].
  rewrite openai_calls_app, openai_slept_app.
  split; [by rewrite ?Ho1, ?Ho2, ?Ho3, ?Ho4, ?Hc1, ?Hc2, ?Hc3, ?Hc4 |].
  rewrite ?Ho1, ?Ho2, ?Ho3, ?Ho4, ?Hc1, ?Hc2, ?Hc3, ?Hc4. done.
Qed.

Lemma openai_missing_reference_makes_no_call_witness :
  openai_generate_image (missing_reference_world "b.png")
    (sample_request ["a.png"; "b.png"; "c.png"] None None)
  = (failed_with "Reference image not found: b.png", [OaOpen "a.png"; OaClose "a.png"]).
Proof.
  refine (proj1 (openai_missing_reference_makes_no_call
                   (missing_reference_world "b.png")
                   (sample_request ["a.png"; "b.png"; "c.png"] None None)
                   ["a.png"] "b.png" ["c.png"] _ eq_refl _ eq_refl)).
  - intros fidelity [=].
  - constructor; [reflexivity | constructor].
Defined.

Lemma failed_with_status text : failed_with text !! "status" = Some (VStr "failed").
Proof. unfold failed_with. rewrite lookup_insert_ne by done. apply lookup_insert_eq. Qed.

Lemma openai_handle_response_success world req full_prompt quality size response
    result events :
  openai_handle_response world req full_prompt quality size response
  = (TryReturn result, events) ->
  result !! "status" = Some (VStr "success") ->
  exists first rest created,
    response_data response = first :: rest
    /\ save_image world (os_path_join (req_output_dir req) (req_filename req))
         (b64_json first) = None
    /\ created_isoformat world (response_created response) = Ok created
    /\ events = [OaSave (os_path_join (req_output_dir req) (req_filename req))]
    /\ result =
       <["cost_usd" := VFloat (calculate_openai_image_cost
                                 (str_or (image_quality first) quality)
                                 (str_or (image_size first) size))]>
         (<["size" := VStr (str_or (image_size first) size)]>
            (<["quality" := VStr (str_or (image_quality first) quality)]>
               (<["created" := VStr created]>
                  (<["revised_prompt" :=
                       VStr (str_or (image_revised_prompt first) full_prompt)]>
                     (<["filename" := VStr (req_filename req)]>
                        (<["status" := VStr "success"]> ∅)))))).
Proof.
  unfold openai_handle_response.
  destruct (response_data response) as [|first rest].
  { intros [= <- <-]. rewrite failed_with_status. intros [=]. }
  destruct (save_image world _ _) as [text|] eqn:Es; [intros [=]|].
  destruct (created_isoformat world _) as [created|e] eqn:Ec; [|intros [=]].
  intros [= <- <-] _. by exists first, rest, created.
Qed.

Lemma openai_try_success world req full_prompt quality size attempt result events :
  openai_try world req full_prompt quality size attempt = (TryReturn result, events) ->
  result !! "status" = Some (VStr "success") ->
  exists response before after,
    events = before ++ after
    /\ openai_handle_response world req full_prompt quality size response
       = (TryReturn result, after)
    /\ exists params,
         images_generate world attempt params = ApiResponse response
         \/ images_edit world attempt params = ApiResponse response.
Proof.
  unfold openai_try. destruct (req_reference_images req) as [|ref refs].
  - destruct (images_generate world attempt _) as [response| | | |] eqn:E;
      try (intros [=]; fail).
    destruct (openai_handle_response world req full_prompt quality size response)
      as [o ev] eqn:Eh.
    intros [= -> <-] Hs. eexists response, [_], ev.
    split; [reflexivity|]. split; [done|]. eexists. left. exact E.
  - destruct (open_references world attempt (ref :: refs) []) as [files failure].
    destruct failure as [[path [|text]]|].
    + intros [= <- <-]. rewrite failed_with_status. intros [=].
    + intros [=].
    + cbn [param_model param_prompt param_size param_quality param_n].
      destruct (images_edit world attempt _) as [response| | |filename text|] eqn:E;
        try (intros [=]; fail).
      * destruct (openai_handle_response world req full_prompt quality size response)
          as [o ev] eqn:Eh.
        intros [= -> <-] Hs. eexists response, _, ev.
        split; [reflexivity|]. split; [done|]. eexists. right. exact E.
      * intros [= <- <-]. rewrite failed_with_status. intros [=].
Qed.

Lemma openai_attempt_success world req full_prompt quality size attempt result events :
  openai_attempt world req full_prompt quality size attempt = (Some result, events) ->
  result !! "status" = Some (VStr "success") ->
  openai_try world req full_prompt quality size attempt = (TryReturn result, events).
Proof.
  unfold openai_attempt.
  destruct (openai_try world req full_prompt quality size attempt)
    as [[r| |text|text] ev].
  - by intros [= -> ->].
  - intros [= <- <-]. rewrite lookup_insert_ne by done.
    rewrite failed_with_status. intros [=].
  - destruct (contains "Error code: 403" text || contains "status_code=403" text).
    + destruct (attempt <? OPENAI_MAX_RETRIES); [intros [=]|].
      intros [= <- <-]. rewrite failed_with_status. intros [=].
    + intros [= <- <-]. rewrite failed_with_status. intros [=].
  - intros [= <- <-]. rewrite failed_with_status. intros [=].
Qed.

Lemma openai_attempts_some world req full_prompt quality size attempts result events :
  openai_attempts world req full_prompt quality size attempts = (Some result, events) ->
  exists attempt earlier last_events,
    attempt ∈ attempts
    /\ openai_attempt world req full_prompt quality size attempt
       = (Some result, last_events)
    /\ events = earlier ++ last_events.
Proof.
  revert events. induction attempts as [|k rest IH]; intros events; [intros [=]|].
  cbn [openai_attempts].
  destruct (openai_attempt world req full_prompt quality size k) as [[d|] ev] eqn:Ek.
  - intros [= -> ->]. exists k, [], events. split; [left|]. by split.
  - destruct (openai_attempts world req full_prompt quality size rest)
      as [r later] eqn:Er.
    intros [= -> <-].
    destruct (IH later eq_refl) as (j & earlier & le & Hj & Ha & ->).
    exists j, (ev ++ earlier), le. split; [by right|]. split; [done|].
    by rewrite app_assoc.
Qed.

Lemma openai_success_lookups req first created :
  let result := openai_success req first created in
  result_get result "revised_prompt"
    = VStr (str_or (image_revised_prompt first) (openai_full_prompt req))
  /\ result_get result "created" = VStr created
  /\ result_get result "quality"
     = VStr (str_or (image_quality first)
               (dict_get_default OPENAI_QUALITY_MAP (str_or (req_quality req) "low")
                  "low"))
  /\ result_get result "size"
     = VStr (str_or (image_size first) (openai_image_size (req_aspect_ratio req)))
  /\ result_get result "cost_usd"
     = VFloat (calculate_openai_image_cost
                 (str_or (image_quality first)
                    (dict_get_default OPENAI_QUALITY_MAP
                       (str_or (req_quality req) "low") "low"))
                 (str_or (image_size first) (openai_image_size (req_aspect_ratio req))))
  /\ extra_fields result
     = [("model_version", VNone); ("response_id", VNone); ("finish_reason", VNone);
        ("prompt_tokens", VNone); ("output_tokens", VNone)].
Proof.
  cbv zeta. unfold openai_success, extra_fields, result_get.
  generalize (str_or (image_revised_prompt first) (openai_full_prompt req)).
  generalize (calculate_openai_image_cost
                 (str_or (image_quality first)
                    (dict_get_default OPENAI_QUALITY_MAP
                       (str_or (req_quality req) "low") "low"))
                 (str_or (image_size first) (openai_image_size (req_aspect_ratio req)))).
  generalize (str_or (image_quality first)
               (dict_get_default OPENAI_QUALITY_MAP (str_or (req_quality req) "low")
                  "low")).
  generalize (str_or (image_size first) (openai_image_size (req_aspect_ratio req))).
  generalize (req_filename req).
  intros f s q c r. repeat split; vm_compute; reflexivity.
Qed.

(** A result of the adapter with the status [success] comes from a
    response of the service with at least one image: the image has been
    written to its path in the output directory, which is the last thing
    the call did, and the result describes it with the values of the
    response, or with those of the request where the response has none.
    The sidecar the batch writes for it has the prompt, the provider, the
    model, the creation time, the quality, the size and the cost, and
    the revised prompt unless that is the prompt of the request; it has
    none of the fields of the other adapter. *)
Theorem openai_success_is_saved_and_described world req :
  (openai_generate_image world req).1 !! "status" = Some (VStr "success") ->
  exists attempt response first created earlier,
    1 <= attempt <= 3
    /\ (exists params,
          images_generate world attempt params = ApiResponse response
          \/ images_edit world attempt params = ApiResponse response)
    /\ head (response_data response) = Some first
    /\ save_image world (os_path_join (req_output_dir req) (req_filename req))
         (b64_json first) = None
    /\ created_isoformat world (response_created response) = Ok created
    /\ (openai_generate_image world req).2
       = earlier ++ [OaSave (os_path_join (req_output_dir req) (req_filename req))]
    /\ (openai_generate_image world req).1 = openai_success req first created
    /\ let result := (openai_generate_image world req).1 in
       let revised := str_or (image_revised_prompt first) (openai_full_prompt req) in
       let quality_value :=
         str_or (image_quality first)
           (dict_get_default OPENAI_QUALITY_MAP (str_or (req_quality req) "low") "low") in
       let size_value :=
         str_or (image_size first) (openai_image_size (req_aspect_ratio req)) in
       forall provider model,
         build_metadata (req_prompt req) provider model
           (result_get result "revised_prompt") (result_get result "created")
           (result_get result "quality") (result_get result "size")
           (result_get result "cost_usd") (extra_fields result)
         = [("original_prompt", VStr (req_prompt req));
            ("provider", VStr provider);
            ("model", VStr model)]
           ++ (if String.eqb revised (req_prompt req) then []
               else [("revised_prompt", VStr revised)])
           ++ [("created", VStr created);
               ("quality", VStr quality_value);
               ("size", VStr size_value);
               ("cost_usd",
                VFloat (calculate_openai_image_cost quality_value size_value))].
Proof.
  intros Hs.
  assert (Hgen : exists attempt response first created earlier,
            1 <= attempt <= 3
            /\ (exists params,
                  images_generate world attempt params = ApiResponse response
                  \/ images_edit world attempt params = ApiResponse response)
            /\ head (response_data response) = Some first
            /\ save_image world (os_path_join (req_output_dir req) (req_filename req))
                 (b64_json first) = None
            /\ created_isoformat world (response_created response) = Ok created
            /\ openai_generate_image world req
               = (openai_success req first created,
                  earlier ++ [OaSave (os_path_join (req_output_dir req)
                                        (req_filename req))])).
  { revert Hs. unfold openai_generate_image.
    destruct (match req_input_fidelity req with
              | Some fidelity => negb (bool_decide (fidelity ∈ ["high"; "low"]))
              | None => false
              end).
    { cbn [fst]. rewrite failed_with_status. intros [=]. }
    rewrite openai_range.
    destruct (openai_attempts world req _ _ _ [1; 2; 3]) as [[d|] ev] eqn:Ea;
      unfold default; cbn [fst from_option id];
      [|rewrite failed_with_status; intros [=]].
    intros Hs.
    apply openai_attempts_some in Ea as (k & earlier & le & Hk & Hatt & ->).
    pose proof (openai_attempt_success _ _ _ _ _ _ _ _ Hatt Hs) as Htry.
    destruct (openai_try_success _ _ _ _ _ _ _ _ Htry Hs)
      as (response & before & after & -> & Hh & Hparams).
    destruct (openai_handle_response_success _ _ _ _ _ _ _ _ Hh Hs)
      as (first & rest & created & Hd & Hsave & Hc & -> & ->).
    exists k, response, first, created, (earlier ++ before).
    split; [rewrite !elem_of_cons, elem_of_nil in Hk; lia|].
    split; [done|]. split; [by rewrite Hd|]. split; [done|]. split; [done|].
    by rewrite <- !app_assoc. }
  destruct Hgen as (k & response & first & created & earlier & Hk & Hp & Hd & Hsave
                    & Hc & Hgen).
  exists k, response, first, created, earlier.
  rewrite Hgen. cbn [fst snd].
  do 7 (split; [done|]).
  intros provider model.
  destruct (openai_success_lookups req first created)
    as (H1 & H2 & H3 & H4 & H5 & H6).
  rewrite H1, H2, H3, H4, H5, H6.
  unfold build_metadata. cbn [is_not_None andb ne_str].
  destruct (String.eqb (str_or (image_revised_prompt first) (openai_full_prompt req))
              (req_prompt req)); reflexivity.
Qed.

Lemma openai_success_is_saved_and_described_witness :
  exists earlier,
    (openai_generate_image (answering_world (OpenAIImage "aGk=" None None None))
       (sample_request [] (Some "16:9") None)).2
    = earlier ++ [OaSave "out/imggen_001.png"].
Proof.
  destruct (openai_success_is_saved_and_described
              (answering_world (OpenAIImage "aGk=" None None None))
              (sample_request [] (Some "16:9") None) eq_refl)
    as (k & response & first & created & earlier & _ & _ & _ & _ & _ & He & _).
  by exists earlier.
Defined.

(** ** The names a batch targets *)

Lemma check_file_collisions_existing fs dir variations :
  check_file_collisions fs dir variations =
  let existing :=
    filter (fun f => os_path_exists fs (os_path_join dir f) = true)
      (target_filenames variations) in
  (bool_decide (existing ≠ []), existing).
Proof.
  cbv zeta. rewrite <- check_file_collisions_default_filter.
  unfold check_file_collisions. cbn [fst snd].
  destruct (collisions_loop fs dir (py_range 1 (variations + 1)) []) as [|f l].
  - cbn [length]. rewrite bool_decide_false by lia. by rewrite bool_decide_false by auto.
  - cbn [length]. rewrite bool_decide_true by lia. by rewrite bool_decide_true.
Qed.

Lemma submitted_slots_app t1 t2 :
  submitted_slots (t1 ++ t2) = submitted_slots t1 ++ submitted_slots t2.
Proof. unfold submitted_slots. apply omap_app. Qed.

Lemma submitted_slots_submits slots :
  submitted_slots ((fun i => EvSubmit i (slot_filename i)) <$> slots)
  = (fun i => (i, slot_filename i)) <$> slots.
Proof.
  induction slots as [|i r IH]; [done|].
  rewrite !fmap_cons. unfold submitted_slots in *.
  cbn -[slot_filename]. f_equal. exact IH.
Qed.

Lemma submitted_slots_prints lines : submitted_slots (EvPrint <$> lines) = [].
Proof. induction lines as [|l r IH]; [done|]. rewrite fmap_cons. exact IH. Qed.

Lemma submitted_slots_collects l : submitted_slots (EvCollect <$> l) = [].
Proof. induction l as [|x l IH]; [done|]. rewrite fmap_cons. exact IH. Qed.

Lemma submitted_slots_slot_events p a dir results l :
  submitted_slots (concat (slot_events p a dir results <$> l)) = [].
Proof.
  induction l as [|x l IH]; [done|].
  rewrite fmap_cons. cbn [concat]. rewrite submitted_slots_app, IH.
  unfold slot_events. destruct (results !! x) as [[f r]|]; [|done].
  by destruct (classify results x).
Qed.

Lemma run_batch_submitted_slots rt p a dir cost completion w :
  0 < variations a ->
  submitted_slots (trace (run_batch rt p a dir cost completion w).2)
  = submitted_slots (trace w)
    ++ ((fun i => (i, slot_filename i)) <$> py_range 1 (variations a + 1)).
Proof.
  intros Hpos. rewrite run_batch_unfold by done.
  match goal with |- context [display_loop ?rt ?p ?a ?d ?r ?s ?t ?w1] =>
    destruct (display_loop_world rt p a d r s t w1) as [k Hk];
    destruct (display_loop rt p a d r s t w1) as [[t'|e] w2] end;
    cbn [snd] in *; subst w2; rewrite ?print_summary_spec; cbn [trace];
    unfold batch_prefix; rewrite !submitted_slots_app;
    rewrite submitted_slots_submits, ?submitted_slots_prints,
      submitted_slots_collects, submitted_slots_slot_events;
    change (submitted_slots [EvPrint ""]) with (@nil (Z * string));
    destruct (short_circuited _ _); cbn [app]; by rewrite ?app_nil_r.
Qed.

(** C6.  With no basename and a count from 1 to 4, the batch targets
    exactly the first [count] of [imggen_001.png] to [imggen_004.png]:
    without gap or duplicate, the names of the naming rule; the
    collision check looks for these names and no other; the dispatch
    loop of the batch hands them to the executor, slot [i] with the
    [i]-th name; and a run of [generate_from_prompt] that reaches its
    end has found none of them in the directory and has dispatched each
    of them once. *)
Theorem default_filenames_dense count :
  1 <= count <= 4 ->
  let names :=
    take (Z.to_nat count)
      ["imggen_001.png"; "imggen_002.png"; "imggen_003.png"; "imggen_004.png"] in
  let slots := take (Z.to_nat count) [1; 2; 3; 4] in
  NoDup names
  /\ length names = Z.to_nat count
  /\ names = (fun i => generate_filename None i count) <$> slots
  /\ (forall fs dir,
        check_file_collisions fs dir count =
        let existing :=
          filter (fun f => os_path_exists fs (os_path_join dir f) = true) names in
        (bool_decide (existing ≠ []), existing))
  /\ (forall rt p a dir cost completion w,
        variations a = count ->
        submitted_slots (trace (run_batch rt p a dir cost completion w).2)
        = submitted_slots (trace w) ++ zip slots names)
  /\ (forall rt a completion w w',
        variations a = count ->
        dry_run a = false ->
        generate_from_prompt rt a completion w = (Ok tt, w') ->
        submitted_slots (trace w') = submitted_slots (trace w) ++ zip slots names
        /\ forall f, f ∈ names ->
             os_path_exists (fs w) (os_path_join (rstrip_sep (output_dir a)) f) = false).
Proof.
  intros Hc names slots.
  assert (Hnames : names = target_filenames count).
  { unfold names.
    assert (count = 1 \/ count = 2 \/ count = 3 \/ count = 4)
      as [->|[->|[->| ->]]] by lia; reflexivity. }
  assert (Hzip : zip slots names
                 = (fun i => (i, slot_filename i)) <$> py_range 1 (count + 1)).
  { unfold names, slots.
    assert (count = 1 \/ count = 2 \/ count = 3 \/ count = 4)
      as [->|[->|[->| ->]]] by lia; reflexivity. }
  split; [|split; [|split; [|split; [|split]]]].
  - unfold names.
    assert (count = 1 \/ count = 2 \/ count = 3 \/ count = 4)
      as [->|[->|[->| ->]]] by lia; vm_compute;
      repeat (constructor; [by (rewrite ?elem_of_cons, elem_of_nil; intuition discriminate)|]);
      constructor.
  - unfold names. rewrite length_take. cbn [length]. lia.
  - unfold names, slots.
    assert (count = 1 \/ count = 2 \/ count = 3 \/ count = 4)
      as [->|[->|[->| ->]]] by lia; reflexivity.
  - intros fs dir. rewrite Hnames. apply check_file_collisions_existing.
  - intros rt p a dir cost completion w Hv. rewrite Hzip, <- Hv.
    apply run_batch_submitted_slots. lia.
  - intros rt a completion w w' Hv Hdry Hrun. unfold generate_from_prompt in Hrun.
    rewrite check_file_collisions_existing in Hrun. cbv zeta in Hrun.
    rewrite Hv, <- Hnames in Hrun.
    destruct (decide (filter (fun f => os_path_exists (fs w)
                (os_path_join (rstrip_sep (output_dir a)) f) = true) names = []))
      as [Hnil|Hne].
    2: { rewrite bool_decide_true in Hrun by done. done. }
    rewrite bool_decide_false in Hrun by auto.
    split.
    + destruct (resolve_provider rt a) as [[pname p]|e]; [|done].
      destruct (calculate_image_cost (Some pname) (quality a) (resolution a))
        as [cost_per_image|e]; [|done].
      rewrite Hdry in Hrun.
      assert (Hw' : w' = (run_batch rt p a (rstrip_sep (output_dir a)) cost_per_image
                            completion
                            (print_configuration rt p a (rstrip_sep (output_dir a)) pname
                               (cost_times cost_per_image count) w)).2)
        by (by rewrite Hrun).
      rewrite Hw', run_batch_submitted_slots by lia.
      rewrite print_configuration_spec. cbn [trace].
      rewrite submitted_slots_app, submitted_slots_prints, app_nil_r.
      by rewrite Hzip, Hv.
    + intros f Hf.
      destruct (os_path_exists (fs w) (os_path_join (rstrip_sep (output_dir a)) f))
        eqn:E; [|done].
      assert (Hin : f ∈ filter (fun f => os_path_exists (fs w)
                (os_path_join (rstrip_sep (output_dir a)) f) = true) names)
        by (by apply list_elem_of_filter).
      rewrite Hnil in Hin. by apply elem_of_nil in Hin.
Qed.

Lemma default_filenames_dense_witness :
  submitted_slots
    (trace (run_batch (sample_runtime always_succeeds) (sample_provider always_succeeds)
              (sample_arguments "out" 3) "out" 0.009%float [2; 3; 1] empty_world).2)
  = [(1, "imggen_001.png"); (2, "imggen_002.png"); (3, "imggen_003.png")].
Proof.
  destruct (default_filenames_dense 3) as (_ & _ & _ & _ & Hrun & _); [lia|].
  exact (Hrun (sample_runtime always_succeeds) (sample_provider always_succeeds)
           (sample_arguments "out" 3) "out" 0.009%float [2; 3; 1] empty_world eq_refl).
Defined.

(** ** The call with a basename *)

(** C3.  [check_file_collisions] has the parameters [output_dir] and
    [variations] and no basename.  The call with a basename, which the
    claim quantifies over and the tests of the repository make, raises
    [TypeError] for every directory, count and basename: it returns
    neither a flag nor a list.  With [sunset.png] in the directory, the
    target of the naming rule for the basename [sunset] and one image,
    the claim has [(true, ["sunset.png"])]; the call raises, and the
    two-argument call of the batch reports no collision. *)
Theorem check_file_collisions_rejects_basename :
  (forall fs dir variations basename,
     call_check_file_collisions fs dir variations [("basename", basename)]
     = Raise (Exn "TypeError"
                "check_file_collisions() got an unexpected keyword argument 'basename'"))
  /\ generate_filename (Some "sunset") 1 1 = "sunset.png"
  /\ os_path_exists {["./sunset.png" := Blob]} (os_path_join "." "sunset.png") = true
  /\ call_check_file_collisions {["./sunset.png" := Blob]} "." 1
       [("basename", VStr "sunset")]
     <> Ok (true, ["sunset.png"])
  /\ call_check_file_collisions {["./sunset.png" := Blob]} "." 1 [] = Ok (false, []).
Proof.
  split; [intros; reflexivity|].
  split; [reflexivity|]. split; [vm_compute; reflexivity|].
  split; [discriminate|]. vm_compute. reflexivity.
Qed.

(** ** The displayed cost *)

Lemma classify_succeeded_iff (results : gmap Z (string * gmap string pyval)) i :
  classify results i = Succeeded <->
  exists f r, results !! i = Some (f, r) /\ r !! "status" = Some (VStr "success").
Proof.
  unfold classify. split.
  - destruct (results !! i) as [[f r]|]; [|done].
    destruct (r !! "status") as [status|] eqn:Es; [|done].
    destruct status as [| | | |s]; cbn [ne_str negb]; try done.
    destruct (String.eqb s "success") eqn:E; cbn [negb]; [|done].
    apply String.eqb_eq in E as ->. intros _. by exists f, r.
  - intros (f & r & -> & ->). reflexivity.
Qed.

(** C7.  When a batch runs to its end, the cost it displays is the
    product, in binary64, of the per-image estimate and the number of
    successful slots.  The estimate is looked up once in the pricing
    table from the provider and the requested quality and resolution;
    the number counts the slots from 1 to [variations] whose collected
    result has the status [success]; no [cost_usd] of a result enters
    the product. *)
Theorem actual_cost_is_estimate_times_successes rt a completion w w' :
  dry_run a = false ->
  generate_from_prompt rt a completion w = (Ok tt, w') ->
  exists pname p cost_per_image,
    resolve_provider rt a = Ok (pname, p)
    /\ calculate_image_cost (Some pname) (quality a) (resolution a) = Ok cost_per_image
    /\ get_image_cost (Some pname) (resolution a) (quality a) = Ok cost_per_image
    /\ let dir := rstrip_sep (output_dir a) in
       let slots := py_range 1 (variations a + 1) in
       let results :=
         results_of p a dir (collected (results_of p a dir slots) completion) in
       let successful_slots :=
         filter (fun i => classify results i = Succeeded) slots in
       let successes := Z.of_nat (length successful_slots) in
       let actual_cost :=
         PrimFloat.mul cost_per_image
           (SF2Prim (binary_normalize prec emax successes 0 false)) in
       (forall i, i ∈ successful_slots <->
          1 <= i <= variations a
          /\ exists f r, results !! i = Some (f, r)
                         /\ r !! "status" = Some (VStr "success"))
       /\ 0 <= successes <= variations a
       /\ exists before,
            stdout (trace w') =
            before ++ ["Actual cost: $" +:+ format_2f rt actual_cost;
                       "Output directory: " +:+ dir].
Proof.
  intros Hdry Hrun. unfold generate_from_prompt in Hrun.
  destruct (check_file_collisions (fs w) (rstrip_sep (output_dir a)) (variations a))
    as [[|] cols]; [done|].
  destruct (resolve_provider rt a) as [[pname p]|e]; [|done].
  destruct (calculate_image_cost (Some pname) (quality a) (resolution a))
    as [cost_per_image|e] eqn:Ecost; [|done].
  rewrite Hdry in Hrun.
  assert (Hpos : 0 < variations a).
  { destruct (decide (0 < variations a)) as [|Hn]; [done|].
    unfold run_batch in Hrun. rewrite (proj2 (Z.leb_le _ _)) in Hrun by lia. done. }
  apply run_batch_ok in Hrun.
  exists pname, p, cost_per_image. split; [done|]. split; [done|]. split; [done|].
  intros dir slots results successful_slots successes actual_cost.
  split; [|split].
  - intros i. unfold successful_slots, slots.
    rewrite list_elem_of_filter, elem_of_py_range, classify_succeeded_iff.
    intuition lia.
  - unfold successes, successful_slots.
    pose proof (length_filter (fun i => classify results i = Succeeded) slots) as Hle.
    unfold slots in Hle at 2. unfold py_range in Hle. rewrite length_seqZ in Hle. lia.
  - rewrite Hrun. cbn [trace]. rewrite !stdout_app, stdout_prints.
    unfold summary_lines. fold dir. fold slots. fold results.
    unfold tally_of at 7. cbn [successful].
    match goal with |- context [stdout (trace ?x) ++ _] => set (w0 := x) end.
    exists (stdout (trace w0) ++ stdout (batch_prefix p a dir completion)
            ++ stdout (concat (slot_events p a dir results <$> slots))
            ++ [""; str_repeat "=" 50; "Generation complete!";
                "  Successful: " +:+ format_d (successful (tally_of rt results slots))
                  +:+ "/" +:+ format_d (successful (tally_of rt results slots)
                                        + failed (tally_of rt results slots))]
            ++ (if 0 <? failed (tally_of rt results slots)
                then ["  Failed: " +:+ format_d (failed (tally_of rt results slots)) +:+ "/"
                        +:+ format_d (successful (tally_of rt results slots)
                                      + failed (tally_of rt results slots)); ""; "Errors:"]
                     ++ errors (tally_of rt results slots)
                else [])
            ++ [""]).
    rewrite <- !app_assoc. reflexivity.
Qed.

Lemma actual_cost_is_estimate_times_successes_witness :
  exists before cost,
    stdout (trace (three_of_four_run.2)) =
    before ++ ["Actual cost: $" +:+ format_2f (sample_runtime fails_on_4) cost;
               "Output directory: out"]
    /\ cost = PrimFloat.mul 0.009%float 3%float.
Proof.
  destruct (actual_cost_is_estimate_times_successes (sample_runtime fails_on_4)
              (sample_arguments "out" 4) [3; 1; 4; 2] empty_world
              (three_of_four_run.2) eq_refl eq_refl)
    as (pname & p & cost_per_image & Hr & Hc & _ & H).
  change (Ok ("openai", sample_provider fails_on_4) = Ok (pname, p)) in Hr.
  injection Hr as <- <-.
  change (Ok 0.009%float = Ok cost_per_image) in Hc.
  injection Hc as <-.
  cbv zeta in H. destruct H as (_ & _ & before & H).
  exists before. eexists. split; [exact H|].
  vm_compute. reflexivity.
Defined.
